(** * goconfig: layered configuration loading (files < environment < flags)

    A shallow embedding of the two engines of the repository,
    [goconfig] (goconfig.go, on spf13/pflag) and [cfgloader]
    (pkg/cfgloader/cfgloader.go, on the standard flag package), together
    with the parts of the Go standard library and of koanf that their
    [New], [updateEnv] and [Load] call.

    Go strings are byte sequences: a [string] here is the list of the bytes
    of the Go string, one [ascii] per byte. *)

From Stdlib Require Import ZArith NArith Ascii String List Bool Lia.
From stdpp Require Import base option list strings gmap fin_maps.
Import ListNotations.

Local Open Scope string_scope.

(** ** Bytes *)

Module Byte8.

Definition code (c : ascii) : N := N_of_ascii c.

(** [c < utf8.RuneSelf], that is [c < 0x80]. *)
Definition isASCII (c : ascii) : bool := (code c <? 128)%N.

(** ['A' <= c && c <= 'Z'] *)
Definition isUpper (c : ascii) : bool := ((65 <=? code c) && (code c <=? 90))%N.

(** [c += 'a' - 'A'] on an upper-case letter, the byte itself otherwise. *)
Definition lower (c : ascii) : ascii :=
  if isUpper c then ascii_of_N (code c + 32) else c.

(** A UTF-8 continuation byte, [0x80 <= c <= 0xBF]. *)
Definition isCont (c : ascii) : bool := ((128 <=? code c) && (code c <=? 191))%N.

Definition inRange (lo hi : N) (c : ascii) : bool :=
  ((lo <=? code c) && (code c <=? hi))%N.

End Byte8.

(** ** unicode/utf8 *)

Module utf8.
Import Byte8.

(** The entry of the table [first] for a lead byte: [None] is [xx] (an
    invalid lead byte) or [as] (ASCII, width 1); [Some (size, lo, hi)] is the
    width of the sequence and the range accepted for its second byte. *)
Definition first (c : ascii) : option (nat * N * N) :=
  let n := code c in
  if (n <? 194)%N then None                              (* as, xx *)
  else if (n <=? 223)%N then Some (2%nat, 128%N, 191%N)         (* s1 *)
  else if (n =? 224)%N then Some (3%nat, 160%N, 191%N)          (* s2 *)
  else if (n <=? 236)%N then Some (3%nat, 128%N, 191%N)         (* s3 *)
  else if (n =? 237)%N then Some (3%nat, 128%N, 159%N)          (* s4 *)
  else if (n <=? 239)%N then Some (3%nat, 128%N, 191%N)         (* s3 *)
  else if (n =? 240)%N then Some (4%nat, 144%N, 191%N)          (* s5 *)
  else if (n <=? 243)%N then Some (4%nat, 128%N, 191%N)         (* s6 *)
  else if (n =? 244)%N then Some (4%nat, 128%N, 143%N)          (* s7 *)
  else None.

(** The width in bytes of the rune that starts [s] (as [DecodeRuneInString]
    reports it): 1 for an ASCII byte and for every invalid or truncated
    sequence. *)
Definition width (s : string) : nat :=
  match s with
  | EmptyString => 0
  | String c rest =>
      match first c with
      | None => 1
      | Some (size, lo, hi) =>
          if Nat.ltb (S (String.length rest)) size then 1
          else
            match rest with
            | String c1 rest1 =>
                if negb (inRange lo hi c1) then 1
                else if Nat.eqb size 2 then 2
                else
                  match rest1 with
                  | String c2 rest2 =>
                      if negb (isCont c2) then 1
                      else if Nat.eqb size 3 then 3
                      else
                        match rest2 with
                        | String c3 _ => if negb (isCont c3) then 1 else 4
                        | EmptyString => 1
                        end
                  | EmptyString => 1
                  end
            | EmptyString => 1
            end
      end
  end.

(** [RuneCountInString]: the loop [for i := 0; i < ns; n++ { ...; i += size }],
    with [skip] the bytes of the current rune still to be passed over. *)
Fixpoint count_from (skip : nat) (s : string) : nat :=
  match s with
  | EmptyString => 0
  | String _ rest =>
      match skip with
      | S k => count_from k rest
      | O => S (count_from (Nat.pred (width s)) rest)
      end
  end.

Definition RuneCountInString (s : string) : nat := count_from 0 s.

End utf8.

(** ** strings *)

Module strings.
Import Byte8.

Fixpoint HasPrefix (s prefix : string) {struct prefix} : bool :=
  match prefix, s with
  | EmptyString, _ => true
  | String p prefix', String c s' =>
      if Ascii.eqb c p then HasPrefix s' prefix' else false
  | String _ _, EmptyString => false
  end.

(** [s[n:]] *)
Fixpoint drop (n : nat) (s : string) : string :=
  match n, s with
  | O, _ => s
  | S n', String _ s' => drop n' s'
  | S _, EmptyString => EmptyString
  end.

(** [if HasPrefix(s, prefix) { return s[len(prefix):] }; return s] *)
Definition TrimPrefix (s prefix : string) : string :=
  if HasPrefix s prefix then drop (String.length prefix) s else s.

Fixpoint all_bytes (P : ascii -> bool) (s : string) : bool :=
  match s with
  | EmptyString => true
  | String c s' => P c && all_bytes P s'
  end.

Fixpoint map_bytes (f : ascii -> ascii) (s : string) : string :=
  match s with
  | EmptyString => EmptyString
  | String c s' => String (f c) (map_bytes f s')
  end.

Section ToLower.
(** [Map(unicode.ToLower, s)], the path [ToLower] takes when [s] holds a
    byte that is not ASCII; the Unicode case tables are not part of this
    development. *)
Variable mapUnicodeToLower : string -> string.

Definition ToLower (s : string) : string :=
  if all_bytes isASCII s then
    if all_bytes (fun c => negb (isUpper c)) s then s
    else map_bytes lower s
  else mapUnicodeToLower s.
End ToLower.

(** [Replace(s, old, new, -1)] for a one-byte [old]: every occurrence of
    the byte, from left to right, gives way to [new]. *)
Fixpoint ReplaceAll (s : string) (old : ascii) (new : string) : string :=
  match s with
  | EmptyString => EmptyString
  | String c s' =>
      if Ascii.eqb c old then String.append new (ReplaceAll s' old new)
      else String c (ReplaceAll s' old new)
  end.

(** [Replace(s, old, new, n)] with [old] the one-byte string [String old ""]:
    [old == new] returns [s] at once. *)
Definition Replace (s : string) (old : ascii) (new : string) : string :=
  if String.eqb (String old EmptyString) new then s else ReplaceAll s old new.

End strings.

(** [strings.Index], [strings.Split], [strings.SplitN] and [strings.Join]. *)

Module split.
Import strings.

(** [s[:n]] *)
Fixpoint take (n : nat) (s : string) : string :=
  match n, s with
  | O, _ => EmptyString
  | S n', String c s' => String c (take n' s')
  | S _, EmptyString => EmptyString
  end.

(** [Index(s, sep)]: the offset of the first occurrence of [sep] in [s],
    [None] for Go's [-1]. *)
Fixpoint Index (s sep : string) : option nat :=
  if HasPrefix s sep then Some 0
  else
    match s with
    | EmptyString => None
    | String _ s' => S <$> Index s' sep
    end.

(** [explode(s, -1)]: one string per UTF-8 sequence, [skip] being the bytes
    of the current sequence still to be copied into [cur]. *)
Fixpoint explode_from (skip : nat) (cur : string) (s : string) : list string :=
  match s with
  | EmptyString => match cur with EmptyString => [] | _ => [cur] end
  | String c rest =>
      match skip with
      | S k => explode_from k (String.append cur (String c EmptyString)) rest
      | O =>
          let tl := explode_from (Nat.pred (utf8.width s)) (String c EmptyString) rest in
          match cur with EmptyString => tl | _ => cur :: tl end
      end
  end.

(** The loop of [genSplit(s, sep, 0, n)] for a non-empty [sep]; [fuel] is
    the number of iterations left, [n - 1 - i]. *)
Fixpoint genSplit_loop (fuel : nat) (s sep : string) : list string :=
  match fuel with
  | O => [s]
  | S fuel' =>
      match Index s sep with
      | None => [s]
      | Some m => take m s :: genSplit_loop fuel' (drop (m + String.length sep) s) sep
      end
  end.

(** [SplitN(s, sep, n)] for a non-empty [sep] and [n > 0], given as
    [S n1]: [n] is clamped to [len(s) + 1] and the loop runs while
    [i < n - 1]. *)
Definition SplitN (s sep : string) (n1 : nat) : list string :=
  genSplit_loop (Nat.min n1 (String.length s)) s sep.

(** [Split(s, sep)] is [genSplit(s, sep, 0, -1)]: [n] becomes
    [Count(s, sep) + 1], which [len(s) + 1] bounds. *)
Definition Split (s sep : string) : list string :=
  match sep with
  | EmptyString => explode_from 0 EmptyString s
  | _ => genSplit_loop (String.length s) s sep
  end.

Fixpoint Join (elems : list string) (sep : string) : string :=
  match elems with
  | [] => EmptyString
  | [e] => e
  | e :: rest => String.append e (String.append sep (Join rest sep))
  end.

End split.

(** ** koanf

    The store of github.com/knadh/koanf/v2 and the providers the engines load
    into it. A configuration map ([map[string]interface{}], nested) is
    represented by its leaves: the key path of a leaf, one string per level,
    and the value found there. (A nested map that is empty has no leaf and is
    not represented.) *)

Inductive value : Type :=
| VString (s : string)
| VInt (z : Z)
| VBool (b : bool)
| VStrings (l : list string).

#[global] Instance value_eq_dec : EqDecision value.
Proof. solve_decision. Defined.

Abbreviation keypath := (list string).
Abbreviation confmap := (gmap (list string) value).

(** One key path leads to or through the other: in a nested map, a value at
    the one leaves no room for a value at the other. *)
Definition comparable (A B : keypath) : Prop := A `prefix_of` B \/ B `prefix_of` A.

#[global] Instance comparable_dec : RelDecision comparable.
Proof. intros A B. unfold comparable. apply _. Defined.

(** What the engines need of the world outside:
    - [mapUnicodeToLower]: the path of [strings.ToLower] for a string that is
      not all ASCII;
    - [ReadBytes]: the file provider; [yamlUnmarshal]: the YAML parser;
    - [unflattenUnordered]: what [maps.Unflatten] makes of flat keys of which
      one leads through another, which depends on the order in which Go
      ranges over the map;
    - [decodeField]: the conversion mapstructure applies when it stores a
      raw value into a field (the field's present value stands for its type);
    - [foldKey]: a representative of a key under [strings.EqualFold], by which
      mapstructure matches a field when no key of the map is its exact name;
    - [decodeLoose]: what mapstructure does with a field whose exact path the
      map does not hold while a key of the map matches it under folding or
      leads to or through it. *)
Class Externals : Type := {
  mapUnicodeToLower : string -> string;
  ReadBytes : string -> option string;
  yamlUnmarshal : string -> option confmap;
  unflattenUnordered : gmap string value -> string -> confmap;
  decodeField : value -> value -> option value;
  foldKey : string -> string;
  decodeLoose : confmap -> keypath * value -> option (keypath * value)
}.

Module maps.
Import split.

(** [strings.Split(k, delim)], the key parts of the flat key [k]. *)
Definition keyPath (delim : string) (k : string) : keypath := Split k delim.

(** The key paths of the flat keys of a map. *)
Definition keyPaths {A : Type} (delim : string) (mp : gmap string A) : list keypath :=
  (fun kv => keyPath delim kv.1) <$> map_to_list mp.

(** No path of the list leads through another. *)
Definition conflictFree (l : list keypath) : Prop :=
  Forall (fun A => Forall (fun B => A `prefix_of` B -> A = B) l) l.

#[global] Instance conflictFree_dec (l : list keypath) : Decision (conflictFree l).
Proof. unfold conflictFree. apply _. Defined.

(** [maps.Unflatten(mp, delim)]: the value of the flat key [k] goes to the
    path [Split(k, delim)], when no key leads through another. (With the
    one-byte delimiter of an engine built by [New], every key has a path of
    one part at least.) *)
Definition Unflatten `{Externals} (mp : gmap string value) (delim : string) : confmap :=
  if decide (conflictFree (keyPaths delim mp))
  then kmap (keyPath delim) mp
  else unflattenUnordered mp delim.

(** [maps.Merge(a, b)]: the leaves of [a] are written over [b]; a leaf of [b]
    stays when no leaf of [a] sits at its path, above it or below it. *)
Definition Merge (a b : confmap) : confmap :=
  a ∪ filter (fun kv => map_Forall (fun A _ => ~ comparable A kv.1) a) b.

End maps.

Module koanf.
Import split.

Record Koanf : Type := {
    confMap : confmap;
    delim : string
  }.

(** [koanf.New(delim)] *)
Definition New (d : string) : Koanf := {| confMap := ∅; delim := d |}.

(** The non-empty prefixes [parts[0:i+1]] of a key path. *)
Fixpoint keyParts (parts : keypath) : list keypath :=
  match parts with
  | [] => []
  | p :: rest => [p] :: map (cons p) (keyParts rest)
  end.

(** [ko.keyMap], as [populateKeyParts] fills it: every partial path of
    every leaf, joined with the delimiter. *)
Definition keyMap (ko : Koanf) : gset string :=
  list_to_set
    (flat_map (fun kv => map (fun q => Join q (delim ko)) (keyParts kv.1))
              (map_to_list (confMap ko))).

(** [ko.Exists(path)] *)
Definition Exists (ko : Koanf) (path : string) : bool :=
  bool_decide (path ∈ keyMap ko).

(** [ko.merge(mp)] after a successful [Read]. *)
Definition merge (ko : Koanf) (mp : confmap) : Koanf :=
  {| confMap := maps.Merge mp (confMap ko); delim := delim ko |}.

(** A struct to fill: its tagged leaf fields, each with the key path its
  [koanf] tags spell and its present value. *)
Definition target : Type := list (keypath * value).

Section Unmarshal.
Context `{Externals}.

(** A key path of the map matches the field path [P] loosely: level by level
    under folding, as far as the shorter of the two goes. *)
Definition looseMatch (P Q : keypath) : Prop :=
  comparable (foldKey <$> P) (foldKey <$> Q).

Definition unmarshalField (ko : Koanf) (fld : keypath * value)
  : option (keypath * value) :=
  match confMap ko !! fld.1 with
  | Some raw => v ← decodeField fld.2 raw; Some (fld.1, v)
  | None =>
      if decide (map_Forall (fun Q _ => ~ looseMatch fld.1 Q) (confMap ko))
      then Some fld
      else decodeLoose (confMap ko) fld
  end.

(** [ko.Unmarshal("", cfg)]: every field whose path the store holds is
    decoded from it; a field that no key of the store matches keeps its
    value. [None] is a decoding error. *)
Definition Unmarshal (ko : Koanf) (cfg : target) : option target :=
  mapM (unmarshalField ko) cfg.
End Unmarshal.

End koanf.

(** A [koanf.Provider] that is loaded without a parser: what its [Read]
    returns, [None] standing for a non-nil error. *)
Record Provider : Type := { Read : option confmap }.

(** [ko.Load(p, nil)]: [Read], then merge; the error of [Read] is returned
    as it is. *)
Definition koanf_Load (ko : koanf.Koanf) (p : Provider) : option koanf.Koanf :=
  mp ← Read p; Some (koanf.merge ko mp).

(** ** os: the environment of the process *)

Module os.
(** A variable of the environment, name and value. *)
Definition envVar : Type := string * string.

(** [os.Environ()]: one string [name=value] per variable. *)
Definition Environ (vars : list envVar) : list string :=
  map (fun nv => String.append nv.1 (String.append "=" nv.2)) vars.
End os.

(** ** koanf/providers/env *)

Module env.
Import strings split.

(** The first loop of [Read]: the entries of [os.Environ()] kept for
    loading, [if e.prefix != "" { if strings.HasPrefix(k, e.prefix) {...} }
    else {...}]. *)
Definition kept (prefix : string) (k : string) : bool :=
  if String.eqb prefix "" then true else HasPrefix k prefix.

Definition keys (prefix : string) (environ : list string) : list string :=
  List.filter (kept prefix) environ.

(** [parts := strings.SplitN(k, "=", 2)]; [parts[0]] and [parts[1]]. Every
    entry of [os.Environ()] holds an [=], so that [parts[1]] is there. *)
Definition nameOf (k : string) : string := nth 0 (SplitN k "=" 1) "".
Definition valueOf (k : string) : string := nth 1 (SplitN k "=" 1) "".

(** The second loop of [Read]: each kept entry is cut at its first [=], the
      callback renames the key, a blank key is dropped, [mp[key] = value]. *)
Definition assign (cb : string -> string) (mp : gmap string value) (k : string)
  : gmap string value :=
  let key := cb (nameOf k) in
  if String.eqb key "" then mp
  else <[key := VString (valueOf k)]> mp.

Definition flat (prefix : string) (cb : string -> string) (environ : list string)
  : gmap string value :=
  foldl (assign cb) ∅ (keys prefix environ).

(** [env.Provider(prefix, delim, cb)], with the environment it will read. *)
Definition Provider `{Externals} (environ : list string) (prefix delim : string)
    (cb : string -> string) : Provider :=
  {| Read := Some (maps.Unflatten (flat prefix cb environ) delim) |}.

End env.

(** ** spf13/pflag and koanf/providers/posflag *)

Module pflag.

(** A defined flag: its current value (the default until the command line
    sets it) as the getter of its type returns it, the constructor being the
    flag's type, and whether the command line set it. *)
Record Flag : Type := { Value : value; Changed : bool }.

(** A flag set, by flag name. *)
Abbreviation FlagSet := (gmap string Flag).

Definition Lookup (f : FlagSet) (name : string) : option Flag := f !! name.

(** [f.GetStringSlice(name)]: an error when the flag is not defined or is
    not of type [stringSlice]. *)
Definition GetStringSlice (f : FlagSet) (name : string) : option (list string) :=
  match f !! name with
  | Some {| Value := VStrings ss |} => Some ss
  | _ => None
  end.

End pflag.

Module posflag.

(** The body of the [VisitAll] callback of [Read], with the store given to
    the provider: whether the flag is written, and with what. *)
Definition visit (ko : koanf.Koanf) (key : string) (fl : pflag.Flag) : option value :=
  if String.eqb key "" then None
  else if negb (pflag.Changed fl) && koanf.Exists ko key then None
  else Some (pflag.Value fl).

(** [posflag.Provider(f, delim, ko)] *)
Definition Provider `{Externals} (f : pflag.FlagSet) (delim : string) (ko : koanf.Koanf)
  : Provider :=
  {| Read := Some (maps.Unflatten (map_imap (visit ko) f) delim) |}.

End posflag.

(** ** flag and koanf/providers/basicflag *)

Module flag.

(** A defined flag of the standard flag package: the [String()] of its
    [flag.Value], and the strings it holds when the dynamic type of the
    value is [*stringslice.StringSlice]. *)
Record Flag : Type := {
    ValueString : string;
    asStringSlice : option (list string);
    isSet : bool
  }.

Abbreviation FlagSet := (gmap string Flag).

Definition Lookup (f : FlagSet) (name : string) : option Flag := f !! name.

End flag.

Module basicflag.

(** [basicflag.Provider(f, delim)]: [Read] writes [f.Value.String()] for
    every defined flag. *)
Definition Provider `{Externals} (f : flag.FlagSet) (delim : string) : Provider :=
  {| Read := Some (maps.Unflatten ((fun fl => VString (flag.ValueString fl)) <$> f) delim) |}.

End basicflag.

(** ** Loading one configuration file *)

Inductive fileError : Type :=
| ReadError      (* the file provider could not read the path *)
| DecodeError.   (* the parser rejected the content *)

Section LoadFile.
Context `{Externals}.

(** [k.Load(file.Provider(c), yaml.Parser())]: [ReadBytes], [Unmarshal],
    merge. *)
Definition loadFile (ko : koanf.Koanf) (c : string) : koanf.Koanf + fileError :=
  match ReadBytes c with
  | None => inr ReadError
  | Some b =>
      match yamlUnmarshal b with
      | None => inr DecodeError
      | Some mp => inl (koanf.merge ko mp)
      end
  end.
End LoadFile.

(** What a call of [Load] comes to. *)
Inductive outcome (E : Type) : Type :=
| Loaded (cfg : koanf.target)   (* [return nil], the target filled *)
| Failed (e : E)                (* [return fmt.Errorf(...)] *)
| Exited.                       (* [log.Fatalf]: the process exits *)
Arguments Loaded {E} cfg.
Arguments Failed {E} e.
Arguments Exited {E}.

(** [if err := k.Unmarshal("", cfg); err != nil { return fmt.Errorf(...) };
    return nil] *)
Definition materialize `{Externals} {E : Type} (err : E) (k : koanf.Koanf)
    (cfg : koanf.target) : outcome E :=
  match koanf.Unmarshal k cfg with
  | None => Failed err
  | Some cfg' => Loaded cfg'
  end.

(** ** package goconfig (goconfig.go) *)

Module goconfig.

Definition FileArgName : string := "config".

Record Config : Type := { prefix : string; delimiter : string }.

Inductive error : Type :=
  | BadDelimiterError (d : string)   (* "invalid delimiter %q: %w" *)
  | GetStringSliceError              (* "Load GetStringSlice: %v" *)
  | LoadFileError (c : string) (cause : fileError)   (* "Load file %s: %v" *)
  | LoadEnvError                     (* "Load env: %v" *)
  | LoadUnmarshalError.              (* "Load unmarshal: %v" *)

Definition New (envPrefix flagDelimiter : string) : Config + error :=
  if negb (Nat.eqb (String.length flagDelimiter) 1)
  then inr (BadDelimiterError flagDelimiter)
  else inl {| prefix := envPrefix; delimiter := flagDelimiter |}.

Section Engine.
Context `{Externals}.

Definition updateEnv (c : Config) (s : string) : string :=
  strings.Replace
    (strings.ToLower mapUnicodeToLower (strings.TrimPrefix s (prefix c)))
    "_" (delimiter c).

(** [for _, c := range ss { if err := k.Load(...); err != nil { return ... } }],
    with the paths handed to the file provider, in order. *)
Fixpoint loadFiles (k : koanf.Koanf) (ss : list string)
  : list string * (koanf.Koanf + error) :=
  match ss with
  | [] => ([], inl k)
  | c :: rest =>
      match loadFile k c with
      | inr cause => ([c], inr (LoadFileError c cause))
      | inl k' => let r := loadFiles k' rest in (c :: r.1, r.2)
      end
  end.

(** The file step: skipped when no flag is named [FileArgName]. *)
Definition fileStep (k : koanf.Koanf) (f : pflag.FlagSet)
  : list string * (koanf.Koanf + error) :=
  match pflag.Lookup f FileArgName with
  | Some _ =>
      match pflag.GetStringSlice f FileArgName with
      | None => ([], inr GetStringSliceError)
      | Some ss => loadFiles k ss
      end
  | None => ([], inl k)
  end.

Section Providers.
(** The two providers the engine builds, [env.Provider] and
    [posflag.Provider]. *)
Variable envProvider : string -> string -> (string -> string) -> Provider.
Variable flagProvider : pflag.FlagSet -> string -> koanf.Koanf -> Provider.

(** The steps after the files: environment, flags, unmarshal. *)
Definition overlay (c : Config) (f : pflag.FlagSet) (cfg : koanf.target)
    (k : koanf.Koanf) : outcome error :=
  match koanf_Load k (envProvider (prefix c) (delimiter c) (updateEnv c)) with
  | None => Failed LoadEnvError
  | Some k1 =>
      match koanf_Load k1 (flagProvider f "." k1) with
      | None => Exited
      | Some k2 => materialize LoadUnmarshalError k2 cfg
      end
  end.

(** [Load]: the paths read, and the outcome. *)
Definition Load_with (c : Config) (f : pflag.FlagSet) (cfg : koanf.target)
  : list string * outcome error :=
  let k := koanf.New (delimiter c) in
  match fileStep k f with
  | (reads, inr e) => (reads, Failed e)
  | (reads, inl k0) => (reads, overlay c f cfg k0)
  end.
End Providers.

(** [Load] in a process whose environment is [environ]. *)
Definition Load (environ : list os.envVar) (c : Config) (f : pflag.FlagSet)
    (cfg : koanf.target) : list string * outcome error :=
  Load_with (env.Provider (os.Environ environ)) posflag.Provider c f cfg.
End Engine.

End goconfig.

(** ** package cfgloader (pkg/cfgloader/cfgloader.go) *)

Module cfgloader.

Definition FileArgName : string := "config".

Record Config : Type := { prefix : string; delimiter : string }.

Inductive error : Type :=
  | BadDelimiterError (d : string)   (* "delimiter must contain exactly 1 character: %q" *)
  | StringSliceConversionError       (* "Load string slice conversion error" *)
  | LoadFileError (c : string) (cause : fileError)   (* "Load file %s: %v" *)
  | LoadEnvError                     (* "Load env: %v" *)
  | LoadFlagsError                   (* "Load flags: %v" *)
  | LoadUnmarshalError.              (* "Load unmarshal: %v" *)

Definition New (envPrefix flagDelimiter : string) : Config + error :=
  if negb (Nat.eqb (String.length flagDelimiter) 1)
  then inr (BadDelimiterError flagDelimiter)
  else inl {| prefix := envPrefix; delimiter := flagDelimiter |}.

Section Engine.
Context `{Externals}.

Definition updateEnv (c : Config) (s : string) : string :=
  strings.Replace
    (strings.ToLower mapUnicodeToLower (strings.TrimPrefix s (prefix c)))
    "_" (delimiter c).

Fixpoint loadFiles (k : koanf.Koanf) (ss : list string)
  : list string * (koanf.Koanf + error) :=
  match ss with
  | [] => ([], inl k)
  | c :: rest =>
      match loadFile k c with
      | inr cause => ([c], inr (LoadFileError c cause))
      | inl k' => let r := loadFiles k' rest in (c :: r.1, r.2)
      end
  end.

(** The file step: the flag named [FileArgName], when there is one, must
    hold a [*stringslice.StringSlice]. *)
Definition fileStep (k : koanf.Koanf) (f : flag.FlagSet)
  : list string * (koanf.Koanf + error) :=
  match flag.Lookup f FileArgName with
  | Some c =>
      match flag.asStringSlice c with
      | None => ([], inr StringSliceConversionError)
      | Some ss => loadFiles k ss
      end
  | None => ([], inl k)
  end.

Section Providers.
(** The two providers the engine builds, [env.Provider] and
    [basicflag.Provider]. *)
Variable envProvider : string -> string -> (string -> string) -> Provider.
Variable flagProvider : flag.FlagSet -> string -> Provider.

Definition overlay (c : Config) (f : flag.FlagSet) (cfg : koanf.target)
    (k : koanf.Koanf) : outcome error :=
  match koanf_Load k (envProvider (prefix c) (delimiter c) (updateEnv c)) with
  | None => Failed LoadEnvError
  | Some k1 =>
      match koanf_Load k1 (flagProvider f (delimiter c)) with
      | None => Failed LoadFlagsError
      | Some k2 => materialize LoadUnmarshalError k2 cfg
      end
  end.

Definition Load_with (c : Config) (cfg : koanf.target) (f : flag.FlagSet)
  : list string * outcome error :=
  let k := koanf.New (delimiter c) in
  match fileStep k f with
  | (reads, inr e) => (reads, Failed e)
  | (reads, inl k0) => (reads, overlay c f cfg k0)
  end.
End Providers.

(** [Load] in a process whose environment is [environ]. *)
Definition Load (environ : list os.envVar) (c : Config) (cfg : koanf.target)
    (f : flag.FlagSet) : list string * outcome error :=
  Load_with (env.Provider (os.Environ environ)) basicflag.Provider c cfg f.
End Engine.

End cfgloader.

(** ** A small world to run the engines in

    The constants and the target struct of the repository's tests, an
    in-memory file system, and a decoder for the data of the tests: decimal
    numerals into integer fields. It is no model of mapstructure or of
    Unicode: a numeral with a base prefix or a leading zero, which Go reads
    in another base, is declined, and beyond Latin-1 no letter is
    lower-cased. The theorems hold in every world; this one serves to run
    the engines on the data of the tests. *)

Module Fixture.

Definition digit (c : ascii) : option Z :=
  let n := Byte8.code c in
  if ((48 <=? n) && (n <=? 57))%N then Some (Z.of_N n - 48)%Z else None.

Fixpoint parseDigits (acc : Z) (s : string) : option Z :=
  match s with
  | EmptyString => Some acc
  | String c s' => d ← digit c; parseDigits (10 * acc + d)%Z s'
  end.

(** A decimal numeral without a leading zero. *)
Definition parseNat (s : string) : option Z :=
  match s with
  | EmptyString => None
  | String "0" (String _ _) => None
  | _ => parseDigits 0 s
  end.

(** An optional sign and a decimal numeral, within 64 bits. *)
Definition parseInt (s : string) : option Z :=
  match s with
  | String "-" s' =>
      z ← parseNat s'; if (z <=? 9223372036854775808)%Z then Some (- z)%Z else None
  | String "+" s' =>
      z ← parseNat s'; if (z <? 9223372036854775808)%Z then Some z else None
  | _ => z ← parseNat s; if (z <? 9223372036854775808)%Z then Some z else None
  end.

Definition decode (cur raw : value) : option value :=
  match cur, raw with
  | VInt _, VInt z => Some (VInt z)
  | VInt _, VString s => VInt <$> parseInt s
  | VString _, VString s => Some (VString s)
  | VBool _, VBool b => Some (VBool b)
  | VStrings _, VStrings l => Some (VStrings l)
  | _, _ => None
  end.

(** Lower-casing of a text that is not all ASCII, for the letters of ASCII
    and of Latin-1 ([U+00C0] to [U+00DE] but [U+00D7], in UTF-8 the byte
    [0xC3] and a byte from [0x80] to [0x9E] but [0x97]); other letters, and
    bytes that are not UTF-8, are left as they are. *)
Fixpoint lowerLatin1 (s : string) : string :=
  match s with
  | EmptyString => EmptyString
  | String c s' =>
      if Ascii.eqb c "195" then
        match s' with
        | String b s'' =>
            if (Byte8.inRange 128 158 b && negb (Ascii.eqb b "151"))%bool
            then String c (String (ascii_of_N (Byte8.code b + 32)) (lowerLatin1 s''))
            else String c (String b (lowerLatin1 s''))
        | EmptyString => String c EmptyString
        end
      else String (Byte8.lower c) (lowerLatin1 s')
  end.

(** A field whose exact path the map does not hold takes the value of a key
    that is its path under folding; a key that only leads to the field or
    through it holds a scalar where a struct is expected, or the reverse, and
    is an error. *)
Definition fold (P : keypath) : keypath := strings.map_bytes Byte8.lower <$> P.

Definition decodeFolded (mp : confmap) (fld : keypath * value)
  : option (keypath * value) :=
  match List.filter (fun kv => bool_decide (fold kv.1 = fold fld.1)) (map_to_list mp) with
  | (_, raw) :: _ => v ← decode fld.2 raw; Some (fld.1, v)
  | [] => None
  end.

Definition goodFile : string := "testdata/good.json".
Definition emptyFile : string := "testdata/empty.json".
Definition badFile : string := "testdata/bad.json".

Definition readBytes (path : string) : option string :=
  if String.eqb path goodFile then Some "good"
  else if String.eqb path emptyFile then Some "{}"
  else if String.eqb path badFile then Some "{bad"
  else None.

Definition goodMap : confmap :=
  <[ ["value1"] := VInt 101 ]> (<[ ["nested"; "nestedvalue"] := VInt 102 ]> ∅).

Definition parse (content : string) : option confmap :=
  if String.eqb content "good" then Some goodMap
  else if String.eqb content "{}" then Some ∅
  else None.

(** A world for the tests' ASCII data: the files above, the decoder above. *)
#[export] Instance world : Externals := {|
    mapUnicodeToLower := lowerLatin1;
    ReadBytes := readBytes;
    yamlUnmarshal := parse;
    unflattenUnordered := fun _ _ => ∅;
    decodeField := decode;
    foldKey := strings.map_bytes Byte8.lower;
    decodeLoose := decodeFolded
  |}.

(** The same world with one more file, which sets [value1] to 7. *)
Definition overlaid : Externals := {|
  mapUnicodeToLower := lowerLatin1;
  ReadBytes := fun path => if String.eqb path "first.yaml" then Some "first" else readBytes path;
  yamlUnmarshal := fun content =>
    if String.eqb content "first" then Some (<[ ["value1"] := VInt 7 ]> ∅) else parse content;
  unflattenUnordered := fun _ _ => ∅;
  decodeField := decode;
  foldKey := strings.map_bytes Byte8.lower;
  decodeLoose := decodeFolded
|}.

(** The delimiter [é]: one rune, two bytes ([0xC3 0xA9]). *)
Definition eAcute : string := String "195" (String "169" EmptyString).

(** [var cfg testConfig] *)
Definition testConfig (v1 v2 v3 nested : Z) : koanf.target :=
  [ (["value1"], VInt v1); (["value2"], VInt v2); (["value3"], VInt v3);
    (["nested"; "nestedvalue"], VInt nested) ].

Definition intFlag (z : Z) (changed : bool) : pflag.Flag :=
  {| pflag.Value := VInt z; pflag.Changed := changed |}.

Definition configFlag (files : list string) : pflag.Flag :=
  {| pflag.Value := VStrings files; pflag.Changed := true |}.

Definition stringFlag (str : string) (set : bool) : flag.Flag :=
  {| flag.ValueString := str; flag.asStringSlice := None; flag.isSet := set |}.

Definition sliceFlag (str : string) (files : list string) : flag.Flag :=
  {| flag.ValueString := str; flag.asStringSlice := Some files; flag.isSet := true |}.

End Fixture.

(** ** The specification's wording, for comparison with the code *)

Module Spec.
Import strings.

(** "exactly one character (measured as a single code unit/rune, not byte
    length)". *)
Definition oneCharacter (d : string) : Prop := utf8.RuneCountInString d = 1.

(** The remainder of [s] after the leading substring [prefix], when [s]
    starts with it byte for byte. *)
Fixpoint stripPrefix (prefix s : string) : option string :=
  match prefix, s with
  | EmptyString, _ => Some s
  | String a prefix', String b s' =>
      if Ascii.eqb a b then stripPrefix prefix' s' else None
  | String _ _, EmptyString => None
  end.

(** "replace every underscore with the configured delimiter character",
    byte by byte. *)
Definition substitute (d : ascii) (s : string) : string :=
  map_bytes (fun c => if Ascii.eqb c "_" then d else c) s.

(** "lower-case", letter by letter: [A] to [Z] give way to [a] to [z], every
    other byte stays. *)
Definition lowerLetter (c : ascii) : ascii :=
  match c with
  | "A" => "a" | "B" => "b" | "C" => "c" | "D" => "d" | "E" => "e" | "F" => "f"
  | "G" => "g" | "H" => "h" | "I" => "i" | "J" => "j" | "K" => "k" | "L" => "l"
  | "M" => "m" | "N" => "n" | "O" => "o" | "P" => "p" | "Q" => "q" | "R" => "r"
  | "S" => "s" | "T" => "t" | "U" => "u" | "V" => "v" | "W" => "w" | "X" => "x"
  | "Y" => "y" | "Z" => "z"
  | _ => c
  end%char.

(** "lower-case the remainder": letter by letter when the remainder is a
    text of ASCII bytes (each below 128). What lower-casing is on a text with
    other bytes is Unicode's to say, not this development's: there it is
    [unicode], whatever maps a text to its lower case. *)
Definition lowerCase (unicode : string -> string) (s : string) : string :=
  if all_bytes (fun c => (N_of_ascii c <? 128)%N) s then map_bytes lowerLetter s
  else unicode s.

(** "strip the configured prefix from the start of the raw name (if present
    as an exact leading substring); lower-case the remainder; replace every
    underscore with the configured delimiter character". *)
Definition normalize (unicode : string -> string) (prefix : string) (d : ascii)
    (s : string) : string :=
  substitute d (lowerCase unicode (default s (stripPrefix prefix s))).

(** "after case-insensitive comparison, it begins with the configured
    prefix". *)
Definition beginsWithFold (name prefix : string) : bool :=
  HasPrefix (map_bytes Byte8.lower name) (map_bytes Byte8.lower prefix).

(** "an environment variable is eligible if and only if its name begins with
    the configured prefix under case-insensitive comparison; when the prefix
    is empty, every environment variable is eligible". *)
Definition eligible (prefix : string) (name : string) : bool :=
  if String.eqb prefix "" then true else beginsWithFold name prefix.

End Spec.

(** ** Vocabulary of the statements *)

(** The bytes of [s] are all different from [=]. *)
Definition noEquals (s : string) : bool :=
  strings.all_bytes (fun c => negb (Ascii.eqb c "=")) s.

(** The key paths the environment provider writes to: one per kept entry. *)
Definition envPaths (prefix : string) (cb : string -> string) (delim : string)
    (vars : list os.envVar) : list keypath :=
  (fun k => maps.keyPath delim (cb (env.nameOf k))) <$> env.keys prefix (os.Environ vars).

(** The environment gives the flat key [key] the value [v]: the variable
    [n=v] is kept, the callback renames [n] to [key], and no kept variable
    after it in the environment is renamed to [key]. *)
Definition envSets (prefix : string) (cb : string -> string)
    (vars : list os.envVar) (key v : string) : Prop :=
  key <> ""
  /\ exists before n after,
      vars = (before ++ (n, v) :: after)%list
      /\ noEquals n = true
      /\ env.kept prefix (String.append n (String.append "=" v)) = true
      /\ cb n = key
      /\ Forall (fun k => env.kept prefix k = true -> cb (env.nameOf k) <> key)
           (os.Environ after).

(** No kept variable of the environment is renamed to a key whose path is
    [P], leads to [P] or goes through [P]. *)
Definition envSilent (prefix : string) (cb : string -> string) (delim : string)
    (vars : list os.envVar) (P : keypath) : Prop :=
  Forall (fun Q => ~ comparable Q P) (envPaths prefix cb delim vars).

#[global] Instance envSilent_dec (prefix : string) (cb : string -> string) (delim : string)
  (vars : list os.envVar) (P : keypath) : Decision (envSilent prefix cb delim vars P).
Proof. unfold envSilent. apply _. Defined.

(** The load, taken as a function of the target, holds [raw] at the key path
    [P]: whenever it succeeds, each field of the target tagged [P] holds [raw]
    decoded; on a target with a field tagged [P] into which [raw] does not
    decode it fails with [err]; and on the target that is one field tagged
    [P], into which [raw] decodes, it succeeds and returns the field with [raw]
    decoded. *)
Definition holdsAt `{Externals} {E : Type} (err : E) (load : koanf.target -> outcome E)
    (P : keypath) (raw : value) : Prop :=
  (forall cfg cfg' i cur, cfg !! i = Some (P, cur) -> load cfg = Loaded cfg' ->
     exists v, decodeField cur raw = Some v /\ cfg' !! i = Some (P, v))
  /\ (forall cfg cur, (P, cur) ∈ cfg -> decodeField cur raw = None -> load cfg = Failed err)
  /\ (forall cur v, decodeField cur raw = Some v -> load [(P, cur)] = Loaded [(P, v)]).

(** Every file of [ss] can be read and decodes to the empty map. *)
Definition filesEmpty `{Externals} (ss : list string) : Prop :=
  Forall (fun c => exists b, ReadBytes c = Some b /\ yamlUnmarshal b = Some ∅) ss.

(** Every file of [ss] can be read and decoded; [mps] are the maps decoded,
    in the order of [ss]. *)
Definition filesDecode `{Externals} (ss : list string) (mps : list confmap) : Prop :=
  Forall2 (fun c mp => exists b, ReadBytes c = Some b /\ yamlUnmarshal b = Some mp) ss mps.

(** The file [c] cannot be loaded, and why. *)
Definition fileFails `{Externals} (c : string) (cause : fileError) : Prop :=
  match cause with
  | ReadError => ReadBytes c = None
  | DecodeError => exists b, ReadBytes c = Some b /\ yamlUnmarshal b = None
  end.

(** The configuration of the legacy engine with the same prefix and
    delimiter, and the legacy error of the same class. *)
Definition legacy (c : goconfig.Config) : cfgloader.Config :=
  {| cfgloader.prefix := goconfig.prefix c; cfgloader.delimiter := goconfig.delimiter c |}.

Definition legacyError (e : goconfig.error) : cfgloader.error :=
  match e with
  | goconfig.BadDelimiterError d => cfgloader.BadDelimiterError d
  | goconfig.GetStringSliceError => cfgloader.StringSliceConversionError
  | goconfig.LoadFileError c cause => cfgloader.LoadFileError c cause
  | goconfig.LoadEnvError => cfgloader.LoadEnvError
  | goconfig.LoadUnmarshalError => cfgloader.LoadUnmarshalError
  end.

Definition legacyOutcome (o : outcome goconfig.error) : outcome cfgloader.error :=
  match o with
  | Loaded cfg => Loaded cfg
  | Failed e => Failed (legacyError e)
  | Exited => Exited
  end.

(** The two flag sets name the same configuration files: neither defines
    [config], or both do and hold the same list of paths, or both hold a
    value of another type. *)
Definition sameFiles (f : pflag.FlagSet) (f' : flag.FlagSet) : Prop :=
  match f !! goconfig.FileArgName, f' !! cfgloader.FileArgName with
  | None, None => True
  | Some fl, Some fl' =>
      match pflag.Value fl with
      | VStrings ss => flag.asStringSlice fl' = Some ss
      | _ => flag.asStringSlice fl' = None
      end
  | _, _ => False
  end.

(** ** Vocabulary of the further properties *)

(** No byte of [s] is [c]. *)
Definition noByte (c : ascii) (s : string) : bool :=
  strings.all_bytes (fun b => negb (Ascii.eqb b c)) s.

(** Every byte of [s] is ASCII. *)
Definition isASCIIString (s : string) : bool := strings.all_bytes Byte8.isASCII s.

(** No byte of [s] is an upper-case ASCII letter. *)
Definition noUpper (s : string) : bool :=
  strings.all_bytes (fun c => negb (Byte8.isUpper c)) s.

(** The entry of [os.Environ()] for a variable. *)
Definition entry (nv : os.envVar) : string :=
  String.append nv.1 (String.append "=" nv.2).

(** No leaf of the map sits at [P], above it or below it. *)
Definition clearOf (mp : confmap) (P : keypath) : Prop :=
  forall A, is_Some (mp !! A) -> ~ comparable A P.

(** No defined flag has a name whose path (under [delim]) is [P], leads to
    [P] or goes through [P]. *)
Definition flagsClearOf {A : Type} (delim : string) (f : gmap string A) (P : keypath)
  : Prop :=
  forall fn, is_Some (f !! fn) -> ~ comparable (maps.keyPath delim fn) P.

(** No segment of the key path holds the byte [c]. *)
Definition segmentsFree (c : ascii) (P : keypath) : Prop :=
  Forall (fun seg => noByte c seg = true) P.

(** No key path of the list matches the field path [P], not even loosely. *)
Definition unmatched `{Externals} (P : keypath) (l : list keypath) : Prop :=
  Forall (fun Q => ~ koanf.looseMatch P Q) l.

(** ** Vocabulary of the comparison of the engines *)

#[global] Instance from_option_dec {A : Type} (P : A -> Prop) (Q : Prop) (o : option A)
  `{forall a, Decision (P a)} `{Decision Q} : Decision (from_option P Q o).
Proof. destruct o; apply _. Defined.

(** Every flag name spells the same path under the dot, which the flag
    provider of the current engine is given, and under the delimiter [d],
    which that of the legacy engine is given: so it is when [d] is the dot,
    and when no name holds a dot or [d]. *)
Definition samePaths {A : Type} (d : ascii) (f : gmap string A) : Prop :=
  map_Forall (fun fn _ => maps.keyPath "." fn = maps.keyPath (String d EmptyString) fn) f.

(** Every flag that was not set has a name the store does not know. *)
Definition unsetUnknown (k : koanf.Koanf) (f : pflag.FlagSet) : Prop :=
  map_Forall (fun fn fl => pflag.Changed fl = false -> koanf.Exists k fn = false) f.

(** The fields of the target that the flags name take the value of a flag as
    the string it prints to, which the legacy engine writes, as they take the
    value itself, which the current engine writes. *)
Definition decodesAlike `{Externals} (f : pflag.FlagSet) (f' : flag.FlagSet)
    (cfg : koanf.target) : Prop :=
  Forall (fun fld =>
    map_Forall (fun fn fl =>
      maps.keyPath "." fn = fld.1 ->
      from_option (fun fl' => decodeField fld.2 (pflag.Value fl)
                              = decodeField fld.2 (VString (flag.ValueString fl')))
        True (f' !! fn)) f) cfg.

(** The keys of the store and the names of the flags that match a field of
    the target, however loosely, are spelled as the field is tagged. *)
Definition spelledAsTagged `{Externals} (cfg : koanf.target) (k : koanf.Koanf)
    (f : pflag.FlagSet) : Prop :=
  Forall (fun fld =>
    map_Forall (fun Q _ => koanf.looseMatch fld.1 Q -> Q = fld.1) (koanf.confMap k)
    /\ Forall (fun Q => koanf.looseMatch fld.1 Q -> Q = fld.1) (maps.keyPaths "." f)) cfg.

(** * Properties *)

#[local] Existing Instance Fixture.world.

(** A decidable statement about concrete data, settled by evaluation. *)
Ltac by_evaluation :=
  match goal with
  | |- ?P => apply (@bool_decide_unpack P _); vm_compute; exact I
  end.

(** ** Strings *)

Section StringFacts.
Import strings split.

Lemma append_cons (a : ascii) (p r : string) :
  String.append (String a p) r = String a (String.append p r).
Proof. reflexivity. Qed.

Lemma append_empty (r : string) : String.append EmptyString r = r.
Proof. reflexivity. Qed.

Lemma HasPrefix_app (p r : string) : HasPrefix (String.append p r) p = true.
Proof.
  induction p as [|a p IH]; [reflexivity|].
  rewrite append_cons. simpl. rewrite Ascii.eqb_refl. exact IH.
Qed.

Lemma drop_app (p r : string) : drop (String.length p) (String.append p r) = r.
Proof.
  induction p as [|a p IH]; [reflexivity|].
  rewrite append_cons. simpl. exact IH.
Qed.

Lemma HasPrefix_true (s p : string) :
  HasPrefix s p = true -> s = String.append p (drop (String.length p) s).
Proof.
  revert s. induction p as [|a p IH]; intros s Hs; simpl in *; [reflexivity|].
  destruct s as [|c s]; [discriminate|].
  destruct (Ascii.eqb_spec c a) as [->|]; [|discriminate].
  simpl. rewrite append_cons. f_equal. apply IH. exact Hs.
Qed.

Lemma HasPrefix_iff (s p : string) :
  HasPrefix s p = true <-> exists r, s = String.append p r.
Proof.
  split.
  - intros Hs. eexists. apply HasPrefix_true. exact Hs.
  - intros [r ->]. apply HasPrefix_app.
Qed.

Lemma TrimPrefix_app (p r : string) : TrimPrefix (String.append p r) p = r.
Proof. unfold TrimPrefix. rewrite HasPrefix_app. apply drop_app. Qed.

Lemma stripPrefix_HasPrefix (p s : string) :
  Spec.stripPrefix p s = if HasPrefix s p then Some (drop (String.length p) s) else None.
Proof.
  revert s. induction p as [|a p IH]; intros s; simpl; [reflexivity|].
  destruct s as [|c s]; [reflexivity|].
  rewrite (Ascii.eqb_sym a c). destruct (Ascii.eqb c a); [apply IH|reflexivity].
Qed.

Lemma TrimPrefix_stripPrefix (p s : string) :
  TrimPrefix s p = default s (Spec.stripPrefix p s).
Proof.
  unfold TrimPrefix. rewrite stripPrefix_HasPrefix.
  destruct (HasPrefix s p); reflexivity.
Qed.

Lemma ReplaceAll_byte (s : string) (old d : ascii) :
  ReplaceAll s old (String d EmptyString)
  = map_bytes (fun c => if Ascii.eqb c old then d else c) s.
Proof.
  induction s as [|c s IH]; simpl; [reflexivity|].
  rewrite IH. destruct (Ascii.eqb c old); [rewrite append_cons|]; reflexivity.
Qed.

Lemma map_bytes_id (f : ascii -> ascii) (s : string) :
  (forall c, f c = c) -> map_bytes f s = s.
Proof. intros Hf. induction s as [|c s IH]; simpl; [reflexivity|]. now rewrite Hf, IH. Qed.

Lemma Replace_byte (s : string) (old d : ascii) :
  Replace s old (String d EmptyString)
  = map_bytes (fun c => if Ascii.eqb c old then d else c) s.
Proof.
  unfold Replace. simpl.
  destruct (Ascii.eqb_spec old d) as [->|Hne]; simpl.
  - symmetry. apply map_bytes_id. intros c.
    destruct (Ascii.eqb_spec c d); congruence.
  - apply ReplaceAll_byte.
Qed.

Lemma map_bytes_length (f : ascii -> ascii) (s : string) :
  String.length (map_bytes f s) = String.length s.
Proof. induction s; simpl; congruence. Qed.

End StringFacts.

(** [Split] and [Join] *)

Section SplitFacts.
Import strings split.

Lemma take_drop (n : nat) (s : string) : String.append (take n s) (drop n s) = s.
Proof.
  revert s. induction n as [|n IH]; intros [|c s]; try reflexivity.
  simpl. rewrite append_cons. f_equal. apply IH.
Qed.

Lemma drop_drop (n m : nat) (s : string) : drop m (drop n s) = drop (n + m) s.
Proof.
  revert s. induction n as [|n IH]; intros s; [reflexivity|].
  destruct s as [|c s]; simpl; [destruct m; reflexivity|apply IH].
Qed.

Lemma Index_Some (s sep : string) (m : nat) :
  Index s sep = Some m ->
  s = String.append (take m s) (String.append sep (drop (m + String.length sep) s)).
Proof.
  revert m. induction s as [|c s IH]; intros m; simpl.
  - destruct (HasPrefix "" sep) eqn:Hp; [|discriminate].
    intros [= <-]. simpl. rewrite append_empty. apply HasPrefix_true. exact Hp.
  - destruct (HasPrefix (String c s) sep) eqn:Hp.
    + intros [= <-]. cbn [take Nat.add]. rewrite append_empty.
      apply HasPrefix_true. exact Hp.
    + destruct (Index s sep) as [m'|] eqn:Hi; [|discriminate].
      intros [= <-]. cbn [take Nat.add drop]. rewrite append_cons. f_equal.
      apply IH. reflexivity.
Qed.

Lemma Join_cons (e : string) (l : list string) (sep : string) :
  l <> [] -> Join (e :: l) sep = String.append e (String.append sep (Join l sep)).
Proof. destruct l; [congruence|reflexivity]. Qed.

Lemma genSplit_loop_nonempty (fuel : nat) (s sep : string) : genSplit_loop fuel s sep <> [].
Proof. destruct fuel; simpl; [discriminate|]. destruct (Index s sep); discriminate. Qed.

Lemma Join_genSplit_loop (fuel : nat) (s sep : string) :
  Join (genSplit_loop fuel s sep) sep = s.
Proof.
  revert s. induction fuel as [|fuel IH]; intros s; simpl; [reflexivity|].
  destruct (Index s sep) as [m|] eqn:Hi; [|reflexivity].
  rewrite Join_cons by apply genSplit_loop_nonempty.
  rewrite IH. symmetry. apply Index_Some. exact Hi.
Qed.

Lemma Join_Split (s : string) (a : ascii) (sep : string) :
  Join (Split s (String a sep)) (String a sep) = s.
Proof. apply Join_genSplit_loop. Qed.

Lemma Split_nonempty (s : string) (a : ascii) (sep : string) :
  split.Split s (String a sep) <> [].
Proof. apply genSplit_loop_nonempty. Qed.

Lemma keyPath_inj (a : ascii) (sep : string) :
  Inj (=) (=) (maps.keyPath (String a sep)).
Proof.
  intros s1 s2 Heq. unfold maps.keyPath in Heq.
  rewrite <- (Join_Split s1 a sep), <- (Join_Split s2 a sep). now rewrite Heq.
Qed.

End SplitFacts.

#[local] Existing Instance keyPath_inj.

(** ** Maps of leaves: conflicts, unflattening, merging *)

Section MapFacts.
Context `{Externals}.

Lemma comparable_refl (P : keypath) : comparable P P.
Proof. left. reflexivity. Qed.

Lemma comparable_sym (P Q : keypath) : comparable P Q -> comparable Q P.
Proof. unfold comparable. tauto. Qed.

Lemma conflictFree_eq (l : list keypath) (A B : keypath) :
  maps.conflictFree l -> A ∈ l -> B ∈ l -> comparable A B -> A = B.
Proof.
  unfold maps.conflictFree. rewrite Forall_forall. intros Hl HA HB [Hc|Hc].
  - specialize (Hl A HA). rewrite Forall_forall in Hl. now apply Hl.
  - specialize (Hl B HB). rewrite Forall_forall in Hl. symmetry. now apply Hl.
Qed.

Lemma conflictFree_subset (l1 l2 : list keypath) :
  (forall A, A ∈ l1 -> A ∈ l2) -> maps.conflictFree l2 -> maps.conflictFree l1.
Proof.
  intros Hsub Hl2. unfold maps.conflictFree.
  apply Forall_forall. intros A HA. apply Forall_forall. intros B HB Hp.
  apply (conflictFree_eq l2); auto. now left.
Qed.

Lemma elem_of_keyPaths {A : Type} (delim : string) (mp : gmap string A) (P : keypath) :
  P ∈ maps.keyPaths delim mp <-> exists k, is_Some (mp !! k) /\ maps.keyPath delim k = P.
Proof.
  unfold maps.keyPaths. rewrite list_elem_of_fmap. split.
  - intros ([k x] & -> & Hin). apply elem_of_map_to_list in Hin. exists k. eauto.
  - intros (k & [x Hx] & <-). exists (k, x). split; [reflexivity|].
    now apply elem_of_map_to_list.
Qed.

Lemma conflictFree_keyPaths_sub {A B : Type} (delim : string)
    (mp1 : gmap string A) (mp2 : gmap string B) :
  (forall k, is_Some (mp1 !! k) -> is_Some (mp2 !! k)) ->
  maps.conflictFree (maps.keyPaths delim mp2) ->
  maps.conflictFree (maps.keyPaths delim mp1).
Proof.
  intros Hsub. apply conflictFree_subset. intros P.
  rewrite !elem_of_keyPaths. intros (k & Hk & HP). eauto.
Qed.

Lemma Unflatten_free (mp : gmap string value) (delim : string) :
  maps.conflictFree (maps.keyPaths delim mp) ->
  maps.Unflatten mp delim = kmap (maps.keyPath delim) mp.
Proof. intros Hf. unfold maps.Unflatten. now rewrite decide_True. Qed.

Lemma Unflatten_lookup (mp : gmap string value) (a : ascii) (sep k : string) :
  maps.conflictFree (maps.keyPaths (String a sep) mp) ->
  maps.Unflatten mp (String a sep) !! maps.keyPath (String a sep) k = mp !! k.
Proof.
  intros Hf. rewrite Unflatten_free by exact Hf.
  apply (lookup_kmap (maps.keyPath (String a sep))).
Qed.

Lemma Unflatten_lookup_Some (mp : gmap string value) (a : ascii) (sep : string)
    (P : keypath) (x : value) :
  maps.conflictFree (maps.keyPaths (String a sep) mp) ->
  maps.Unflatten mp (String a sep) !! P = Some x ->
  exists k, maps.keyPath (String a sep) k = P /\ mp !! k = Some x.
Proof.
  intros Hf. rewrite Unflatten_free by exact Hf.
  rewrite lookup_kmap_Some by apply _. intros (k & -> & Hk). eauto.
Qed.

Lemma Merge_lookup_new (a b : confmap) (P : keypath) (x : value) :
  a !! P = Some x -> maps.Merge a b !! P = Some x.
Proof. intros Hx. apply lookup_union_Some_l. exact Hx. Qed.

Lemma Merge_lookup_old (a b : confmap) (P : keypath) :
  (forall A, is_Some (a !! A) -> ~ comparable A P) ->
  maps.Merge a b !! P = b !! P.
Proof.
  intros Hclear. unfold maps.Merge.
  assert (Ha : a !! P = None).
  { destruct (a !! P) eqn:HaP; [|reflexivity].
    exfalso. apply (Hclear P); [eauto|apply comparable_refl]. }
  rewrite lookup_union_r by exact Ha.
  apply option_eq. intros x. rewrite map_lookup_filter_Some. cbn [fst].
  split; [tauto|]. intros Hb. split; [exact Hb|].
  intros A y HA. apply Hclear. eauto.
Qed.

Lemma Merge_lookup_Some_inv (a b : confmap) (Q : keypath) (x : value) :
  maps.Merge a b !! Q = Some x -> a !! Q = Some x \/ b !! Q = Some x.
Proof.
  unfold maps.Merge. rewrite lookup_union_Some_raw, map_lookup_filter_Some. tauto.
Qed.

Lemma Merge_empty (b : confmap) : maps.Merge ∅ b = b.
Proof.
  unfold maps.Merge. rewrite (left_id_L ∅ (∪)).
  apply map_filter_id. intros Q x _. apply map_Forall_empty.
Qed.

Lemma merge_lookup_new (k : koanf.Koanf) (mp : confmap) (P : keypath) (x : value) :
  mp !! P = Some x -> koanf.confMap (koanf.merge k mp) !! P = Some x.
Proof. apply Merge_lookup_new. Qed.

Lemma merge_lookup_old (k : koanf.Koanf) (mp : confmap) (P : keypath) :
  (forall A, is_Some (mp !! A) -> ~ comparable A P) ->
  koanf.confMap (koanf.merge k mp) !! P = koanf.confMap k !! P.
Proof. apply Merge_lookup_old. Qed.

Lemma merge_empty (k : koanf.Koanf) : koanf.merge k ∅ = k.
Proof. destruct k as [m d]. unfold koanf.merge. cbn. now rewrite Merge_empty. Qed.

End MapFacts.

(** ** The environment provider *)

Section EnvFacts.
Import strings split.

Lemma length_append (s t : string) :
  String.length (String.append s t) = String.length s + String.length t.
Proof.
  induction s as [|c s IH]; [reflexivity|].
  rewrite append_cons. simpl. now rewrite IH.
Qed.

Lemma take_app (s t : string) : take (String.length s) (String.append s t) = s.
Proof.
  induction s as [|c s IH]; [destruct t; reflexivity|].
  rewrite append_cons. simpl. now rewrite IH.
Qed.

Lemma Index_entry (n v : string) :
  noEquals n = true ->
  Index (String.append n (String "=" v)) "=" = Some (String.length n).
Proof.
  unfold noEquals. induction n as [|c n IH]; intros Hn.
  - reflexivity.
  - cbn [all_bytes] in Hn. apply andb_prop in Hn as [Hc Hn].
    rewrite append_cons. cbn [Index HasPrefix].
    destruct (Ascii.eqb c "="); [discriminate|].
    rewrite (IH Hn). reflexivity.
Qed.

Lemma SplitN_entry (n v : string) :
  noEquals n = true ->
  SplitN (String.append n (String.append "=" v)) "=" 1 = [n; v].
Proof.
  intros Hn. change (String.append "=" v) with (String "=" v).
  unfold SplitN. rewrite length_append. cbn [String.length].
  replace (Nat.min 1 (String.length n + S (String.length v))) with 1 by lia.
  cbn [genSplit_loop]. rewrite (Index_entry n v Hn). f_equal.
  - apply take_app.
  - f_equal. cbn [String.length].
    rewrite <- (drop_drop (String.length n) 1), drop_app. reflexivity.
Qed.

Lemma nameOf_entry (n v : string) :
  noEquals n = true -> env.nameOf (String.append n (String.append "=" v)) = n.
Proof. intros Hn. unfold env.nameOf. now rewrite SplitN_entry. Qed.

Lemma valueOf_entry (n v : string) :
  noEquals n = true -> env.valueOf (String.append n (String.append "=" v)) = v.
Proof. intros Hn. unfold env.valueOf. now rewrite SplitN_entry. Qed.

Lemma assign_lookup_ne (cb : string -> string) (mp : gmap string value) (k key : string) :
  cb (env.nameOf k) <> key -> env.assign cb mp k !! key = mp !! key.
Proof.
  intros Hne. unfold env.assign.
  destruct (String.eqb (cb (env.nameOf k)) ""); [reflexivity|].
  now rewrite lookup_insert_ne.
Qed.

Lemma assign_lookup_eq (cb : string -> string) (mp : gmap string value) (k : string) :
  cb (env.nameOf k) <> "" ->
  env.assign cb mp k !! cb (env.nameOf k) = Some (VString (env.valueOf k)).
Proof.
  intros Hne. unfold env.assign.
  destruct (String.eqb_spec (cb (env.nameOf k)) ""); [contradiction|].
  apply lookup_insert_eq.
Qed.

Lemma foldl_assign_ne (cb : string -> string) (l : list string) (mp : gmap string value)
    (key : string) :
  Forall (fun k => cb (env.nameOf k) <> key) l ->
  foldl (env.assign cb) mp l !! key = mp !! key.
Proof.
  revert mp. induction l as [|k l IH]; intros mp Hl; [reflexivity|].
  apply Forall_cons in Hl as [Hk Hl]. simpl.
  rewrite IH by exact Hl. now apply assign_lookup_ne.
Qed.

Lemma Forall_keys (prefix : string) (Q : string -> Prop) (l : list string) :
  Forall (fun k => env.kept prefix k = true -> Q k) l ->
  Forall Q (env.keys prefix l).
Proof.
  intros Hl. apply List.Forall_forall. intros k Hk.
  apply List.filter_In in Hk as [Hin Hkept].
  rewrite List.Forall_forall in Hl. now apply Hl.
Qed.

Lemma flat_envSets (prefix : string) (cb : string -> string) (vars : list os.envVar)
    (key v : string) :
  envSets prefix cb vars key v ->
  env.flat prefix cb (os.Environ vars) !! key = Some (VString v).
Proof.
  intros (Hkey & before & n & after & -> & Hn & Hkept & Hcb & Hafter).
  unfold env.flat, env.keys, os.Environ.
  rewrite map_app, List.filter_app. cbn [map List.filter fst snd].
  rewrite Hkept, foldl_app. cbn [foldl].
  rewrite foldl_assign_ne by (apply Forall_keys; exact Hafter).
  pose proof (assign_lookup_eq cb
    (foldl (env.assign cb) ∅ (List.filter (env.kept prefix)
       (map (fun nv => String.append nv.1 (String.append "=" nv.2)) before)))
    (String.append n (String.append "=" v))) as Ha.
  rewrite nameOf_entry, valueOf_entry, Hcb in Ha by exact Hn.
  apply Ha. exact Hkey.
Qed.

Lemma flat_lookup_Some (prefix : string) (cb : string -> string) (l : list string)
    (key : string) (x : value) :
  env.flat prefix cb l !! key = Some x ->
  exists k, In k l /\ env.kept prefix k = true /\ cb (env.nameOf k) = key.
Proof.
  unfold env.flat.
  assert (Hgen : forall ks mp,
    foldl (env.assign cb) mp ks !! key = Some x ->
    mp !! key = Some x \/ exists k, In k ks /\ cb (env.nameOf k) = key).
  { induction ks as [|k ks IH]; intros mp Hf; [left; exact Hf|].
    simpl in Hf. apply IH in Hf as [Hf|(k' & Hin & Hk')].
    - destruct (String.eqb_spec (cb (env.nameOf k)) key) as [Heq|Hne].
      + right. exists k. split; [left; reflexivity|exact Heq].
      + left. now rewrite assign_lookup_ne in Hf.
    - right. exists k'. split; [right; exact Hin|exact Hk']. }
  intros Hf. apply Hgen in Hf as [Hf|(k & Hin & Hk)].
  - rewrite lookup_empty in Hf. discriminate.
  - apply List.filter_In in Hin as [Hin Hkept]. eauto.
Qed.

Lemma elem_of_envPaths (prefix : string) (cb : string -> string) (delim : string)
    (vars : list os.envVar) (key : string) (x : value) :
  env.flat prefix cb (os.Environ vars) !! key = Some x ->
  maps.keyPath delim key ∈ envPaths prefix cb delim vars.
Proof.
  intros Hf. apply flat_lookup_Some in Hf as (k & Hin & Hkept & <-).
  unfold envPaths. apply list_elem_of_fmap. exists k. split; [reflexivity|].
  apply list_elem_of_In. unfold env.keys. apply List.filter_In. auto.
Qed.

Lemma envPaths_free_flat (prefix : string) (cb : string -> string) (delim : string)
    (vars : list os.envVar) :
  maps.conflictFree (envPaths prefix cb delim vars) ->
  maps.conflictFree (maps.keyPaths delim (env.flat prefix cb (os.Environ vars))).
Proof.
  apply conflictFree_subset. intros P. rewrite elem_of_keyPaths.
  intros (key & [x Hx] & <-). eapply elem_of_envPaths. exact Hx.
Qed.

End EnvFacts.

(** ** The store, the providers and unmarshalling *)

Section StoreFacts.
Context `{Externals}.

Lemma Unflatten_clear (mp : gmap string value) (a : ascii) (sep : string) (P : keypath) :
  maps.conflictFree (maps.keyPaths (String a sep) mp) ->
  (forall k, is_Some (mp !! k) -> ~ comparable (maps.keyPath (String a sep) k) P) ->
  forall A, is_Some (maps.Unflatten mp (String a sep) !! A) -> ~ comparable A P.
Proof.
  intros Hf Hclear A [x Hx].
  apply Unflatten_lookup_Some in Hx as (k & <- & Hk); [|exact Hf].
  apply Hclear. eauto.
Qed.

Lemma others_clear {A : Type} (f : gmap string A) (a : ascii) (sep fn k : string) :
  maps.conflictFree (maps.keyPaths (String a sep) f) ->
  is_Some (f !! fn) -> is_Some (f !! k) -> k <> fn ->
  ~ comparable (maps.keyPath (String a sep) k) (maps.keyPath (String a sep) fn).
Proof.
  intros Hf Hfn Hk Hne Hc. apply Hne. apply (inj (maps.keyPath (String a sep))).
  apply (conflictFree_eq _ _ _ Hf); [| |exact Hc]; apply elem_of_keyPaths; eauto.
Qed.

Lemma env_lookup_sets (prefix : string) (cb : string -> string) (vars : list os.envVar)
    (a : ascii) (sep key v : string) :
  maps.conflictFree (envPaths prefix cb (String a sep) vars) ->
  envSets prefix cb vars key v ->
  maps.Unflatten (env.flat prefix cb (os.Environ vars)) (String a sep)
    !! maps.keyPath (String a sep) key = Some (VString v).
Proof.
  intros Hf Hs. rewrite Unflatten_lookup by (apply envPaths_free_flat; exact Hf).
  apply flat_envSets. exact Hs.
Qed.


Lemma posflag_free (ko : koanf.Koanf) (f : pflag.FlagSet) (delim : string) :
  maps.conflictFree (maps.keyPaths delim f) ->
  maps.conflictFree (maps.keyPaths delim (map_imap (posflag.visit ko) f)).
Proof.
  apply conflictFree_keyPaths_sub. intros k [x Hx].
  rewrite map_lookup_imap in Hx. destruct (f !! k); [eauto|discriminate].
Qed.

Lemma posflag_lookup (ko : koanf.Koanf) (f : pflag.FlagSet) (a : ascii) (sep fn : string) :
  maps.conflictFree (maps.keyPaths (String a sep) f) ->
  maps.Unflatten (map_imap (posflag.visit ko) f) (String a sep)
    !! maps.keyPath (String a sep) fn
  = f !! fn ≫= posflag.visit ko fn.
Proof.
  intros Hf. rewrite Unflatten_lookup by (apply posflag_free; exact Hf).
  apply map_lookup_imap.
Qed.

Lemma basicflag_free (f : flag.FlagSet) (delim : string) :
  maps.conflictFree (maps.keyPaths delim f) ->
  maps.conflictFree
    (maps.keyPaths delim ((fun fl => VString (flag.ValueString fl)) <$> f)).
Proof.
  apply conflictFree_keyPaths_sub. intros k [x Hx].
  rewrite lookup_fmap in Hx. destruct (f !! k); [eauto|discriminate].
Qed.

Lemma basicflag_lookup (f : flag.FlagSet) (a : ascii) (sep fn : string) :
  maps.conflictFree (maps.keyPaths (String a sep) f) ->
  maps.Unflatten ((fun fl => VString (flag.ValueString fl)) <$> f) (String a sep)
    !! maps.keyPath (String a sep) fn
  = (fun fl => VString (flag.ValueString fl)) <$> f !! fn.
Proof.
  intros Hf. rewrite Unflatten_lookup by (apply basicflag_free; exact Hf).
  apply lookup_fmap.
Qed.

(** The flags written by either provider stay clear of [P] when the defined
    flags do. *)
Lemma posflag_clear (ko : koanf.Koanf) (f : pflag.FlagSet) (a : ascii) (sep : string)
    (P : keypath) :
  maps.conflictFree (maps.keyPaths (String a sep) f) ->
  (forall k, is_Some (f !! k) -> ~ comparable (maps.keyPath (String a sep) k) P) ->
  forall A, is_Some (maps.Unflatten (map_imap (posflag.visit ko) f) (String a sep) !! A) ->
            ~ comparable A P.
Proof.
  intros Hf Hclear. apply Unflatten_clear; [apply posflag_free; exact Hf|].
  intros k [x Hx]. apply Hclear.
  rewrite map_lookup_imap in Hx. destruct (f !! k); [eauto|discriminate].
Qed.

Lemma basicflag_clear (f : flag.FlagSet) (a : ascii) (sep : string) (P : keypath) :
  maps.conflictFree (maps.keyPaths (String a sep) f) ->
  (forall k, is_Some (f !! k) -> ~ comparable (maps.keyPath (String a sep) k) P) ->
  forall A, is_Some (maps.Unflatten ((fun fl => VString (flag.ValueString fl)) <$> f)
                       (String a sep) !! A) ->
            ~ comparable A P.
Proof.
  intros Hf Hclear. apply Unflatten_clear; [apply basicflag_free; exact Hf|].
  intros k [x Hx]. apply Hclear.
  rewrite lookup_fmap in Hx. destruct (f !! k); [eauto|discriminate].
Qed.



Lemma Unmarshal_field (k : koanf.Koanf) (cfg cfg' : koanf.target) (i : nat)
    (P : keypath) (cur raw : value) :
  koanf.Unmarshal k cfg = Some cfg' ->
  cfg !! i = Some (P, cur) ->
  koanf.confMap k !! P = Some raw ->
  exists v, decodeField cur raw = Some v /\ cfg' !! i = Some (P, v).
Proof.
  intros Hu Hi Hraw. unfold koanf.Unmarshal in Hu.
  apply mapM_Some_1 in Hu.
  destruct (Forall2_lookup_l _ _ _ _ _ Hu Hi) as (y & Hy & Hf).
  unfold koanf.unmarshalField in Hf. cbn [fst snd] in Hf. rewrite Hraw in Hf.
  destruct (decodeField cur raw) as [v|]; [|discriminate].
  injection Hf as <-. eauto.
Qed.

Lemma looseMatch_refl (P : keypath) : koanf.looseMatch P P.
Proof. apply comparable_refl. Qed.

(** What [Load] comes to when the file step succeeds: the unmarshalling of
    the store after the environment and the flags. *)
Lemma goconfig_Load_merged (vars : list os.envVar) (c : goconfig.Config)
    (f : pflag.FlagSet) (cfg : koanf.target) (reads : list string) (k0 : koanf.Koanf) :
  goconfig.fileStep (koanf.New (goconfig.delimiter c)) f = (reads, inl k0) ->
  let k1 := koanf.merge k0
    (maps.Unflatten (env.flat (goconfig.prefix c) (goconfig.updateEnv c) (os.Environ vars))
       (goconfig.delimiter c)) in
  goconfig.Load vars c f cfg
  = (reads, materialize goconfig.LoadUnmarshalError
              (koanf.merge k1 (maps.Unflatten (map_imap (posflag.visit k1) f) ".")) cfg).
Proof.
  intros Hf k1. unfold goconfig.Load, goconfig.Load_with. rewrite Hf. reflexivity.
Qed.

Lemma cfgloader_Load_merged (vars : list os.envVar) (c : cfgloader.Config)
    (f : flag.FlagSet) (cfg : koanf.target) (reads : list string) (k0 : koanf.Koanf) :
  cfgloader.fileStep (koanf.New (cfgloader.delimiter c)) f = (reads, inl k0) ->
  let k1 := koanf.merge k0
    (maps.Unflatten (env.flat (cfgloader.prefix c) (cfgloader.updateEnv c) (os.Environ vars))
       (cfgloader.delimiter c)) in
  cfgloader.Load vars c cfg f
  = (reads, materialize cfgloader.LoadUnmarshalError
              (koanf.merge k1
                 (maps.Unflatten ((fun fl => VString (flag.ValueString fl)) <$> f)
                    (cfgloader.delimiter c))) cfg).
Proof.
  intros Hf k1. unfold cfgloader.Load, cfgloader.Load_with. rewrite Hf. reflexivity.
Qed.



End StoreFacts.

(** ** Construction *)

(** C3 (as the code has it): in both engines [New p d] fails, with the
    invalid-delimiter error, exactly when the delimiter is not one byte long;
    when it succeeds the engine holds exactly [p] and [d]. *)
Theorem New_one_byte_delimiter (p d : string) :
  ((exists e, goconfig.New p d = inr e) <-> String.length d <> 1)
  /\ (forall e, goconfig.New p d = inr e -> e = goconfig.BadDelimiterError d)
  /\ (forall c, goconfig.New p d = inl c <->
        String.length d = 1 /\ c = {| goconfig.prefix := p; goconfig.delimiter := d |})
  /\ ((exists e, cfgloader.New p d = inr e) <-> String.length d <> 1)
  /\ (forall e, cfgloader.New p d = inr e -> e = cfgloader.BadDelimiterError d)
  /\ (forall c, cfgloader.New p d = inl c <->
        String.length d = 1 /\ c = {| cfgloader.prefix := p; cfgloader.delimiter := d |}).
Proof.
  unfold goconfig.New, cfgloader.New.
  destruct (Nat.eqb_spec (String.length d) 1) as [Hd|Hd]; simpl.
  - split; [split; [intros [e He]; discriminate | congruence]|].
    split; [intros e He; discriminate|].
    split; [intros c; split; [intros Hc; split; [exact Hd | congruence] | intros [_ ->]; reflexivity]|].
    split; [split; [intros [e He]; discriminate | congruence]|].
    split; [intros e He; discriminate|].
    intros c; split; [intros Hc; split; [exact Hd | congruence] | intros [_ ->]; reflexivity].
  - split; [split; [intros _; exact Hd | intros _; eauto]|].
    split; [intros e He; congruence|].
    split; [intros c; split; [intros Hc; discriminate | intros [Hc _]; contradiction]|].
    split; [split; [intros _; exact Hd | intros _; eauto]|].
    split; [intros e He; congruence|].
    intros c; split; [intros Hc; discriminate | intros [Hc _]; contradiction].
Qed.

(** C3, as stated, fails: a delimiter of a single rune that takes two bytes is
    one character by the rune count, and both engines reject it. *)
Lemma New_rejects_single_rune :
  Spec.oneCharacter Fixture.eAcute
  /\ goconfig.New "TEST_" Fixture.eAcute = inr (goconfig.BadDelimiterError Fixture.eAcute)
  /\ cfgloader.New "TEST_" Fixture.eAcute = inr (cfgloader.BadDelimiterError Fixture.eAcute).
Proof. repeat split. Qed.

(** ** Normalization of environment names *)

(** [updateEnv] on names of the tests' kind. *)
Example updateEnv_examples :
  let c := {| goconfig.prefix := "TEST_"; goconfig.delimiter := "." |} in
  goconfig.updateEnv c "" = ""
  /\ goconfig.updateEnv c "TESTENV" = "testenv"
  /\ goconfig.updateEnv c "TESTENV_TESTENV_" = "testenv.testenv."
  /\ goconfig.updateEnv c "TEST_Nested__VAL" = "nested..val"
  /\ goconfig.updateEnv c "test_Nested__VAL" = "test.nested..val"
  /\ goconfig.updateEnv c (String.append "TEST_NAM" (String "195" (String "137" EmptyString)))
     = String.append "nam" Fixture.eAcute.
Proof. repeat split. Qed.

(** ** Eligibility of environment variables *)

Lemma HasPrefix_entry (prefix n v : string) :
  strings.all_bytes (fun c => negb (Ascii.eqb c "=")) prefix = true ->
  strings.HasPrefix (String.append n (String.append "=" v)) prefix
  = strings.HasPrefix n prefix.
Proof.
  revert n. induction prefix as [|a p IH]; intros n Hp; [reflexivity|].
  cbn [strings.all_bytes] in Hp. apply andb_prop in Hp as [Ha Hp].
  destruct n as [|c n].
  - rewrite append_empty. change (String.append "=" v) with (String "=" v).
    cbn [strings.HasPrefix].
    destruct (Ascii.eqb_spec "="%char a) as [<-|]; [|reflexivity].
    rewrite Ascii.eqb_refl in Ha. discriminate.
  - rewrite append_cons. cbn [strings.HasPrefix].
    destruct (Ascii.eqb c a); [apply IH; exact Hp|reflexivity].
Qed.

(** C4 (as the code has it): a variable [n=v] of the environment is kept by
    the environment provider exactly when the prefix is empty or the entry
    [n=v] of the environment begins with the prefix byte for byte; for a
    prefix that holds no [=] this is: exactly when the prefix is empty or the
    name [n] begins with the prefix byte for byte. *)
Theorem env_keeps_exact_prefix :
  (forall (prefix : string) (vars : list os.envVar) (n v : string),
     In (String.append n (String.append "=" v)) (env.keys prefix (os.Environ vars))
     <-> In (String.append n (String.append "=" v)) (os.Environ vars)
         /\ (prefix = ""
             \/ strings.HasPrefix (String.append n (String.append "=" v)) prefix = true))
  /\
  (forall (prefix : string) (vars : list os.envVar) (n v : string),
     noEquals prefix = true ->
     In (String.append n (String.append "=" v)) (env.keys prefix (os.Environ vars))
     <-> In (String.append n (String.append "=" v)) (os.Environ vars)
         /\ (prefix = "" \/ strings.HasPrefix n prefix = true)).
Proof.
  assert (Hentry : forall (prefix : string) (vars : list os.envVar) (n v : string),
    In (String.append n (String.append "=" v)) (env.keys prefix (os.Environ vars))
    <-> In (String.append n (String.append "=" v)) (os.Environ vars)
        /\ (prefix = ""
            \/ strings.HasPrefix (String.append n (String.append "=" v)) prefix = true)).
  { intros prefix vars n v. unfold env.keys, env.kept. rewrite filter_In.
    destruct (String.eqb_spec prefix "") as [->|Hne]; [tauto|].
    split; intros [Hin Hp]; split; auto. destruct Hp; [contradiction|assumption]. }
  split; [exact Hentry|].
  intros prefix vars n v Hp. rewrite Hentry. unfold noEquals in Hp.
  now rewrite HasPrefix_entry by exact Hp.
Qed.

Lemma env_keeps_exact_prefix_witness :
  In "TEST_VALUE1=101" (env.keys "TEST_" (os.Environ [("HOME", "/root"); ("TEST_VALUE1", "101")])).
Proof.
  apply (proj2 env_keeps_exact_prefix "TEST_" [("HOME", "/root"); ("TEST_VALUE1", "101")]
           "TEST_VALUE1" "101"); [reflexivity|].
  split; [right; left; reflexivity | right; reflexivity].
Defined.

(** A prefix that holds an [=] is matched against the entry, not the name:
    under the prefix [A=] the variable [A=5] is kept, though its name [A]
    does not begin with the prefix, and [A=5] is then loaded under the key
    [a], the prefix not being a prefix of the name that [updateEnv] is
    given. *)
Example env_prefix_with_equals :
  env.keys "A=" (os.Environ [("A", "5"); ("AB", "6")]) = ["A=5"]
  /\ strings.HasPrefix "A" "A=" = false
  /\ env.flat "A=" (goconfig.updateEnv {| goconfig.prefix := "A="; goconfig.delimiter := "." |})
       (os.Environ [("A", "5"); ("AB", "6")])
     = <["a" := VString "5"]> ∅.
Proof. repeat split; vm_compute; reflexivity. Qed.

(** C4, as stated, fails: [test_value1] begins with the prefix [TEST_] under
    case-insensitive comparison, and the environment provider does not keep
    it: the load leaves the target as it was. *)
Lemma env_prefix_is_case_sensitive :
  Spec.eligible "TEST_" "test_value1" = true
  /\ env.keys "TEST_" (os.Environ [("test_value1", "101")]) = []
  /\ goconfig.Load [("test_value1", "101")]
       {| goconfig.prefix := "TEST_"; goconfig.delimiter := "." |} ∅
       (Fixture.testConfig 0 0 0 0)
     = ([], Loaded (Fixture.testConfig 0 0 0 0))
  /\ cfgloader.Load [("test_value1", "101")]
       {| cfgloader.prefix := "TEST_"; cfgloader.delimiter := "." |}
       (Fixture.testConfig 0 0 0 0) ∅
     = ([], Loaded (Fixture.testConfig 0 0 0 0)).
Proof. repeat split; vm_compute; reflexivity. Qed.

(** ** Overlay order, run *)

(** Three loads, run: 103 from the flag, 102 from the environment once the
    flag is gone, 101 from the file once the variable is gone too. *)
Example overlay_order_runs :
  let c := {| goconfig.prefix := "TEST_"; goconfig.delimiter := "." |} in
  let f : pflag.FlagSet :=
    <["value1" := Fixture.intFlag 103 true]>
      (<["config" := Fixture.configFlag [Fixture.goodFile]]> ∅) in
  goconfig.Load [("HOME", "/root"); ("TEST_VALUE1", "102")] c f (Fixture.testConfig 0 0 0 0)
  = ([Fixture.goodFile], Loaded (Fixture.testConfig 103 0 0 102))
  /\ goconfig.Load [("HOME", "/root"); ("TEST_VALUE1", "102")] c (delete "value1" f)
       (Fixture.testConfig 0 0 0 0)
     = ([Fixture.goodFile], Loaded (Fixture.testConfig 102 0 0 102))
  /\ goconfig.Load [("HOME", "/root")] c (delete "value1" f) (Fixture.testConfig 0 0 0 0)
     = ([Fixture.goodFile], Loaded (Fixture.testConfig 101 0 0 102)).
Proof. repeat split; vm_compute; reflexivity. Qed.

(** ** The flag step *)

Section FlagStep.
Context `{Externals}.

Lemma keyParts_self (P : keypath) : P <> [] -> In P (koanf.keyParts P).
Proof.
  induction P as [|p rest IH]; [congruence|]. intros _. simpl.
  destruct rest as [|q rest]; [left; reflexivity|].
  right. apply in_map. apply IH. discriminate.
Qed.

(** A store whose delimiter is not empty knows the flat key of each leaf. *)
Lemma Exists_leaf (ko : koanf.Koanf) (a : ascii) (sep key : string) (v : value) :
  koanf.delim ko = String a sep ->
  koanf.confMap ko !! maps.keyPath (String a sep) key = Some v ->
  koanf.Exists ko key = true.
Proof.
  intros Hd Hv. unfold koanf.Exists. apply bool_decide_eq_true.
  unfold koanf.keyMap. apply elem_of_list_to_set, list_elem_of_In, in_flat_map.
  exists (maps.keyPath (String a sep) key, v). split.
  - apply list_elem_of_In, elem_of_map_to_list. exact Hv.
  - cbn [fst]. rewrite Hd. apply in_map_iff.
    exists (maps.keyPath (String a sep) key). split.
    + apply Join_Split.
    + apply keyParts_self, Split_nonempty.
Qed.

(** The flags the current engine writes stay clear of the path of a flag it
    skips. *)
Lemma posflag_skipped_clear (ko : koanf.Koanf) (f : pflag.FlagSet) (fn : string) :
  maps.conflictFree (maps.keyPaths "." f) ->
  is_Some (f !! fn) ->
  f !! fn ≫= posflag.visit ko fn = None ->
  forall A, is_Some (maps.Unflatten (map_imap (posflag.visit ko) f) "." !! A) ->
            ~ comparable A (maps.keyPath "." fn).
Proof.
  intros Hf Hfn Hskip. apply Unflatten_clear; [apply posflag_free; exact Hf|].
  intros k [x Hx]. rewrite map_lookup_imap in Hx.
  apply (others_clear f); [exact Hf|exact Hfn| |].
  - destruct (f !! k); [eauto|discriminate].
  - intros ->. rewrite Hskip in Hx. discriminate.
Qed.

Lemma goconfig_flag_step (k1 : koanf.Koanf) (f : pflag.FlagSet) (fn : string)
    (fl : pflag.Flag) :
  maps.conflictFree (maps.keyPaths "." f) ->
  f !! fn = Some fl -> fn <> "" ->
  exists k2, koanf_Load k1 (posflag.Provider f "." k1) = Some k2
    /\ koanf.confMap k2 !! maps.keyPath "." fn
       = if pflag.Changed fl || negb (koanf.Exists k1 fn)
         then Some (pflag.Value fl)
         else koanf.confMap k1 !! maps.keyPath "." fn.
Proof.
  intros Hf Hfl Hfn. eexists. split; [reflexivity|].
  pose proof (posflag_lookup k1 f "." "" fn Hf) as Hl.
  assert (Hv : f !! fn ≫= posflag.visit k1 fn
               = if pflag.Changed fl || negb (koanf.Exists k1 fn)
                 then Some (pflag.Value fl) else None).
  { rewrite Hfl. cbn. unfold posflag.visit.
    destruct (String.eqb_spec fn ""); [contradiction|].
    destruct (pflag.Changed fl), (koanf.Exists k1 fn); reflexivity. }
  destruct (pflag.Changed fl || negb (koanf.Exists k1 fn)).
  - apply merge_lookup_new. now rewrite Hl, Hv.
  - apply merge_lookup_old. apply posflag_skipped_clear; [exact Hf|eauto|exact Hv].
Qed.

End FlagStep.

(** C2, as stated, fails in the current engine: the flag [value1], defined
    with the default 1 and not set, does not replace the value 102 that the
    environment gave the key [value1]. *)
Lemma unset_default_does_not_override :
  let c := {| goconfig.prefix := "TEST_"; goconfig.delimiter := "." |} in
  let f : pflag.FlagSet := <["value1" := Fixture.intFlag 1 false]> ∅ in
  let k1 := koanf.merge (koanf.New ".") (<[ ["value1"] := VString "102" ]> ∅) in
  (k2 ← koanf_Load k1 (posflag.Provider f "." k1); koanf.confMap k2 !! ["value1"])
    = Some (VString "102")
  /\ goconfig.Load [("TEST_VALUE1", "102")] c f (Fixture.testConfig 0 0 0 0)
     = ([], Loaded (Fixture.testConfig 102 0 0 0)).
Proof. split; vm_compute; reflexivity. Qed.

(** ** The file step *)

Section FileStep.
Context `{Externals}.

Lemma loadFile_decodes (k : koanf.Koanf) (c b : string) (mp : confmap) :
  ReadBytes c = Some b -> yamlUnmarshal b = Some mp ->
  loadFile k c = inl (koanf.merge k mp).
Proof. intros Hr Hy. unfold loadFile. now rewrite Hr, Hy. Qed.

Lemma loadFile_fails (k : koanf.Koanf) (c : string) (cause : fileError) :
  fileFails c cause -> loadFile k c = inr cause.
Proof.
  unfold loadFile. destruct cause; simpl.
  - intros ->. reflexivity.
  - intros (b & -> & ->). reflexivity.
Qed.

Lemma goconfig_loadFiles_decode (ss : list string) (mps : list confmap) (k : koanf.Koanf) :
  filesDecode ss mps ->
  goconfig.loadFiles k ss = (ss, inl (foldl koanf.merge k mps)).
Proof.
  intros Hd. revert k. induction Hd as [|c mp ss mps (b & Hr & Hy) _ IH]; intros k.
  - reflexivity.
  - cbn [goconfig.loadFiles foldl]. rewrite (loadFile_decodes k c b mp Hr Hy), IH.
    reflexivity.
Qed.

Lemma goconfig_loadFiles_fail (pre : list string) (mps : list confmap) (bad : string)
    (post : list string) (cause : fileError) (k : koanf.Koanf) :
  filesDecode pre mps -> fileFails bad cause ->
  goconfig.loadFiles k (pre ++ bad :: post)%list
  = ((pre ++ [bad])%list, inr (goconfig.LoadFileError bad cause)).
Proof.
  intros Hd Hbad. revert k. induction Hd as [|c mp ss mps (b & Hr & Hy) _ IH]; intros k.
  - cbn. now rewrite (loadFile_fails k bad cause Hbad).
  - cbn [app goconfig.loadFiles]. rewrite (loadFile_decodes k c b mp Hr Hy), IH.
    reflexivity.
Qed.

Lemma cfgloader_loadFiles_decode (ss : list string) (mps : list confmap) (k : koanf.Koanf) :
  filesDecode ss mps ->
  cfgloader.loadFiles k ss = (ss, inl (foldl koanf.merge k mps)).
Proof.
  intros Hd. revert k. induction Hd as [|c mp ss mps (b & Hr & Hy) _ IH]; intros k.
  - reflexivity.
  - cbn [cfgloader.loadFiles foldl]. rewrite (loadFile_decodes k c b mp Hr Hy), IH.
    reflexivity.
Qed.

Lemma cfgloader_loadFiles_fail (pre : list string) (mps : list confmap) (bad : string)
    (post : list string) (cause : fileError) (k : koanf.Koanf) :
  filesDecode pre mps -> fileFails bad cause ->
  cfgloader.loadFiles k (pre ++ bad :: post)%list
  = ((pre ++ [bad])%list, inr (cfgloader.LoadFileError bad cause)).
Proof.
  intros Hd Hbad. revert k. induction Hd as [|c mp ss mps (b & Hr & Hy) _ IH]; intros k.
  - cbn. now rewrite (loadFile_fails k bad cause Hbad).
  - cbn [app cfgloader.loadFiles]. rewrite (loadFile_decodes k c b mp Hr Hy), IH.
    reflexivity.
Qed.

End FileStep.

(** C7: in both engines the files named by the [config] option are read in
    the order given, each merged over the ones before it; and when a file
    cannot be read or decoded after the files [pre] before it loaded, [Load]
    returns the error of that file, having read [pre] and that file and none
    of the files after it. *)
Theorem files_in_order_fail_fast `{Externals} :
  (forall (c : goconfig.Config) (f : pflag.FlagSet) (ch : bool)
      (ss : list string) (mps : list confmap),
     f !! goconfig.FileArgName = Some {| pflag.Value := VStrings ss; pflag.Changed := ch |} ->
     filesDecode ss mps ->
     goconfig.fileStep (koanf.New (goconfig.delimiter c)) f
     = (ss, inl (foldl koanf.merge (koanf.New (goconfig.delimiter c)) mps)))
  /\
  (forall (vars : list os.envVar) (c : goconfig.Config) (f : pflag.FlagSet)
      (cfg : koanf.target) (ch : bool) (pre : list string) (bad : string)
      (post : list string) (mps : list confmap) (cause : fileError),
     f !! goconfig.FileArgName
       = Some {| pflag.Value := VStrings (pre ++ bad :: post)%list; pflag.Changed := ch |} ->
     filesDecode pre mps -> fileFails bad cause ->
     goconfig.Load vars c f cfg
     = ((pre ++ [bad])%list, Failed (goconfig.LoadFileError bad cause)))
  /\
  (forall (c : cfgloader.Config) (f : flag.FlagSet) (fl : flag.Flag)
      (ss : list string) (mps : list confmap),
     f !! cfgloader.FileArgName = Some fl -> flag.asStringSlice fl = Some ss ->
     filesDecode ss mps ->
     cfgloader.fileStep (koanf.New (cfgloader.delimiter c)) f
     = (ss, inl (foldl koanf.merge (koanf.New (cfgloader.delimiter c)) mps)))
  /\
  (forall (vars : list os.envVar) (c : cfgloader.Config) (f : flag.FlagSet)
      (cfg : koanf.target) (fl : flag.Flag) (pre : list string) (bad : string)
      (post : list string) (mps : list confmap) (cause : fileError),
     f !! cfgloader.FileArgName = Some fl ->
     flag.asStringSlice fl = Some (pre ++ bad :: post)%list ->
     filesDecode pre mps -> fileFails bad cause ->
     cfgloader.Load vars c cfg f
     = ((pre ++ [bad])%list, Failed (cfgloader.LoadFileError bad cause))).
Proof.
  repeat split.
  - intros c f ch ss mps Hf Hd.
    unfold goconfig.fileStep, pflag.Lookup, pflag.GetStringSlice. rewrite Hf.
    now apply goconfig_loadFiles_decode.
  - intros vars c f cfg ch pre bad post mps cause Hf Hd Hbad.
    unfold goconfig.Load, goconfig.Load_with, goconfig.fileStep,
      pflag.Lookup, pflag.GetStringSlice.
    rewrite Hf, (goconfig_loadFiles_fail pre mps bad post cause _ Hd Hbad). reflexivity.
  - intros c f fl ss mps Hf Hs Hd.
    unfold cfgloader.fileStep, flag.Lookup. rewrite Hf, Hs.
    now apply cfgloader_loadFiles_decode.
  - intros vars c f cfg fl pre bad post mps cause Hf Hs Hd Hbad.
    unfold cfgloader.Load, cfgloader.Load_with, cfgloader.fileStep, flag.Lookup.
    rewrite Hf, Hs, (cfgloader_loadFiles_fail pre mps bad post cause _ Hd Hbad). reflexivity.
Qed.

Lemma files_in_order_fail_fast_witness :
  let c := {| goconfig.prefix := "TEST_"; goconfig.delimiter := "." |} in
  let f : pflag.FlagSet :=
    <["config" := Fixture.configFlag
        [Fixture.goodFile; Fixture.emptyFile; Fixture.badFile; Fixture.goodFile]]> ∅ in
  let f2 : pflag.FlagSet :=
    <["config" := Fixture.configFlag [Fixture.emptyFile; Fixture.goodFile]]> ∅ in
  let c' := {| cfgloader.prefix := "TEST_"; cfgloader.delimiter := "." |} in
  let f' : flag.FlagSet :=
    <["config" := Fixture.sliceFlag "a,/this/file/does/not/exist,b"
        [Fixture.goodFile; "/this/file/does/not/exist"; Fixture.emptyFile]]> ∅ in
  goconfig.fileStep (koanf.New ".") f2
    = ([Fixture.emptyFile; Fixture.goodFile],
       inl (foldl koanf.merge (koanf.New ".") [∅; Fixture.goodMap]))
  /\ goconfig.Load [] c f (Fixture.testConfig 0 0 0 0)
     = ([Fixture.goodFile; Fixture.emptyFile; Fixture.badFile],
        Failed (goconfig.LoadFileError Fixture.badFile DecodeError))
  /\ cfgloader.Load [] c' (Fixture.testConfig 0 0 0 0) f'
     = ([Fixture.goodFile; "/this/file/does/not/exist"],
        Failed (cfgloader.LoadFileError "/this/file/does/not/exist" ReadError)).
Proof.
  intros c f f2 c' f' .
  destruct (files_in_order_fail_fast (H := Fixture.world)) as (Hord & Hfail & _ & Hfail').
  split; [|split].
  - apply (Hord c f2 true [Fixture.emptyFile; Fixture.goodFile] [∅; Fixture.goodMap]).
    + reflexivity.
    + repeat constructor; eexists; split; reflexivity.
  - apply (Hfail [] c f (Fixture.testConfig 0 0 0 0) true
             [Fixture.goodFile; Fixture.emptyFile] Fixture.badFile [Fixture.goodFile]
             [Fixture.goodMap; ∅] DecodeError).
    + reflexivity.
    + repeat constructor; eexists; split; reflexivity.
    + eexists; split; reflexivity.
  - apply (Hfail' [] c' f' (Fixture.testConfig 0 0 0 0)
             (Fixture.sliceFlag "a,/this/file/does/not/exist,b"
                [Fixture.goodFile; "/this/file/does/not/exist"; Fixture.emptyFile])
             [Fixture.goodFile] "/this/file/does/not/exist" [Fixture.emptyFile]
             [Fixture.goodMap] ReadError).
    + reflexivity.
    + reflexivity.
    + repeat constructor; eexists; split; reflexivity.
    + reflexivity.
Defined.

(** C8: in both engines, when the flag set defines no flag named [config],
    no file is read and no file error arises: [Load] is the environment step,
    the flag step and the unmarshalling, run from the empty store, whatever
    providers serve the two steps. *)
Theorem no_config_flag_skips_files `{Externals} :
  (forall (envP : string -> string -> (string -> string) -> Provider)
      (flagP : pflag.FlagSet -> string -> koanf.Koanf -> Provider)
      (vars : list os.envVar) (c : goconfig.Config) (f : pflag.FlagSet) (cfg : koanf.target),
     pflag.Lookup f goconfig.FileArgName = None ->
     goconfig.Load_with envP flagP c f cfg
       = ([], goconfig.overlay envP flagP c f cfg (koanf.New (goconfig.delimiter c)))
     /\ let k1 := koanf.merge (koanf.New (goconfig.delimiter c))
          (maps.Unflatten
             (env.flat (goconfig.prefix c) (goconfig.updateEnv c) (os.Environ vars))
             (goconfig.delimiter c)) in
        goconfig.Load vars c f cfg
        = ([], materialize goconfig.LoadUnmarshalError
                 (koanf.merge k1 (maps.Unflatten (map_imap (posflag.visit k1) f) ".")) cfg))
  /\
  (forall (envP : string -> string -> (string -> string) -> Provider)
      (flagP : flag.FlagSet -> string -> Provider)
      (vars : list os.envVar) (c : cfgloader.Config) (f : flag.FlagSet) (cfg : koanf.target),
     flag.Lookup f cfgloader.FileArgName = None ->
     cfgloader.Load_with envP flagP c cfg f
       = ([], cfgloader.overlay envP flagP c f cfg (koanf.New (cfgloader.delimiter c)))
     /\ let k1 := koanf.merge (koanf.New (cfgloader.delimiter c))
          (maps.Unflatten
             (env.flat (cfgloader.prefix c) (cfgloader.updateEnv c) (os.Environ vars))
             (cfgloader.delimiter c)) in
        cfgloader.Load vars c cfg f
        = ([], materialize cfgloader.LoadUnmarshalError
                 (koanf.merge k1
                    (maps.Unflatten ((fun fl => VString (flag.ValueString fl)) <$> f)
                       (cfgloader.delimiter c))) cfg)).
Proof.
  split.
  - intros envP flagP vars c f cfg Hf.
    assert (Hstep : goconfig.fileStep (koanf.New (goconfig.delimiter c)) f
                    = ([], inl (koanf.New (goconfig.delimiter c))))
      by (unfold goconfig.fileStep; now rewrite Hf).
    split.
    + unfold goconfig.Load_with. now rewrite Hstep.
    + apply goconfig_Load_merged. exact Hstep.
  - intros envP flagP vars c f cfg Hf.
    assert (Hstep : cfgloader.fileStep (koanf.New (cfgloader.delimiter c)) f
                    = ([], inl (koanf.New (cfgloader.delimiter c))))
      by (unfold cfgloader.fileStep; now rewrite Hf).
    split.
    + unfold cfgloader.Load_with. now rewrite Hstep.
    + apply cfgloader_Load_merged. exact Hstep.
Qed.

Lemma no_config_flag_skips_files_witness :
  let c := {| goconfig.prefix := "TEST_"; goconfig.delimiter := "." |} in
  let f : pflag.FlagSet := <["value2" := Fixture.intFlag 7 true]> ∅ in
  let vars := [("TEST_VALUE1", "101"); ("TEST_NESTED_NESTEDVALUE", "102")] in
  goconfig.Load vars c f (Fixture.testConfig 0 0 0 0)
  = ([], Loaded (Fixture.testConfig 101 7 0 102)).
Proof.
  intros c f vars.
  destruct (no_config_flag_skips_files (H := Fixture.world)) as [Hg _].
  destruct (Hg (env.Provider (os.Environ vars)) posflag.Provider vars c f
              (Fixture.testConfig 0 0 0 0)) as [_ Hload]; [reflexivity|].
  rewrite Hload. vm_compute. reflexivity.
Defined.

(** ** A load without input *)

Section NoInput.
Context `{Externals}.

Lemma goconfig_loadFiles_empty (ss : list string) (k : koanf.Koanf) :
  filesEmpty ss -> goconfig.loadFiles k ss = (ss, inl k).
Proof.
  induction 1 as [|c ss (b & Hr & Hy) _ IH]; [reflexivity|].
  cbn [goconfig.loadFiles]. rewrite (loadFile_decodes k c b ∅ Hr Hy), merge_empty, IH.
  reflexivity.
Qed.

Lemma cfgloader_loadFiles_empty (ss : list string) (k : koanf.Koanf) :
  filesEmpty ss -> cfgloader.loadFiles k ss = (ss, inl k).
Proof.
  induction 1 as [|c ss (b & Hr & Hy) _ IH]; [reflexivity|].
  cbn [cfgloader.loadFiles]. rewrite (loadFile_decodes k c b ∅ Hr Hy), merge_empty, IH.
  reflexivity.
Qed.

Lemma env_no_keys (prefix : string) (cb : string -> string) (environ : list string)
    (delim : string) :
  env.keys prefix environ = [] ->
  maps.Unflatten (env.flat prefix cb environ) delim = ∅.
Proof.
  intros Hk. unfold env.flat. rewrite Hk. cbn [foldl].
  rewrite Unflatten_free.
  - apply kmap_empty.
  - unfold maps.keyPaths. rewrite map_to_list_empty. constructor.
Qed.

(** What the store holds after a load step came from the step or was there
    before. *)
Lemma merge_lookup_inv (k : koanf.Koanf) (mp : confmap) (Q : keypath) :
  is_Some (koanf.confMap (koanf.merge k mp) !! Q) ->
  is_Some (mp !! Q) \/ is_Some (koanf.confMap k !! Q).
Proof.
  intros [x Hx]. apply Merge_lookup_Some_inv in Hx as [Hx|Hx]; eauto.
Qed.

End NoInput.

(** C9, as stated, fails: with an empty file, no environment variable and no
    flag passed, the default of the defined flag [value1] is written into the
    target, in both engines. *)
Lemma unset_flag_default_fills_target :
  let c := {| goconfig.prefix := "TEST_"; goconfig.delimiter := "." |} in
  let f : pflag.FlagSet :=
    <["value1" := Fixture.intFlag 1 false]>
      (<["config" := Fixture.configFlag [Fixture.emptyFile]]> ∅) in
  let c' := {| cfgloader.prefix := "TEST_"; cfgloader.delimiter := "." |} in
  let f' : flag.FlagSet :=
    <["value1" := Fixture.stringFlag "1" false]>
      (<["config" := Fixture.sliceFlag Fixture.emptyFile [Fixture.emptyFile]]> ∅) in
  goconfig.Load [] c f (Fixture.testConfig 0 0 0 0)
    = ([Fixture.emptyFile], Loaded (Fixture.testConfig 1 0 0 0))
  /\ cfgloader.Load [] c' (Fixture.testConfig 0 0 0 0) f'
     = ([Fixture.emptyFile], Loaded (Fixture.testConfig 1 0 0 0))
  /\ Fixture.testConfig 1 0 0 0 <> Fixture.testConfig 0 0 0 0.
Proof. repeat split; try (vm_compute; reflexivity). discriminate. Qed.

(** ** The two engines compared *)

Section Engines.
Context `{Externals}.

Lemma loadFiles_agree (k : koanf.Koanf) (ss : list string) :
  cfgloader.loadFiles k ss
  = ((goconfig.loadFiles k ss).1, sum_map id legacyError (goconfig.loadFiles k ss).2).
Proof.
  revert k. induction ss as [|c ss IH]; intros k; [reflexivity|].
  cbn [cfgloader.loadFiles goconfig.loadFiles].
  destruct (loadFile k c) as [k'|cause]; [|reflexivity].
  rewrite IH. reflexivity.
Qed.

Lemma fileStep_agree (k : koanf.Koanf) (f : pflag.FlagSet) (f' : flag.FlagSet) :
  sameFiles f f' ->
  cfgloader.fileStep k f'
  = ((goconfig.fileStep k f).1, sum_map id legacyError (goconfig.fileStep k f).2).
Proof.
  unfold sameFiles, cfgloader.fileStep, goconfig.fileStep, flag.Lookup, pflag.Lookup,
    pflag.GetStringSlice.
  change cfgloader.FileArgName with goconfig.FileArgName.
  destruct (f !! goconfig.FileArgName) as [[v ch]|], (f' !! goconfig.FileArgName) as [fl'|];
    try contradiction; [|reflexivity].
  cbn [pflag.Value]. destruct v; intros ->; try reflexivity.
  apply loadFiles_agree.
Qed.

End Engines.

(** C10, as stated, fails: on the same input (the environment gives [value1]
    the value 101, the flag [value1] is defined with the default 102 and not
    set) the current engine keeps the environment's value and the legacy
    engine loads the flag's default. *)
Lemma engines_differ_on_unset_flag :
  let vars := [("TEST_VALUE1", "101")] in
  let f : pflag.FlagSet := <["value1" := Fixture.intFlag 102 false]> ∅ in
  let f' : flag.FlagSet := <["value1" := Fixture.stringFlag "102" false]> ∅ in
  goconfig.Load vars {| goconfig.prefix := "TEST_"; goconfig.delimiter := "." |} f
    (Fixture.testConfig 0 0 0 0)
  = ([], Loaded (Fixture.testConfig 101 0 0 0))
  /\ cfgloader.Load vars {| cfgloader.prefix := "TEST_"; cfgloader.delimiter := "." |}
       (Fixture.testConfig 0 0 0 0) f'
     = ([], Loaded (Fixture.testConfig 102 0 0 0))
  /\ Fixture.testConfig 101 0 0 0 <> Fixture.testConfig 102 0 0 0.
Proof. repeat split; try (vm_compute; reflexivity). discriminate. Qed.


(** * Further properties of the engines *)

(** ** The [config] option *)

Section ConfigOption.
Context `{Externals}.

Lemma goconfig_loadFiles_reads (ss : list string) (k : koanf.Koanf) :
  (goconfig.loadFiles k ss).1 `prefix_of` ss
  /\ (forall k', (goconfig.loadFiles k ss).2 = inl k' -> (goconfig.loadFiles k ss).1 = ss)
  /\ (forall e, (goconfig.loadFiles k ss).2 = inr e ->
        exists c cause, e = goconfig.LoadFileError c cause
          /\ last (goconfig.loadFiles k ss).1 = Some c).
Proof.
  revert k. induction ss as [|c ss IH]; intros k.
  - cbn. split; [reflexivity|]. split; [reflexivity|]. intros e He. discriminate.
  - cbn [goconfig.loadFiles]. destruct (loadFile k c) as [k1|cause] eqn:Hc.
    + destruct (IH k1) as (Hp & Hok & Herr). cbn [fst snd].
      split; [apply prefix_cons; exact Hp|].
      split; [intros k' Hk'; f_equal; eauto|].
      intros e He. destruct (Herr e He) as (c' & cause & -> & Hl).
      exists c', cause. split; [reflexivity|].
      destruct (goconfig.loadFiles k1 ss).1; [discriminate|exact Hl].
    + cbn [fst snd]. split; [exists ss; reflexivity|].
      split; [intros k' Hk'; discriminate|].
      intros e [= <-]. exists c, cause. auto.
Qed.

Lemma cfgloader_loadFiles_reads (ss : list string) (k : koanf.Koanf) :
  (cfgloader.loadFiles k ss).1 `prefix_of` ss
  /\ (forall k', (cfgloader.loadFiles k ss).2 = inl k' -> (cfgloader.loadFiles k ss).1 = ss)
  /\ (forall e, (cfgloader.loadFiles k ss).2 = inr e ->
        exists c cause, e = cfgloader.LoadFileError c cause
          /\ last (cfgloader.loadFiles k ss).1 = Some c).
Proof.
  revert k. induction ss as [|c ss IH]; intros k.
  - cbn. split; [reflexivity|]. split; [reflexivity|]. intros e He. discriminate.
  - cbn [cfgloader.loadFiles]. destruct (loadFile k c) as [k1|cause] eqn:Hc.
    + destruct (IH k1) as (Hp & Hok & Herr). cbn [fst snd].
      split; [apply prefix_cons; exact Hp|].
      split; [intros k' Hk'; f_equal; eauto|].
      intros e He. destruct (Herr e He) as (c' & cause & -> & Hl).
      exists c', cause. split; [reflexivity|].
      destruct (cfgloader.loadFiles k1 ss).1; [discriminate|exact Hl].
    + cbn [fst snd]. split; [exists ss; reflexivity|].
      split; [intros k' Hk'; discriminate|].
      intros e [= <-]. exists c, cause. auto.
Qed.

Lemma goconfig_Load_cases (vars : list os.envVar) (c : goconfig.Config)
    (f : pflag.FlagSet) (cfg : koanf.target) :
  (exists e, (goconfig.fileStep (koanf.New (goconfig.delimiter c)) f).2 = inr e
             /\ (goconfig.Load vars c f cfg).2 = Failed e)
  \/ (exists k0 k, (goconfig.fileStep (koanf.New (goconfig.delimiter c)) f).2 = inl k0
                   /\ (goconfig.Load vars c f cfg).2
                      = materialize goconfig.LoadUnmarshalError k cfg).
Proof.
  unfold goconfig.Load, goconfig.Load_with.
  destruct (goconfig.fileStep (koanf.New (goconfig.delimiter c)) f) as [reads [k0|e]].
  - right. exists k0. eexists. split; [reflexivity|]. reflexivity.
  - left. exists e. split; reflexivity.
Qed.

Lemma cfgloader_Load_cases (vars : list os.envVar) (c : cfgloader.Config)
    (f : flag.FlagSet) (cfg : koanf.target) :
  (exists e, (cfgloader.fileStep (koanf.New (cfgloader.delimiter c)) f).2 = inr e
             /\ (cfgloader.Load vars c cfg f).2 = Failed e)
  \/ (exists k0 k, (cfgloader.fileStep (koanf.New (cfgloader.delimiter c)) f).2 = inl k0
                   /\ (cfgloader.Load vars c cfg f).2
                      = materialize cfgloader.LoadUnmarshalError k cfg).
Proof.
  unfold cfgloader.Load, cfgloader.Load_with.
  destruct (cfgloader.fileStep (koanf.New (cfgloader.delimiter c)) f) as [reads [k0|e]].
  - right. exists k0. eexists. split; [reflexivity|]. reflexivity.
  - left. exists e. split; reflexivity.
Qed.

Lemma Load_reads_fileStep (vars : list os.envVar) (c : goconfig.Config)
    (f : pflag.FlagSet) (cfg : koanf.target) :
  (goconfig.Load vars c f cfg).1 = (goconfig.fileStep (koanf.New (goconfig.delimiter c)) f).1.
Proof.
  unfold goconfig.Load, goconfig.Load_with.
  destruct (goconfig.fileStep _ f) as [reads [k0|e]]; reflexivity.
Qed.

Lemma cfgloader_Load_reads_fileStep (vars : list os.envVar) (c : cfgloader.Config)
    (f : flag.FlagSet) (cfg : koanf.target) :
  (cfgloader.Load vars c cfg f).1
  = (cfgloader.fileStep (koanf.New (cfgloader.delimiter c)) f).1.
Proof.
  unfold cfgloader.Load, cfgloader.Load_with.
  destruct (cfgloader.fileStep _ f) as [reads [k0|e]]; reflexivity.
Qed.

Lemma materialize_not_file {E : Type} (err : E) (k : koanf.Koanf) (cfg : koanf.target)
    (e : E) :
  materialize err k cfg = Failed e -> e = err.
Proof.
  unfold materialize. destruct (koanf.Unmarshal k cfg); [discriminate|congruence].
Qed.

End ConfigOption.

(** X1. A flag named [config] that does not hold a list of strings makes
    [Load] fail at once, in both engines: no file is read, and neither the
    environment nor the target has a part in the outcome. *)
Theorem config_of_wrong_type_fails `{Externals} :
  (forall (vars : list os.envVar) (c : goconfig.Config) (f : pflag.FlagSet)
      (cfg : koanf.target) (fl : pflag.Flag),
     f !! goconfig.FileArgName = Some fl ->
     (forall ss, pflag.Value fl <> VStrings ss) ->
     goconfig.Load vars c f cfg = ([], Failed goconfig.GetStringSliceError))
  /\
  (forall (vars : list os.envVar) (c : cfgloader.Config) (f : flag.FlagSet)
      (cfg : koanf.target) (fl : flag.Flag),
     f !! cfgloader.FileArgName = Some fl ->
     flag.asStringSlice fl = None ->
     cfgloader.Load vars c cfg f = ([], Failed cfgloader.StringSliceConversionError)).
Proof.
  split.
  - intros vars c f cfg [v ch] Hf Hv.
    unfold goconfig.Load, goconfig.Load_with, goconfig.fileStep,
      pflag.Lookup, pflag.GetStringSlice.
    rewrite Hf. cbn in Hv. destruct v; try reflexivity. now destruct (Hv l).
  - intros vars c f cfg fl Hf Hs.
    unfold cfgloader.Load, cfgloader.Load_with, cfgloader.fileStep, flag.Lookup.
    now rewrite Hf, Hs.
Qed.

Lemma config_of_wrong_type_fails_witness :
  goconfig.Load [("TEST_VALUE1", "101")]
    {| goconfig.prefix := "TEST_"; goconfig.delimiter := "." |}
    (<["config" := Fixture.intFlag 1 false]> ∅) (Fixture.testConfig 0 0 0 0)
  = ([], Failed goconfig.GetStringSliceError)
  /\ cfgloader.Load [("TEST_VALUE1", "101")]
       {| cfgloader.prefix := "TEST_"; cfgloader.delimiter := "." |}
       (Fixture.testConfig 0 0 0 0) (<["config" := Fixture.stringFlag "1" false]> ∅)
     = ([], Failed cfgloader.StringSliceConversionError).
Proof.
  destruct (config_of_wrong_type_fails (H := Fixture.world)) as [Hg Hc].
  split.
  - apply (Hg _ _ _ _ (Fixture.intFlag 1 false)); [reflexivity|discriminate].
  - apply (Hc _ _ _ _ (Fixture.stringFlag "1" false)); reflexivity.
Defined.

(** X2. In both engines the files [Load] has read are a prefix of the list
    the [config] option holds; a load whose outcome is not the error of a
    file (it got past the file step, whether it then succeeds or fails) has
    read all of them; and a load that fails with the error of a file has read
    that file last. *)
Theorem reads_are_a_prefix `{Externals} :
  (forall (vars : list os.envVar) (c : goconfig.Config) (f : pflag.FlagSet)
      (cfg : koanf.target) (ch : bool) (ss : list string),
     f !! goconfig.FileArgName = Some {| pflag.Value := VStrings ss; pflag.Changed := ch |} ->
     (goconfig.Load vars c f cfg).1 `prefix_of` ss
     /\ ((forall c0 cause,
            (goconfig.Load vars c f cfg).2 <> Failed (goconfig.LoadFileError c0 cause)) ->
         (goconfig.Load vars c f cfg).1 = ss)
     /\ (forall c0 cause,
           (goconfig.Load vars c f cfg).2 = Failed (goconfig.LoadFileError c0 cause) ->
           last (goconfig.Load vars c f cfg).1 = Some c0))
  /\
  (forall (vars : list os.envVar) (c : cfgloader.Config) (f : flag.FlagSet)
      (cfg : koanf.target) (fl : flag.Flag) (ss : list string),
     f !! cfgloader.FileArgName = Some fl -> flag.asStringSlice fl = Some ss ->
     (cfgloader.Load vars c cfg f).1 `prefix_of` ss
     /\ ((forall c0 cause,
            (cfgloader.Load vars c cfg f).2 <> Failed (cfgloader.LoadFileError c0 cause)) ->
         (cfgloader.Load vars c cfg f).1 = ss)
     /\ (forall c0 cause,
           (cfgloader.Load vars c cfg f).2 = Failed (cfgloader.LoadFileError c0 cause) ->
           last (cfgloader.Load vars c cfg f).1 = Some c0)).
Proof.
  split.
  - intros vars c f cfg ch ss Hf.
    assert (Hstep : goconfig.fileStep (koanf.New (goconfig.delimiter c)) f
                    = goconfig.loadFiles (koanf.New (goconfig.delimiter c)) ss)
      by (unfold goconfig.fileStep, pflag.Lookup, pflag.GetStringSlice; now rewrite Hf).
    rewrite Load_reads_fileStep, Hstep.
    destruct (goconfig_loadFiles_reads ss (koanf.New (goconfig.delimiter c)))
      as (Hp & Hok & Herr).
    split; [exact Hp|].
    destruct (goconfig_Load_cases vars c f cfg) as [(e & He & Hout)|(k0 & k & Hk0 & Hout)];
      rewrite Hstep in *; rewrite Hout.
    + destruct (Herr _ He) as (c1 & cause1 & -> & Hl).
      split; [intros Hno; now destruct (Hno c1 cause1)|].
      intros c0 cause [= <- <-]. exact Hl.
    + split; [intros _; eauto|].
      intros c0 cause Hm. apply materialize_not_file in Hm. discriminate.
  - intros vars c f cfg fl ss Hf Hs.
    assert (Hstep : cfgloader.fileStep (koanf.New (cfgloader.delimiter c)) f
                    = cfgloader.loadFiles (koanf.New (cfgloader.delimiter c)) ss)
      by (unfold cfgloader.fileStep, flag.Lookup; now rewrite Hf, Hs).
    rewrite cfgloader_Load_reads_fileStep, Hstep.
    destruct (cfgloader_loadFiles_reads ss (koanf.New (cfgloader.delimiter c)))
      as (Hp & Hok & Herr).
    split; [exact Hp|].
    destruct (cfgloader_Load_cases vars c f cfg) as [(e & He & Hout)|(k0 & k & Hk0 & Hout)];
      rewrite Hstep in *; rewrite Hout.
    + destruct (Herr _ He) as (c1 & cause1 & -> & Hl).
      split; [intros Hno; now destruct (Hno c1 cause1)|].
      intros c0 cause [= <- <-]. exact Hl.
    + split; [intros _; eauto|].
      intros c0 cause Hm. apply materialize_not_file in Hm. discriminate.
Qed.

Lemma reads_are_a_prefix_witness :
  let c := {| goconfig.prefix := "TEST_"; goconfig.delimiter := "." |} in
  let ss := [Fixture.goodFile; Fixture.badFile; Fixture.emptyFile] in
  let f : pflag.FlagSet := <["config" := Fixture.configFlag ss]> ∅ in
  let ss' := [Fixture.goodFile; Fixture.emptyFile] in
  let f' : pflag.FlagSet :=
    <["value1" := {| pflag.Value := VString "abc"; pflag.Changed := true |}]>
      (<["config" := Fixture.configFlag ss']> ∅) in
  (goconfig.Load [] c f (Fixture.testConfig 0 0 0 0)).1 `prefix_of` ss
  /\ last (goconfig.Load [] c f (Fixture.testConfig 0 0 0 0)).1 = Some Fixture.badFile
  /\ (goconfig.Load [] c f' (Fixture.testConfig 0 0 0 0)).2
     = Failed goconfig.LoadUnmarshalError
  /\ (goconfig.Load [] c f' (Fixture.testConfig 0 0 0 0)).1 = ss'.
Proof.
  intros c ss f ss' f'.
  destruct (reads_are_a_prefix (H := Fixture.world)) as [Hg _].
  destruct (Hg [] c f (Fixture.testConfig 0 0 0 0) true ss) as (Hp & _ & Hlast);
    [reflexivity|].
  destruct (Hg [] c f' (Fixture.testConfig 0 0 0 0) true ss') as (_ & Hall & _);
    [reflexivity|].
  assert (Hout : (goconfig.Load [] c f' (Fixture.testConfig 0 0 0 0)).2
                 = Failed goconfig.LoadUnmarshalError) by (vm_compute; reflexivity).
  split; [exact Hp|].
  split; [apply (Hlast Fixture.badFile DecodeError); vm_compute; reflexivity|].
  split; [exact Hout|].
  apply Hall. intros c0 cause Hf. rewrite Hout in Hf. discriminate.
Defined.

(** ** Order among the files *)

Section FileOrder.
Context `{Externals}.

Lemma foldl_merge_clear (post : list confmap) (k : koanf.Koanf) (P : keypath) :
  Forall (fun mp => clearOf mp P) post ->
  koanf.confMap (foldl koanf.merge k post) !! P = koanf.confMap k !! P.
Proof.
  intros Hpost. revert k. induction Hpost as [|mp post Hmp _ IH]; intros k; [reflexivity|].
  cbn [foldl]. rewrite IH. apply merge_lookup_old. exact Hmp.
Qed.

Lemma foldl_merge_last (pre post : list confmap) (mp : confmap) (k : koanf.Koanf)
    (P : keypath) (v : value) :
  mp !! P = Some v ->
  Forall (fun m => clearOf m P) post ->
  koanf.confMap (foldl koanf.merge k (pre ++ mp :: post)) !! P = Some v.
Proof.
  intros Hv Hpost. rewrite foldl_app. cbn [foldl].
  rewrite foldl_merge_clear by exact Hpost. apply merge_lookup_new. exact Hv.
Qed.

End FileOrder.

(** X3. Among the files of the [config] option the later one wins, in both
    engines: when a file gives the key path [P] a value and no file after it
    holds a key at [P], above it or below it, the store the file step hands on
    holds that value at [P], whatever the files before it held. *)
Theorem later_file_wins `{Externals} :
  (forall (c : goconfig.Config) (f : pflag.FlagSet) (ch : bool) (ss : list string)
      (pre post : list confmap) (mp : confmap) (P : keypath) (v : value),
     f !! goconfig.FileArgName = Some {| pflag.Value := VStrings ss; pflag.Changed := ch |} ->
     filesDecode ss (pre ++ mp :: post) ->
     mp !! P = Some v ->
     Forall (fun m => clearOf m P) post ->
     exists k0, goconfig.fileStep (koanf.New (goconfig.delimiter c)) f = (ss, inl k0)
                /\ koanf.confMap k0 !! P = Some v)
  /\
  (forall (c : cfgloader.Config) (f : flag.FlagSet) (fl : flag.Flag) (ss : list string)
      (pre post : list confmap) (mp : confmap) (P : keypath) (v : value),
     f !! cfgloader.FileArgName = Some fl -> flag.asStringSlice fl = Some ss ->
     filesDecode ss (pre ++ mp :: post) ->
     mp !! P = Some v ->
     Forall (fun m => clearOf m P) post ->
     exists k0, cfgloader.fileStep (koanf.New (cfgloader.delimiter c)) f = (ss, inl k0)
                /\ koanf.confMap k0 !! P = Some v).
Proof.
  split.
  - intros c f ch ss pre post mp P v Hf Hd Hv Hpost. eexists. split.
    + unfold goconfig.fileStep, pflag.Lookup, pflag.GetStringSlice. rewrite Hf.
      apply goconfig_loadFiles_decode. exact Hd.
    + now apply foldl_merge_last.
  - intros c f fl ss pre post mp P v Hf Hs Hd Hv Hpost. eexists. split.
    + unfold cfgloader.fileStep, flag.Lookup. rewrite Hf, Hs.
      apply cfgloader_loadFiles_decode. exact Hd.
    + now apply foldl_merge_last.
Qed.

Lemma later_file_wins_witness :
  let f : pflag.FlagSet :=
    <["config" := Fixture.configFlag ["first.yaml"; Fixture.goodFile; Fixture.emptyFile]]> ∅ in
  exists k0,
    goconfig.fileStep (H := Fixture.overlaid) (koanf.New ".") f
      = (["first.yaml"; Fixture.goodFile; Fixture.emptyFile], inl k0)
    /\ koanf.confMap k0 !! ["value1"] = Some (VInt 101).
Proof.
  intros f.
  destruct (later_file_wins (H := Fixture.overlaid)) as [Hg _].
  apply (Hg {| goconfig.prefix := "TEST_"; goconfig.delimiter := "." |} f true
           ["first.yaml"; Fixture.goodFile; Fixture.emptyFile]
           [ <[ ["value1"] := VInt 7 ]> ∅ ] [∅] Fixture.goodMap ["value1"] (VInt 101)).
  - reflexivity.
  - repeat constructor; eexists; split; reflexivity.
  - reflexivity.
  - repeat constructor. intros A [x Hx]. rewrite lookup_empty in Hx. discriminate.
Defined.

(** ** The variables of the environment that count *)

Section EnvExtent.
Context `{Externals}.

Lemma goconfig_Load_flat_ext (vars vars' : list os.envVar) (c : goconfig.Config)
    (f : pflag.FlagSet) (cfg : koanf.target) :
  env.flat (goconfig.prefix c) (goconfig.updateEnv c) (os.Environ vars)
  = env.flat (goconfig.prefix c) (goconfig.updateEnv c) (os.Environ vars') ->
  goconfig.Load vars c f cfg = goconfig.Load vars' c f cfg.
Proof.
  intros Hflat. unfold goconfig.Load, goconfig.Load_with, goconfig.overlay, env.Provider.
  now rewrite Hflat.
Qed.

Lemma cfgloader_Load_flat_ext (vars vars' : list os.envVar) (c : cfgloader.Config)
    (f : flag.FlagSet) (cfg : koanf.target) :
  env.flat (cfgloader.prefix c) (cfgloader.updateEnv c) (os.Environ vars)
  = env.flat (cfgloader.prefix c) (cfgloader.updateEnv c) (os.Environ vars') ->
  cfgloader.Load vars c cfg f = cfgloader.Load vars' c cfg f.
Proof.
  intros Hflat. unfold cfgloader.Load, cfgloader.Load_with, cfgloader.overlay, env.Provider.
  now rewrite Hflat.
Qed.

Lemma keys_of_kept (prefix : string) (vars : list os.envVar) :
  env.keys prefix (os.Environ (List.filter (fun nv => env.kept prefix (entry nv)) vars))
  = env.keys prefix (os.Environ vars).
Proof.
  unfold env.keys, os.Environ. induction vars as [|nv vars IH]; [reflexivity|].
  cbn [List.filter map]. fold (entry nv).
  destruct (env.kept prefix (entry nv)) eqn:Hk.
  - cbn [map List.filter]. fold (entry nv). rewrite Hk. f_equal. exact IH.
  - exact IH.
Qed.

Lemma flat_of_kept (prefix : string) (cb : string -> string) (vars : list os.envVar) :
  env.flat prefix cb (os.Environ (List.filter (fun nv => env.kept prefix (entry nv)) vars))
  = env.flat prefix cb (os.Environ vars).
Proof. unfold env.flat. now rewrite keys_of_kept. Qed.

Lemma flat_app (prefix : string) (cb : string -> string) (l1 l2 : list string) :
  env.flat prefix cb (l1 ++ l2)
  = foldl (env.assign cb) (env.flat prefix cb l1) (env.keys prefix l2).
Proof. unfold env.flat, env.keys. now rewrite List.filter_app, foldl_app. Qed.

Lemma flat_drop_blank (prefix : string) (cb : string -> string)
    (before after : list os.envVar) (n v : string) :
  noEquals n = true -> cb n = "" ->
  env.flat prefix cb (os.Environ (before ++ (n, v) :: after))
  = env.flat prefix cb (os.Environ (before ++ after)).
Proof.
  intros Hn Hcb. unfold os.Environ. rewrite !map_app. cbn [map fst snd].
  rewrite !flat_app. unfold env.keys. cbn [List.filter].
  destruct (env.kept prefix _); [|reflexivity].
  cbn [foldl]. f_equal. unfold env.assign.
  now rewrite (nameOf_entry n v Hn), Hcb.
Qed.

Lemma append_nil_r (s : string) : String.append s EmptyString = s.
Proof. induction s as [|a s IH]; [reflexivity|]. rewrite append_cons. now rewrite IH. Qed.

Lemma TrimPrefix_self (p : string) : strings.TrimPrefix p p = EmptyString.
Proof. rewrite <- (append_nil_r p) at 1. apply TrimPrefix_app. Qed.

Lemma Replace_empty (old : ascii) (new : string) :
  strings.Replace EmptyString old new = EmptyString.
Proof. unfold strings.Replace. now destruct (String.eqb _ new). Qed.

End EnvExtent.

(** X4. In both engines [Load] depends on the environment only through the
    variables the prefix keeps: dropping every variable whose entry does not
    begin with the prefix changes neither the files read nor the outcome. *)
Theorem unprefixed_variables_are_ignored `{Externals} :
  (forall (vars : list os.envVar) (c : goconfig.Config) (f : pflag.FlagSet)
      (cfg : koanf.target),
     goconfig.Load
       (List.filter (fun nv => env.kept (goconfig.prefix c) (entry nv)) vars) c f cfg
     = goconfig.Load vars c f cfg)
  /\
  (forall (vars : list os.envVar) (c : cfgloader.Config) (f : flag.FlagSet)
      (cfg : koanf.target),
     cfgloader.Load
       (List.filter (fun nv => env.kept (cfgloader.prefix c) (entry nv)) vars) c cfg f
     = cfgloader.Load vars c cfg f).
Proof.
  split; intros.
  - apply goconfig_Load_flat_ext, flat_of_kept.
  - apply cfgloader_Load_flat_ext, flat_of_kept.
Qed.

(** X5. A variable whose name the normalization turns into the empty key
    (as it does the name that is the prefix itself) is dropped by the
    environment step: with or without it, [Load] does the same, in both
    engines. *)
Theorem blank_key_is_dropped `{Externals} :
  (forall c : goconfig.Config, goconfig.updateEnv c (goconfig.prefix c) = "")
  /\
  (forall (before after : list os.envVar) (n v : string) (c : goconfig.Config)
      (f : pflag.FlagSet) (cfg : koanf.target),
     noEquals n = true -> goconfig.updateEnv c n = "" ->
     goconfig.Load (before ++ (n, v) :: after) c f cfg
     = goconfig.Load (before ++ after) c f cfg)
  /\
  (forall (before after : list os.envVar) (n v : string) (c : cfgloader.Config)
      (f : flag.FlagSet) (cfg : koanf.target),
     noEquals n = true -> cfgloader.updateEnv c n = "" ->
     cfgloader.Load (before ++ (n, v) :: after) c cfg f
     = cfgloader.Load (before ++ after) c cfg f).
Proof.
  split; [|split].
  - intros c. unfold goconfig.updateEnv. rewrite TrimPrefix_self. apply Replace_empty.
  - intros. now apply goconfig_Load_flat_ext, flat_drop_blank.
  - intros. now apply cfgloader_Load_flat_ext, flat_drop_blank.
Qed.

Lemma blank_key_is_dropped_witness :
  let c := {| goconfig.prefix := "TEST_"; goconfig.delimiter := "." |} in
  goconfig.Load ([("TEST_VALUE1", "5")] ++ ("TEST_", "9") :: [("TEST_VALUE2", "6")]) c ∅
    (Fixture.testConfig 0 0 0 0)
  = goconfig.Load ([("TEST_VALUE1", "5")] ++ [("TEST_VALUE2", "6")]) c ∅
      (Fixture.testConfig 0 0 0 0).
Proof.
  intros c.
  destruct (blank_key_is_dropped (H := Fixture.world)) as (_ & Hg & _).
  apply Hg; reflexivity.
Defined.

(** ** More on the normalization of names *)

(** A statement about one byte, settled on each of the 256 bytes. *)
Ltac byte_cases c :=
  destruct c as [[|] [|] [|] [|] [|] [|] [|] [|]]; vm_compute; try reflexivity; try discriminate.

Section Normalization.
Context `{Externals}.
Import strings.

Lemma lower_not_upper (c : ascii) : Byte8.isUpper (Byte8.lower c) = false.
Proof. byte_cases c. Qed.

Lemma lower_ascii (c : ascii) : Byte8.isASCII (Byte8.lower c) = Byte8.isASCII c.
Proof. byte_cases c. Qed.

Lemma lower_fix (c : ascii) : Byte8.isUpper c = false -> Byte8.lower c = c.
Proof. intros Hc. unfold Byte8.lower. now rewrite Hc. Qed.

Lemma lower_underscore (c : ascii) :
  Ascii.eqb (Byte8.lower c) "_" = Ascii.eqb c "_".
Proof. byte_cases c. Qed.

Lemma all_bytes_map (P : ascii -> bool) (g : ascii -> ascii) (s : string) :
  all_bytes P (map_bytes g s) = all_bytes (fun c => P (g c)) s.
Proof. induction s as [|c s IH]; [reflexivity|]. cbn. now rewrite IH. Qed.

Lemma all_bytes_ext (P Q : ascii -> bool) (s : string) :
  (forall c, P c = Q c) -> all_bytes P s = all_bytes Q s.
Proof. intros HPQ. induction s as [|c s IH]; [reflexivity|]. cbn. now rewrite HPQ, IH. Qed.

Lemma all_bytes_true (P : ascii -> bool) (s : string) :
  (forall c, P c = true) -> all_bytes P s = true.
Proof. intros HP. induction s as [|c s IH]; [reflexivity|]. cbn. now rewrite HP, IH. Qed.

Lemma all_bytes_app (P : ascii -> bool) (s t : string) :
  all_bytes P (String.append s t) = all_bytes P s && all_bytes P t.
Proof.
  induction s as [|c s IH]; [reflexivity|].
  rewrite append_cons. cbn. rewrite IH. now rewrite andb_assoc.
Qed.

Lemma map_bytes_app (g : ascii -> ascii) (s t : string) :
  map_bytes g (String.append s t) = String.append (map_bytes g s) (map_bytes g t).
Proof.
  induction s as [|c s IH]; [reflexivity|].
  rewrite append_cons. cbn. rewrite IH. now rewrite append_cons.
Qed.

Lemma map_bytes_fix (g : ascii -> ascii) (P : ascii -> bool) (s : string) :
  (forall c, P c = true -> g c = c) -> all_bytes P s = true -> map_bytes g s = s.
Proof.
  intros Hg. induction s as [|c s IH]; [reflexivity|].
  cbn. intros Hs. apply andb_prop in Hs as [Hc Hs]. now rewrite (Hg c Hc), IH.
Qed.

Lemma map_bytes_map_bytes (g h : ascii -> ascii) (s : string) :
  map_bytes g (map_bytes h s) = map_bytes (fun c => g (h c)) s.
Proof. induction s as [|c s IH]; [reflexivity|]. cbn. now rewrite IH. Qed.

Lemma map_bytes_ext (g h : ascii -> ascii) (s : string) :
  (forall c, g c = h c) -> map_bytes g s = map_bytes h s.
Proof. intros Hgh. induction s as [|c s IH]; [reflexivity|]. cbn. now rewrite Hgh, IH. Qed.

(** On a string of ASCII bytes [ToLower] lowers each byte. *)
Lemma ToLower_ascii (s : string) :
  isASCIIString s = true -> ToLower mapUnicodeToLower s = map_bytes Byte8.lower s.
Proof.
  intros Hs. unfold ToLower. unfold isASCIIString in Hs. rewrite Hs.
  destruct (all_bytes (fun c => negb (Byte8.isUpper c)) s) eqn:Hup; [|reflexivity].
  symmetry.
  apply (map_bytes_fix Byte8.lower (fun c => negb (Byte8.isUpper c))); [|exact Hup].
  intros c Hc. apply lower_fix. now apply negb_true_iff.
Qed.

End Normalization.

Section NormalizationFacts.
Context `{Externals}.
Import strings.

Lemma lower_idem (c : ascii) : Byte8.lower (Byte8.lower c) = Byte8.lower c.
Proof. apply lower_fix, lower_not_upper. Qed.

Lemma isASCIIString_lower (s : string) :
  isASCIIString (map_bytes Byte8.lower s) = isASCIIString s.
Proof. unfold isASCIIString. rewrite all_bytes_map. apply all_bytes_ext, lower_ascii. Qed.

Lemma all_bytes_drop (P : ascii -> bool) (n : nat) (s : string) :
  all_bytes P s = true -> all_bytes P (drop n s) = true.
Proof.
  revert s. induction n as [|n IH]; intros [|c s] Hs; try exact Hs.
  cbn in *. apply andb_prop in Hs as [_ Hs]. now apply IH.
Qed.

Lemma all_bytes_TrimPrefix (P : ascii -> bool) (s p : string) :
  all_bytes P s = true -> all_bytes P (TrimPrefix s p) = true.
Proof.
  intros Hs. unfold TrimPrefix. destruct (HasPrefix s p); [|exact Hs].
  now apply all_bytes_drop.
Qed.

Lemma TrimPrefix_keep (t p : string) :
  p = "" \/ HasPrefix t p = false -> TrimPrefix t p = t.
Proof.
  intros [->|Hp]; unfold TrimPrefix; [reflexivity|]. now rewrite Hp.
Qed.

(** [updateEnv] on a name of ASCII bytes, byte by byte. *)
Lemma updateEnv_ascii (p : string) (d : ascii) (s : string) :
  isASCIIString s = true ->
  goconfig.updateEnv {| goconfig.prefix := p; goconfig.delimiter := String d EmptyString |} s
  = map_bytes (fun c => if Ascii.eqb (Byte8.lower c) "_" then d else Byte8.lower c)
      (TrimPrefix s p).
Proof.
  intros Hs. unfold goconfig.updateEnv. cbn [goconfig.prefix goconfig.delimiter].
  rewrite Replace_byte, ToLower_ascii by (now apply all_bytes_TrimPrefix).
  apply map_bytes_map_bytes.
Qed.

End NormalizationFacts.

(** ** Normalization and its specification *)

Section NormalizeSpec.
Context `{Externals}.
Import strings.

Lemma lowerLetter_lower (c : ascii) : Spec.lowerLetter c = Byte8.lower c.
Proof. byte_cases c. Qed.

(** Go's [strings.ToLower] is the lower-casing of the specification. *)
Lemma ToLower_lowerCase (s : string) :
  ToLower mapUnicodeToLower s = Spec.lowerCase mapUnicodeToLower s.
Proof.
  unfold Spec.lowerCase.
  change (all_bytes (fun c => (N_of_ascii c <? 128)%N) s) with (isASCIIString s).
  destruct (isASCIIString s) eqn:Hs.
  - rewrite ToLower_ascii by exact Hs. apply map_bytes_ext. intros c.
    symmetry. apply lowerLetter_lower.
  - unfold ToLower. unfold isASCIIString in Hs. now rewrite Hs.
Qed.

Lemma all_bytes_default_strip (P : ascii -> bool) (p s : string) :
  all_bytes P s = true -> all_bytes P (default s (Spec.stripPrefix p s)) = true.
Proof.
  intros Hs. rewrite <- TrimPrefix_stripPrefix. now apply all_bytes_TrimPrefix.
Qed.

End NormalizeSpec.

(** C6: in both engines [updateEnv] is the normalization of the
    specification, for every string and every one-byte delimiter: the prefix
    is stripped when the string starts with it byte for byte, the remainder
    is lower-cased, every underscore becomes the delimiter. On a string of
    ASCII bytes the lower-casing is letter by letter, [A] to [Z] giving way
    to [a] to [z], and the result has as many bytes as the remainder: no
    underscore is dropped or merged with its neighbour. *)
Theorem updateEnv_normalizes `{Externals} (p : string) (d : ascii) (s : string) :
  let c := {| goconfig.prefix := p; goconfig.delimiter := String d EmptyString |} in
  let c' := {| cfgloader.prefix := p; cfgloader.delimiter := String d EmptyString |} in
  (goconfig.updateEnv c s = Spec.normalize mapUnicodeToLower p d s
   /\ cfgloader.updateEnv c' s = Spec.normalize mapUnicodeToLower p d s)
  /\ (isASCIIString s = true ->
      goconfig.updateEnv c s
      = Spec.substitute d
          (strings.map_bytes Spec.lowerLetter (default s (Spec.stripPrefix p s)))
      /\ cfgloader.updateEnv c' s
         = Spec.substitute d
             (strings.map_bytes Spec.lowerLetter (default s (Spec.stripPrefix p s)))
      /\ String.length (goconfig.updateEnv c s)
         = String.length (default s (Spec.stripPrefix p s))).
Proof.
  intros c c'.
  assert (Hgo : goconfig.updateEnv c s = Spec.normalize mapUnicodeToLower p d s).
  { unfold goconfig.updateEnv, Spec.normalize, Spec.substitute, c.
    cbn [goconfig.prefix goconfig.delimiter].
    now rewrite Replace_byte, TrimPrefix_stripPrefix, ToLower_lowerCase. }
  split; [split; exact Hgo|].
  intros Hs.
  assert (Hlow : Spec.normalize mapUnicodeToLower p d s
                 = Spec.substitute d
                     (strings.map_bytes Spec.lowerLetter (default s (Spec.stripPrefix p s)))).
  { unfold Spec.normalize, Spec.lowerCase.
    change (strings.all_bytes (fun c => (N_of_ascii c <? 128)%N)
              (default s (Spec.stripPrefix p s)))
      with (isASCIIString (default s (Spec.stripPrefix p s))).
    unfold isASCIIString. now rewrite all_bytes_default_strip by exact Hs. }
  split; [|split].
  - now rewrite Hgo.
  - change (cfgloader.updateEnv c' s) with (goconfig.updateEnv c s). now rewrite Hgo.
  - rewrite Hgo, Hlow. unfold Spec.substitute. now rewrite !map_bytes_length.
Qed.

Lemma updateEnv_normalizes_witness :
  goconfig.updateEnv {| goconfig.prefix := "TEST_"; goconfig.delimiter := "." |}
    "TEST_Nested__VAL_"
  = Spec.substitute "." (strings.map_bytes Spec.lowerLetter "Nested__VAL_")
  /\ Spec.substitute "." (strings.map_bytes Spec.lowerLetter "Nested__VAL_")
     = "nested..val.".
Proof.
  split; [|reflexivity].
  apply (proj2 (updateEnv_normalizes (H := Fixture.world) "TEST_" "." "TEST_Nested__VAL_")).
  reflexivity.
Defined.

(** X6. With a one-byte delimiter other than the underscore, the key
    [updateEnv] makes of a name holds no underscore, in both engines: a field
    whose tag holds one is out of reach of the environment. *)
Theorem normalized_key_has_no_underscore `{Externals} (p : string) (d : ascii) (s : string) :
  d <> "_"%char ->
  noByte "_"
    (goconfig.updateEnv
       {| goconfig.prefix := p; goconfig.delimiter := String d EmptyString |} s) = true
  /\ noByte "_"
       (cfgloader.updateEnv
          {| cfgloader.prefix := p; cfgloader.delimiter := String d EmptyString |} s) = true.
Proof.
  intros Hd.
  assert (Hg : forall t,
    noByte "_" (strings.map_bytes (fun c => if Ascii.eqb c "_" then d else c) t) = true).
  { intros t. unfold noByte. rewrite all_bytes_map. apply all_bytes_true. intros c.
    destruct (Ascii.eqb_spec c "_") as [->|Hc].
    - destruct (Ascii.eqb_spec d "_"); [contradiction|reflexivity].
    - destruct (Ascii.eqb_spec c "_"); [contradiction|reflexivity]. }
  unfold goconfig.updateEnv, cfgloader.updateEnv. cbn. rewrite !Replace_byte.
  split; apply Hg.
Qed.

Lemma normalized_key_has_no_underscore_witness :
  noByte "_"
    (goconfig.updateEnv {| goconfig.prefix := "TEST_"; goconfig.delimiter := "." |}
       "TEST_MY_Nested__VAL_") = true.
Proof.
  apply (normalized_key_has_no_underscore (H := Fixture.world) "TEST_" "."%char
           "TEST_MY_Nested__VAL_").
  discriminate.
Defined.

(** X7. The case of the ASCII letters that follow the prefix in a name has
    no part in the key, in both engines and for every delimiter: the name and
    the name with these letters lowered are normalized alike. *)
Theorem case_after_prefix_is_immaterial `{Externals} (p dl r : string) :
  isASCIIString r = true ->
  goconfig.updateEnv {| goconfig.prefix := p; goconfig.delimiter := dl |}
    (String.append p r)
  = goconfig.updateEnv {| goconfig.prefix := p; goconfig.delimiter := dl |}
      (String.append p (strings.map_bytes Byte8.lower r))
  /\ cfgloader.updateEnv {| cfgloader.prefix := p; cfgloader.delimiter := dl |}
       (String.append p r)
     = cfgloader.updateEnv {| cfgloader.prefix := p; cfgloader.delimiter := dl |}
         (String.append p (strings.map_bytes Byte8.lower r)).
Proof.
  intros Hr.
  assert (Hlow : strings.ToLower mapUnicodeToLower r
                 = strings.ToLower mapUnicodeToLower (strings.map_bytes Byte8.lower r)).
  { rewrite !ToLower_ascii by (rewrite ?isASCIIString_lower; exact Hr).
    rewrite map_bytes_map_bytes. apply map_bytes_ext. intros c. symmetry. apply lower_idem. }
  unfold goconfig.updateEnv, cfgloader.updateEnv. cbn.
  rewrite !TrimPrefix_app, Hlow. split; reflexivity.
Qed.

Lemma case_after_prefix_is_immaterial_witness :
  goconfig.updateEnv {| goconfig.prefix := "TEST_"; goconfig.delimiter := "." |}
    (String.append "TEST_" "Nested_VAL")
  = goconfig.updateEnv {| goconfig.prefix := "TEST_"; goconfig.delimiter := "." |}
      (String.append "TEST_" (strings.map_bytes Byte8.lower "Nested_VAL")).
Proof.
  apply (case_after_prefix_is_immaterial (H := Fixture.world) "TEST_" "." "Nested_VAL").
  reflexivity.
Defined.

(** X8. Normalizing twice is normalizing once, in both engines, for a name
    of ASCII bytes, a one-byte delimiter that is ASCII, not an upper-case
    letter and not the underscore, and a key that does not begin with the
    prefix again. *)
Theorem updateEnv_idempotent `{Externals} (p : string) (d : ascii) (s : string) :
  let c := {| goconfig.prefix := p; goconfig.delimiter := String d EmptyString |} in
  let c' := {| cfgloader.prefix := p; cfgloader.delimiter := String d EmptyString |} in
  isASCIIString s = true ->
  Byte8.isASCII d = true -> Byte8.isUpper d = false -> d <> "_"%char ->
  p = "" \/ strings.HasPrefix (goconfig.updateEnv c s) p = false ->
  goconfig.updateEnv c (goconfig.updateEnv c s) = goconfig.updateEnv c s
  /\ cfgloader.updateEnv c' (cfgloader.updateEnv c' s) = cfgloader.updateEnv c' s.
Proof.
  intros c c' Hs Hd Hup Hne Hp.
  assert (Hgo : goconfig.updateEnv c (goconfig.updateEnv c s) = goconfig.updateEnv c s).
  { assert (Hascii : isASCIIString (goconfig.updateEnv c s) = true).
    { unfold c. rewrite updateEnv_ascii by exact Hs. unfold isASCIIString.
      rewrite all_bytes_map.
      rewrite (all_bytes_ext _ Byte8.isASCII).
      - now apply all_bytes_TrimPrefix.
      - intros b. destruct (Ascii.eqb (Byte8.lower b) "_") eqn:Hb.
        + apply Ascii.eqb_eq in Hb. rewrite <- (lower_ascii b), Hb. exact Hd.
        + apply lower_ascii. }
    unfold c at 1. rewrite (updateEnv_ascii p d _ Hascii).
    rewrite (TrimPrefix_keep _ _ Hp).
    unfold c at 1 2. rewrite (updateEnv_ascii p d s Hs).
    rewrite map_bytes_map_bytes. apply map_bytes_ext. intros b.
    destruct (Ascii.eqb (Byte8.lower b) "_") eqn:Hb.
    - rewrite (lower_fix d Hup).
      destruct (Ascii.eqb_spec d "_"); [contradiction|reflexivity].
    - now rewrite lower_idem, Hb. }
  split; [exact Hgo|exact Hgo].
Qed.

Lemma updateEnv_idempotent_witness :
  let c := {| goconfig.prefix := "TEST_"; goconfig.delimiter := "." |} in
  goconfig.updateEnv c (goconfig.updateEnv c "TEST_Nested_VAL")
  = goconfig.updateEnv c "TEST_Nested_VAL".
Proof.
  intros c.
  apply (updateEnv_idempotent (H := Fixture.world) "TEST_" "."%char "TEST_Nested_VAL");
    try reflexivity; [discriminate|right; reflexivity].
Defined.

(** ** Underscores and nesting *)

Section SplitByte.
Import strings split.

Lemma length_drop (n : nat) (s : string) :
  String.length (drop n s) = String.length s - n.
Proof.
  revert s. induction n as [|n IH]; intros [|c s]; cbn; try reflexivity; try lia.
  apply IH.
Qed.

Lemma Index_byte (c d : ascii) (s : string) :
  Index (String c s) (String d EmptyString)
  = if Ascii.eqb c d then Some 0 else S <$> Index s (String d EmptyString).
Proof. cbn [Index HasPrefix]. destruct (Ascii.eqb c d); reflexivity. Qed.

Lemma Index_lt (s sep : string) (m : nat) :
  sep <> EmptyString -> Index s sep = Some m -> m < String.length s.
Proof.
  intros Hsep. revert m. induction s as [|c s IH]; intros m; cbn [Index].
  - destruct sep; [contradiction|]. cbn. discriminate.
  - destruct (HasPrefix (String c s) sep).
    + intros [= <-]. cbn. lia.
    + destruct (Index s sep) as [m'|]; [|discriminate].
      intros [= <-]. cbn. specialize (IH m' eq_refl). lia.
Qed.

(** The loop of [genSplit] has done its work once its bound reaches the
    length of the string. *)
Lemma genSplit_loop_fuel (fuel1 fuel2 : nat) (s : string) (a : ascii) (sep : string) :
  String.length s <= fuel1 -> String.length s <= fuel2 ->
  genSplit_loop fuel1 s (String a sep) = genSplit_loop fuel2 s (String a sep).
Proof.
  revert fuel2 s. induction fuel1 as [|fuel1 IH]; intros fuel2 s H1 H2.
  - destruct s; [|cbn in H1; lia]. destruct fuel2; reflexivity.
  - destruct fuel2 as [|fuel2].
    + destruct s; [reflexivity|cbn in H2; lia].
    + cbn [genSplit_loop]. destruct (Index s (String a sep)) as [m|] eqn:Hi; [|reflexivity].
      f_equal. apply Index_lt in Hi; [|discriminate].
      apply IH; rewrite length_drop; cbn [String.length]; lia.
Qed.

Lemma Split_empty (d : ascii) :
  Split EmptyString (String d EmptyString) = [EmptyString].
Proof. reflexivity. Qed.

Lemma Split_cons_eq (d : ascii) (s : string) :
  Split (String d s) (String d EmptyString)
  = EmptyString :: Split s (String d EmptyString).
Proof.
  unfold Split. cbn [String.length genSplit_loop]. rewrite Index_byte, Ascii.eqb_refl.
  reflexivity.
Qed.

Lemma Split_cons_ne (c d : ascii) (s : string) :
  c <> d ->
  Split (String c s) (String d EmptyString)
  = match Split s (String d EmptyString) with
    | h :: t => String c h :: t
    | [] => []
    end.
Proof.
  intros Hcd. unfold Split. cbn [String.length genSplit_loop]. rewrite Index_byte.
  destruct (Ascii.eqb_spec c d); [contradiction|].
  destruct (Index s (String d EmptyString)) as [m|] eqn:Hi; cbn [fmap option_fmap option_map].
  - rewrite (genSplit_loop_fuel (String.length s) (S (String.length s)) s d EmptyString)
      by lia.
    cbn [genSplit_loop]. rewrite Hi. cbn [take String.length Nat.add drop]. reflexivity.
  - destruct (String.length s); cbn [genSplit_loop]; [reflexivity|]. now rewrite Hi.
Qed.

Lemma Split_app_byte (d : ascii) (x y : string) :
  Split (String.append x (String d y)) (String d EmptyString)
  = (Split x (String d EmptyString) ++ Split y (String d EmptyString))%list.
Proof.
  induction x as [|c x IH].
  - rewrite append_empty, Split_cons_eq, Split_empty. reflexivity.
  - rewrite append_cons. destruct (Ascii.eqb_spec c d) as [->|Hcd].
    + rewrite !Split_cons_eq, IH. reflexivity.
    + rewrite !Split_cons_ne, IH by exact Hcd.
      pose proof (Split_nonempty x d EmptyString) as Hne.
      destruct (Split x (String d EmptyString)); [contradiction|reflexivity].
Qed.

End SplitByte.

(** X9. An underscore in what follows the prefix opens a level of nesting, in
    both engines: for ASCII [a] and [b] and a one-byte delimiter, the key path
    of the variable [a_b] is the key path of [a] followed by the key path of
    [b]. *)
Theorem underscore_opens_a_level `{Externals} (p : string) (d : ascii) (a b : string) :
  let c := {| goconfig.prefix := p; goconfig.delimiter := String d EmptyString |} in
  let c' := {| cfgloader.prefix := p; cfgloader.delimiter := String d EmptyString |} in
  isASCIIString a = true -> isASCIIString b = true ->
  maps.keyPath (String d EmptyString)
    (goconfig.updateEnv c (String.append p (String.append a (String "_" b))))
  = (maps.keyPath (String d EmptyString) (goconfig.updateEnv c (String.append p a))
     ++ maps.keyPath (String d EmptyString) (goconfig.updateEnv c (String.append p b)))%list
  /\ maps.keyPath (String d EmptyString)
       (cfgloader.updateEnv c' (String.append p (String.append a (String "_" b))))
     = (maps.keyPath (String d EmptyString) (cfgloader.updateEnv c' (String.append p a))
        ++ maps.keyPath (String d EmptyString) (cfgloader.updateEnv c' (String.append p b)))%list.
Proof.
  intros c c' Ha Hb.
  assert (Hab : isASCIIString (String.append a (String "_" b)) = true).
  { unfold isASCIIString in *. rewrite all_bytes_app. cbn. now rewrite Ha, Hb. }
  assert (Hgo :
    maps.keyPath (String d EmptyString)
      (goconfig.updateEnv c (String.append p (String.append a (String "_" b))))
    = (maps.keyPath (String d EmptyString) (goconfig.updateEnv c (String.append p a))
       ++ maps.keyPath (String d EmptyString) (goconfig.updateEnv c (String.append p b)))%list).
  { unfold goconfig.updateEnv, c. cbn [goconfig.prefix goconfig.delimiter].
    rewrite !TrimPrefix_app, !Replace_byte, !ToLower_ascii by assumption.
    rewrite !map_bytes_app. cbn [strings.map_bytes].
    replace (Byte8.lower "_") with "_"%char by reflexivity.
    rewrite Ascii.eqb_refl. unfold maps.keyPath. apply Split_app_byte. }
  split; exact Hgo.
Qed.

Lemma underscore_opens_a_level_witness :
  let c := {| goconfig.prefix := "TEST_"; goconfig.delimiter := "." |} in
  maps.keyPath "." (goconfig.updateEnv c "TEST_NESTED_NESTEDVALUE")
  = (maps.keyPath "." (goconfig.updateEnv c "TEST_NESTED")
     ++ maps.keyPath "." (goconfig.updateEnv c "TEST_NESTEDVALUE"))%list.
Proof.
  intros c.
  apply (underscore_opens_a_level (H := Fixture.world) "TEST_" "."%char
           "NESTED" "NESTEDVALUE"); reflexivity.
Defined.

(** ** The flag step under a delimiter other than the dot *)

Section OtherDelimiter.
Context `{Externals}.
Import split.

Lemma noByte_Join (x : ascii) (q : keypath) (sep : string) :
  segmentsFree x q -> noByte x sep = true -> noByte x (Join q sep) = true.
Proof.
  intros Hq Hsep. induction Hq as [|e rest He Hrest IH]; [reflexivity|].
  destruct rest as [|e' rest]; [exact He|].
  rewrite Join_cons by discriminate. unfold noByte in *.
  rewrite !all_bytes_app, He, Hsep, IH. reflexivity.
Qed.

Lemma keyParts_segmentsFree (x : ascii) (P q : keypath) :
  segmentsFree x P -> In q (koanf.keyParts P) -> segmentsFree x q.
Proof.
  intros HP. revert q. induction HP as [|e rest He Hrest IH]; intros q; cbn [koanf.keyParts].
  - intros [].
  - intros [<-|Hin].
    + constructor; [exact He|constructor].
    + apply in_map_iff in Hin as (q' & <- & Hq'). constructor; [exact He|]. now apply IH.
Qed.

(** A store whose delimiter and whose key segments are free of a byte knows
    no name that holds the byte. *)
Lemma Exists_other_byte (ko : koanf.Koanf) (x : ascii) (name : string) :
  noByte x (koanf.delim ko) = true ->
  map_Forall (fun P _ => segmentsFree x P) (koanf.confMap ko) ->
  noByte x name = false ->
  koanf.Exists ko name = false.
Proof.
  intros Hd Hst Hname. unfold koanf.Exists. apply bool_decide_eq_false.
  unfold koanf.keyMap. rewrite elem_of_list_to_set, list_elem_of_In, in_flat_map.
  intros ([P v] & Hin & Hq). cbn [fst] in Hq.
  apply in_map_iff in Hq as (q & Hj & Hq).
  apply list_elem_of_In, elem_of_map_to_list in Hin.
  assert (Hfree : noByte x (Join q (koanf.delim ko)) = true).
  { apply noByte_Join; [|exact Hd]. eapply keyParts_segmentsFree; [|exact Hq].
    exact (Hst P v Hin). }
  congruence.
Qed.

End OtherDelimiter.

(** X10. The current engine builds its store with the configured delimiter
    but hands the flag provider the dot. Under a delimiter other than the
    dot, a flag whose name holds a dot is therefore unknown to the store,
    whose keys hold none, and the flag step writes the flag's value at the
    path its name spells, set or not. *)
Theorem dotted_flag_is_written_under_other_delimiter `{Externals}
    (k1 : koanf.Koanf) (d : ascii) (f : pflag.FlagSet) (fn : string) (fl : pflag.Flag) :
  koanf.delim k1 = String d EmptyString -> d <> "."%char ->
  map_Forall (fun P _ => segmentsFree "." P) (koanf.confMap k1) ->
  maps.conflictFree (maps.keyPaths "." f) ->
  f !! fn = Some fl -> noByte "." fn = false ->
  koanf.Exists k1 fn = false
  /\ exists k2, koanf_Load k1 (posflag.Provider f "." k1) = Some k2
       /\ koanf.confMap k2 !! maps.keyPath "." fn = Some (pflag.Value fl).
Proof.
  intros Hd Hne Hst Hf Hfl Hdot.
  assert (Hex : koanf.Exists k1 fn = false).
  { apply (Exists_other_byte k1 "."); [|exact Hst|exact Hdot].
    rewrite Hd. cbn. destruct (Ascii.eqb_spec d "."); [contradiction|reflexivity]. }
  split; [exact Hex|].
  assert (Hfn : fn <> EmptyString) by (intros ->; discriminate).
  destruct (goconfig_flag_step k1 f fn fl Hf Hfl Hfn) as (k2 & Hk2 & Hl).
  exists k2. split; [exact Hk2|].
  rewrite Hl, Hex, orb_true_r. reflexivity.
Qed.

Lemma dotted_flag_is_written_under_other_delimiter_witness :
  let k1 := koanf.merge (koanf.New ":") (<[ ["nested"; "nestedvalue"] := VString "101" ]> ∅) in
  let f : pflag.FlagSet := <["nested.nestedvalue" := Fixture.intFlag 1 false]> ∅ in
  koanf.Exists k1 "nested.nestedvalue" = false
  /\ exists k2, koanf_Load k1 (posflag.Provider f "." k1) = Some k2
       /\ koanf.confMap k2 !! ["nested"; "nestedvalue"] = Some (VInt 1).
Proof.
  intros k1 f.
  apply (dotted_flag_is_written_under_other_delimiter (H := Fixture.world)
           k1 ":"%char f "nested.nestedvalue" (Fixture.intFlag 1 false));
    [reflexivity|discriminate|by_evaluation|by_evaluation|reflexivity|reflexivity].
Defined.

(** The same in whole loads: the environment sets the nested value to 101 and
    the flag is left at its default 1. Under the dot the environment's value
    stays; under the colon the default replaces it. *)
Example unset_default_under_other_delimiter :
  let f : pflag.FlagSet := <["nested.nestedvalue" := Fixture.intFlag 1 false]> ∅ in
  let vars := [("TEST_NESTED_NESTEDVALUE", "101")] in
  goconfig.Load vars {| goconfig.prefix := "TEST_"; goconfig.delimiter := "." |} f
    (Fixture.testConfig 0 0 0 0)
  = ([], Loaded (Fixture.testConfig 0 0 0 101))
  /\ goconfig.Load vars {| goconfig.prefix := "TEST_"; goconfig.delimiter := ":" |} f
       (Fixture.testConfig 0 0 0 0)
     = ([], Loaded (Fixture.testConfig 0 0 0 1)).
Proof. split; vm_compute; reflexivity. Qed.

(** ** Values that do not decode *)

Section DecodeFailure.
Context `{Externals}.

Lemma materialize_decode_fails {E : Type} (err : E) (k : koanf.Koanf) (cfg : koanf.target)
    (P : keypath) (cur raw : value) :
  koanf.confMap k !! P = Some raw ->
  (P, cur) ∈ cfg ->
  decodeField cur raw = None ->
  materialize err k cfg = Failed err.
Proof.
  intros Hraw Hin Hdec. unfold materialize.
  destruct (koanf.Unmarshal k cfg) as [cfg'|] eqn:Hu; [|reflexivity].
  apply list_elem_of_lookup in Hin as [i Hi].
  destruct (Unmarshal_field k cfg cfg' i P cur raw Hu Hi Hraw) as (v & Hv & _).
  congruence.
Qed.

Lemma goconfig_set_flag_lookup (k1 : koanf.Koanf) (f : pflag.FlagSet) (fn : string)
    (fl : pflag.Flag) :
  maps.conflictFree (maps.keyPaths "." f) ->
  f !! fn = Some fl -> pflag.Changed fl = true -> fn <> "" ->
  maps.Unflatten (map_imap (posflag.visit k1) f) "." !! maps.keyPath "." fn
  = Some (pflag.Value fl).
Proof.
  intros Hf Hfl Hch Hfn. rewrite (posflag_lookup k1 f "." ""), Hfl by exact Hf.
  cbn. unfold posflag.visit.
  destruct (String.eqb_spec fn ""); [contradiction|]. now rewrite Hch.
Qed.

End DecodeFailure.

(** X11. A kept environment variable whose value does not decode into the
    field tagged with its key path fails the load with the unmarshal error, in
    both engines, after the files were read. (No flag is defined at, above or
    below the path.) *)
Theorem undecodable_variable_fails `{Externals} :
  (forall (vars : list os.envVar) (p : string) (d : ascii) (f : pflag.FlagSet)
      (cfg : koanf.target) (reads : list string) (k0 : koanf.Koanf)
      (key v : string) (P : keypath) (cur : value),
     let c := {| goconfig.prefix := p; goconfig.delimiter := String d EmptyString |} in
     goconfig.fileStep (koanf.New (goconfig.delimiter c)) f = (reads, inl k0) ->
     maps.conflictFree (envPaths p (goconfig.updateEnv c) (String d EmptyString) vars) ->
     envSets p (goconfig.updateEnv c) vars key v ->
     maps.keyPath (String d EmptyString) key = P ->
     maps.conflictFree (maps.keyPaths "." f) -> flagsClearOf "." f P ->
     (P, cur) ∈ cfg -> decodeField cur (VString v) = None ->
     goconfig.Load vars c f cfg = (reads, Failed goconfig.LoadUnmarshalError))
  /\
  (forall (vars : list os.envVar) (p : string) (d : ascii) (f : flag.FlagSet)
      (cfg : koanf.target) (reads : list string) (k0 : koanf.Koanf)
      (key v : string) (P : keypath) (cur : value),
     let c := {| cfgloader.prefix := p; cfgloader.delimiter := String d EmptyString |} in
     cfgloader.fileStep (koanf.New (cfgloader.delimiter c)) f = (reads, inl k0) ->
     maps.conflictFree (envPaths p (cfgloader.updateEnv c) (String d EmptyString) vars) ->
     envSets p (cfgloader.updateEnv c) vars key v ->
     maps.keyPath (String d EmptyString) key = P ->
     maps.conflictFree (maps.keyPaths (String d EmptyString) f) ->
     flagsClearOf (String d EmptyString) f P ->
     (P, cur) ∈ cfg -> decodeField cur (VString v) = None ->
     cfgloader.Load vars c cfg f = (reads, Failed cfgloader.LoadUnmarshalError)).
Proof.
  split.
  - intros vars p d f cfg reads k0 key v P cur c Hfile Hefree Henv Hkey Hffree Hclear Hin Hdec.
    rewrite (goconfig_Load_merged vars c f cfg reads k0 Hfile). f_equal.
    apply (materialize_decode_fails _ _ _ P cur (VString v)); [|exact Hin|exact Hdec].
    rewrite merge_lookup_old by (apply posflag_clear; assumption).
    apply merge_lookup_new. rewrite <- Hkey. apply env_lookup_sets; assumption.
  - intros vars p d f cfg reads k0 key v P cur c Hfile Hefree Henv Hkey Hffree Hclear Hin Hdec.
    rewrite (cfgloader_Load_merged vars c f cfg reads k0 Hfile). f_equal.
    apply (materialize_decode_fails _ _ _ P cur (VString v)); [|exact Hin|exact Hdec].
    rewrite merge_lookup_old by (apply basicflag_clear; assumption).
    apply merge_lookup_new. rewrite <- Hkey. apply env_lookup_sets; assumption.
Qed.

Lemma undecodable_variable_fails_witness :
  let vars := [("TEST_VALUE1", "abc")] in
  let cfg := Fixture.testConfig 0 0 0 0 in
  goconfig.Load vars {| goconfig.prefix := "TEST_"; goconfig.delimiter := "." |}
    (<["value2" := Fixture.intFlag 2 false]> ∅) cfg
  = ([], Failed goconfig.LoadUnmarshalError)
  /\ cfgloader.Load vars {| cfgloader.prefix := "TEST_"; cfgloader.delimiter := "." |} cfg
       (<["value2" := Fixture.stringFlag "2" false]> ∅)
     = ([], Failed cfgloader.LoadUnmarshalError).
Proof.
  intros vars cfg.
  destruct (undecodable_variable_fails (H := Fixture.world)) as [Hg Hc].
  split.
  - apply (Hg vars "TEST_" "."%char _ cfg [] (koanf.New ".") "value1" "abc"
             ["value1"] (VInt 0)).
    + reflexivity.
    + by_evaluation.
    + split; [discriminate|].
      exists [], "TEST_VALUE1", []. repeat split; constructor.
    + reflexivity.
    + by_evaluation.
    + intros fn [x Hx]. apply lookup_insert_Some in Hx as [[<- _]|[_ Hx]].
      * intros [[l Hl]|[l Hl]]; discriminate.
      * rewrite lookup_empty in Hx. discriminate.
    + apply list_elem_of_here.
    + reflexivity.
  - apply (Hc vars "TEST_" "."%char _ cfg [] (koanf.New ".") "value1" "abc"
             ["value1"] (VInt 0)).
    + reflexivity.
    + by_evaluation.
    + split; [discriminate|].
      exists [], "TEST_VALUE1", []. repeat split; constructor.
    + reflexivity.
    + by_evaluation.
    + intros fn [x Hx]. apply lookup_insert_Some in Hx as [[<- _]|[_ Hx]].
      * intros [[l Hl]|[l Hl]]; discriminate.
      * rewrite lookup_empty in Hx. discriminate.
    + apply list_elem_of_here.
    + reflexivity.
Defined.

(** X12. A flag whose value does not decode into the field tagged with the
    path its name spells fails the load with the unmarshal error: in the
    current engine when the flag was set on the command line, in the legacy
    engine whenever the flag is defined. *)
Theorem undecodable_flag_fails `{Externals} :
  (forall (vars : list os.envVar) (c : goconfig.Config) (f : pflag.FlagSet)
      (cfg : koanf.target) (reads : list string) (k0 : koanf.Koanf)
      (fn : string) (fl : pflag.Flag) (cur : value),
     goconfig.fileStep (koanf.New (goconfig.delimiter c)) f = (reads, inl k0) ->
     maps.conflictFree (maps.keyPaths "." f) ->
     f !! fn = Some fl -> pflag.Changed fl = true -> fn <> "" ->
     (maps.keyPath "." fn, cur) ∈ cfg -> decodeField cur (pflag.Value fl) = None ->
     goconfig.Load vars c f cfg = (reads, Failed goconfig.LoadUnmarshalError))
  /\
  (forall (vars : list os.envVar) (p : string) (d : ascii) (f : flag.FlagSet)
      (cfg : koanf.target) (reads : list string) (k0 : koanf.Koanf)
      (fn : string) (fl : flag.Flag) (cur : value),
     let c := {| cfgloader.prefix := p; cfgloader.delimiter := String d EmptyString |} in
     cfgloader.fileStep (koanf.New (cfgloader.delimiter c)) f = (reads, inl k0) ->
     maps.conflictFree (maps.keyPaths (String d EmptyString) f) ->
     f !! fn = Some fl ->
     (maps.keyPath (String d EmptyString) fn, cur) ∈ cfg ->
     decodeField cur (VString (flag.ValueString fl)) = None ->
     cfgloader.Load vars c cfg f = (reads, Failed cfgloader.LoadUnmarshalError)).
Proof.
  split.
  - intros vars c f cfg reads k0 fn fl cur Hfile Hffree Hfl Hch Hfn Hin Hdec.
    rewrite (goconfig_Load_merged vars c f cfg reads k0 Hfile). f_equal.
    apply (materialize_decode_fails _ _ _ (maps.keyPath "." fn) cur (pflag.Value fl));
      [|exact Hin|exact Hdec].
    apply merge_lookup_new. now apply goconfig_set_flag_lookup.
  - intros vars p d f cfg reads k0 fn fl cur c Hfile Hffree Hfl Hin Hdec.
    rewrite (cfgloader_Load_merged vars c f cfg reads k0 Hfile). f_equal.
    apply (materialize_decode_fails _ _ _ (maps.keyPath (String d EmptyString) fn) cur
             (VString (flag.ValueString fl))); [|exact Hin|exact Hdec].
    apply merge_lookup_new. cbn [cfgloader.delimiter c].
    rewrite basicflag_lookup, Hfl by exact Hffree. reflexivity.
Qed.

Lemma undecodable_flag_fails_witness :
  let cfg := Fixture.testConfig 0 0 0 0 in
  goconfig.Load [] {| goconfig.prefix := "TEST_"; goconfig.delimiter := "." |}
    (<["value1" := {| pflag.Value := VString "abc"; pflag.Changed := true |}]> ∅) cfg
  = ([], Failed goconfig.LoadUnmarshalError)
  /\ cfgloader.Load [] {| cfgloader.prefix := "TEST_"; cfgloader.delimiter := "." |} cfg
       (<["value1" := Fixture.stringFlag "abc" false]> ∅)
     = ([], Failed cfgloader.LoadUnmarshalError).
Proof.
  intros cfg.
  destruct (undecodable_flag_fails (H := Fixture.world)) as [Hg Hc].
  split.
  - apply (Hg [] _ _ cfg [] (koanf.New ".") "value1"
             {| pflag.Value := VString "abc"; pflag.Changed := true |} (VInt 0));
      [reflexivity|by_evaluation|reflexivity|reflexivity|discriminate
      |apply list_elem_of_here|reflexivity].
  - apply (Hc [] "TEST_" "."%char _ cfg [] (koanf.New ".") "value1"
             (Fixture.stringFlag "abc" false) (VInt 0));
      [reflexivity|by_evaluation|reflexivity|apply list_elem_of_here|reflexivity].
Defined.

(** ** Fields that no source names *)

Section UnnamedField.
Context `{Externals}.

Lemma Unmarshal_keeps (k : koanf.Koanf) (cfg cfg' : koanf.target) (i : nat)
    (P : keypath) (cur : value) :
  koanf.Unmarshal k cfg = Some cfg' ->
  cfg !! i = Some (P, cur) ->
  (forall Q, is_Some (koanf.confMap k !! Q) -> ~ koanf.looseMatch P Q) ->
  cfg' !! i = Some (P, cur).
Proof.
  intros Hu Hi Hno. unfold koanf.Unmarshal in Hu. apply mapM_Some_1 in Hu.
  destruct (Forall2_lookup_l _ _ _ _ _ Hu Hi) as (y & Hy & Hf).
  unfold koanf.unmarshalField in Hf. cbn [fst] in Hf.
  destruct (koanf.confMap k !! P) eqn:Hl.
  - exfalso. apply (Hno P); [eauto|apply looseMatch_refl].
  - rewrite decide_True in Hf by (intros Q x HQ; apply Hno; eauto).
    injection Hf as <-. exact Hy.
Qed.

Lemma Unflatten_unmatched (mp : gmap string value) (a : ascii) (sep : string)
    (P : keypath) (l : list keypath) :
  maps.conflictFree (maps.keyPaths (String a sep) mp) ->
  (forall k, is_Some (mp !! k) -> maps.keyPath (String a sep) k ∈ l) ->
  unmatched P l ->
  forall Q, is_Some (maps.Unflatten mp (String a sep) !! Q) -> ~ koanf.looseMatch P Q.
Proof.
  intros Hf Hsub Hun Q [x Hx].
  apply Unflatten_lookup_Some in Hx as (k & <- & Hk); [|exact Hf].
  unfold unmatched in Hun. rewrite Forall_forall in Hun. apply Hun, Hsub. eauto.
Qed.

Lemma merge_unmatched (k : koanf.Koanf) (mp : confmap) (P : keypath) :
  (forall Q, is_Some (mp !! Q) -> ~ koanf.looseMatch P Q) ->
  (forall Q, is_Some (koanf.confMap k !! Q) -> ~ koanf.looseMatch P Q) ->
  forall Q, is_Some (koanf.confMap (koanf.merge k mp) !! Q) -> ~ koanf.looseMatch P Q.
Proof. intros Hmp Hk Q HQ. apply merge_lookup_inv in HQ as [HQ|HQ]; auto. Qed.

Lemma env_unmatched (prefix : string) (cb : string -> string) (vars : list os.envVar)
    (a : ascii) (sep : string) (P : keypath) :
  maps.conflictFree (envPaths prefix cb (String a sep) vars) ->
  unmatched P (envPaths prefix cb (String a sep) vars) ->
  forall Q, is_Some (maps.Unflatten (env.flat prefix cb (os.Environ vars)) (String a sep) !! Q) ->
            ~ koanf.looseMatch P Q.
Proof.
  intros Hf Hun. eapply Unflatten_unmatched; [apply envPaths_free_flat; exact Hf| |exact Hun].
  intros key [x Hx]. eapply elem_of_envPaths. exact Hx.
Qed.

End UnnamedField.

(** X13. A field of the target that nothing names keeps the value the caller
    gave it, in both engines: when no key of the files, no kept environment
    variable and no defined flag matches the field's path, not even loosely,
    a load that succeeds returns the field as it was. *)
Theorem unnamed_field_keeps_its_value `{Externals} :
  (forall (vars : list os.envVar) (p : string) (d : ascii) (f : pflag.FlagSet)
      (cfg cfg' : koanf.target) (reads : list string) (k0 : koanf.Koanf)
      (i : nat) (P : keypath) (cur : value),
     let c := {| goconfig.prefix := p; goconfig.delimiter := String d EmptyString |} in
     goconfig.fileStep (koanf.New (goconfig.delimiter c)) f = (reads, inl k0) ->
     (forall Q, is_Some (koanf.confMap k0 !! Q) -> ~ koanf.looseMatch P Q) ->
     maps.conflictFree (envPaths p (goconfig.updateEnv c) (String d EmptyString) vars) ->
     unmatched P (envPaths p (goconfig.updateEnv c) (String d EmptyString) vars) ->
     maps.conflictFree (maps.keyPaths "." f) ->
     unmatched P (maps.keyPaths "." f) ->
     cfg !! i = Some (P, cur) ->
     (goconfig.Load vars c f cfg).2 = Loaded cfg' ->
     cfg' !! i = Some (P, cur))
  /\
  (forall (vars : list os.envVar) (p : string) (d : ascii) (f : flag.FlagSet)
      (cfg cfg' : koanf.target) (reads : list string) (k0 : koanf.Koanf)
      (i : nat) (P : keypath) (cur : value),
     let c := {| cfgloader.prefix := p; cfgloader.delimiter := String d EmptyString |} in
     cfgloader.fileStep (koanf.New (cfgloader.delimiter c)) f = (reads, inl k0) ->
     (forall Q, is_Some (koanf.confMap k0 !! Q) -> ~ koanf.looseMatch P Q) ->
     maps.conflictFree (envPaths p (cfgloader.updateEnv c) (String d EmptyString) vars) ->
     unmatched P (envPaths p (cfgloader.updateEnv c) (String d EmptyString) vars) ->
     maps.conflictFree (maps.keyPaths (String d EmptyString) f) ->
     unmatched P (maps.keyPaths (String d EmptyString) f) ->
     cfg !! i = Some (P, cur) ->
     (cfgloader.Load vars c cfg f).2 = Loaded cfg' ->
     cfg' !! i = Some (P, cur)).
Proof.
  split.
  - intros vars p d f cfg cfg' reads k0 i P cur c Hfile Hk0 Hefree Henv Hffree Hflags Hi Hout.
    rewrite (goconfig_Load_merged vars c f cfg reads k0 Hfile) in Hout. cbn [snd] in Hout.
    unfold materialize in Hout.
    destruct (koanf.Unmarshal _ cfg) as [cfg1|] eqn:Hu; [|discriminate].
    injection Hout as ->.
    eapply Unmarshal_keeps; [exact Hu|exact Hi|].
    apply merge_unmatched; [|apply merge_unmatched; [|exact Hk0]].
    + eapply (Unflatten_unmatched _ "." ""); [apply posflag_free; exact Hffree| |exact Hflags].
      intros k [x Hx]. rewrite map_lookup_imap in Hx.
      apply elem_of_keyPaths. exists k. split; [|reflexivity].
      destruct (f !! k); [eauto|discriminate].
    + apply env_unmatched; assumption.
  - intros vars p d f cfg cfg' reads k0 i P cur c Hfile Hk0 Hefree Henv Hffree Hflags Hi Hout.
    rewrite (cfgloader_Load_merged vars c f cfg reads k0 Hfile) in Hout. cbn [snd] in Hout.
    unfold materialize in Hout.
    destruct (koanf.Unmarshal _ cfg) as [cfg1|] eqn:Hu; [|discriminate].
    injection Hout as ->.
    eapply Unmarshal_keeps; [exact Hu|exact Hi|].
    apply merge_unmatched; [|apply merge_unmatched; [|exact Hk0]].
    + eapply (Unflatten_unmatched _ d ""); [apply basicflag_free; exact Hffree| |exact Hflags].
      intros k [x Hx]. rewrite lookup_fmap in Hx.
      apply elem_of_keyPaths. exists k. split; [|reflexivity].
      destruct (f !! k); [eauto|discriminate].
    + apply env_unmatched; assumption.
Qed.

Lemma unnamed_field_keeps_its_value_witness :
  let vars := [("HOME", "/root"); ("TEST_VALUE1", "7")] in
  let c := {| goconfig.prefix := "TEST_"; goconfig.delimiter := "." |} in
  let f : pflag.FlagSet := <["value3" := Fixture.intFlag 9 true]> ∅ in
  let c' := {| cfgloader.prefix := "TEST_"; cfgloader.delimiter := "." |} in
  let f' : flag.FlagSet := <["value3" := Fixture.stringFlag "9" true]> ∅ in
  let cfg := Fixture.testConfig 0 5 0 0 in
  ((goconfig.Load vars c f cfg).2 = Loaded (Fixture.testConfig 7 5 9 0)
   /\ Fixture.testConfig 7 5 9 0 !! 1%nat = Some (["value2"], VInt 5))
  /\ ((cfgloader.Load vars c' cfg f').2 = Loaded (Fixture.testConfig 7 5 9 0)
      /\ Fixture.testConfig 7 5 9 0 !! 1%nat = Some (["value2"], VInt 5)).
Proof.
  intros vars c f c' f' cfg.
  destruct (unnamed_field_keeps_its_value (H := Fixture.world)) as [Hg Hc].
  assert (Hnone : forall Q : keypath,
            is_Some (koanf.confMap (koanf.New ".") !! Q) ->
            ~ koanf.looseMatch ["value2"] Q).
  { intros Q [x Hx]. cbn in Hx. rewrite lookup_empty in Hx. discriminate. }
  split; (split; [vm_compute; reflexivity|]).
  - apply (Hg vars "TEST_" "."%char f cfg (Fixture.testConfig 7 5 9 0) []
             (koanf.New ".") 1%nat ["value2"] (VInt 5));
      [reflexivity|exact Hnone|by_evaluation|unfold unmatched; by_evaluation
      |by_evaluation|unfold unmatched; by_evaluation|reflexivity|vm_compute; reflexivity].
  - apply (Hc vars "TEST_" "."%char f' cfg (Fixture.testConfig 7 5 9 0) []
             (koanf.New ".") 1%nat ["value2"] (VInt 5));
      [reflexivity|exact Hnone|by_evaluation|unfold unmatched; by_evaluation
      |by_evaluation|unfold unmatched; by_evaluation|reflexivity|vm_compute; reflexivity].
Defined.

(** * Precedence, defaults and the agreement of the engines *)

(** ** What a load holds at a key path *)

Section HoldsAt.
Context `{Externals}.

Lemma holdsAt_materialize {E : Type} (err : E) (k : koanf.Koanf) (P : keypath)
    (raw : value) :
  koanf.confMap k !! P = Some raw ->
  holdsAt err (materialize err k) P raw.
Proof.
  intros Hraw. split; [|split].
  - intros cfg cfg' i cur Hi Hout. unfold materialize in Hout.
    destruct (koanf.Unmarshal k cfg) as [c1|] eqn:Hu; [|discriminate].
    injection Hout as ->. eapply Unmarshal_field; eauto.
  - intros cfg cur Hin Hdec. eapply materialize_decode_fails; eauto.
  - intros cur v Hdec. unfold materialize, koanf.Unmarshal, koanf.unmarshalField.
    cbn. rewrite Hraw, Hdec. reflexivity.
Qed.

Lemma holdsAt_ext {E : Type} (err : E) (load load' : koanf.target -> outcome E)
    (P : keypath) (raw : value) :
  (forall cfg, load cfg = load' cfg) ->
  holdsAt err load' P raw -> holdsAt err load P raw.
Proof.
  intros Hext (H1 & H2 & H3). split; [|split].
  - intros cfg cfg' i cur Hi Hout. rewrite Hext in Hout. eauto.
  - intros cfg cur Hin Hdec. rewrite Hext. eauto.
  - intros cur v Hdec. rewrite Hext. eauto.
Qed.

(** The store after the files, the environment and the flags, in each
    engine. *)
Lemma goconfig_holdsAt (vars : list os.envVar) (c : goconfig.Config)
    (f : pflag.FlagSet) (reads : list string) (k0 : koanf.Koanf) (P : keypath)
    (raw : value) :
  goconfig.fileStep (koanf.New (goconfig.delimiter c)) f = (reads, inl k0) ->
  (let k1 := koanf.merge k0
     (maps.Unflatten (env.flat (goconfig.prefix c) (goconfig.updateEnv c) (os.Environ vars))
        (goconfig.delimiter c)) in
   koanf.confMap (koanf.merge k1 (maps.Unflatten (map_imap (posflag.visit k1) f) ".")) !! P
   = Some raw) ->
  holdsAt goconfig.LoadUnmarshalError (fun cfg => (goconfig.Load vars c f cfg).2) P raw.
Proof.
  intros Hfile Hraw. eapply holdsAt_ext; [|apply holdsAt_materialize; exact Hraw].
  intros cfg. now rewrite (goconfig_Load_merged vars c f cfg reads k0 Hfile).
Qed.

Lemma cfgloader_holdsAt (vars : list os.envVar) (c : cfgloader.Config)
    (f : flag.FlagSet) (reads : list string) (k0 : koanf.Koanf) (P : keypath)
    (raw : value) :
  cfgloader.fileStep (koanf.New (cfgloader.delimiter c)) f = (reads, inl k0) ->
  (let k1 := koanf.merge k0
     (maps.Unflatten (env.flat (cfgloader.prefix c) (cfgloader.updateEnv c) (os.Environ vars))
        (cfgloader.delimiter c)) in
   koanf.confMap
     (koanf.merge k1
        (maps.Unflatten ((fun fl => VString (flag.ValueString fl)) <$> f)
           (cfgloader.delimiter c))) !! P
   = Some raw) ->
  holdsAt cfgloader.LoadUnmarshalError (fun cfg => (cfgloader.Load vars c cfg f).2) P raw.
Proof.
  intros Hfile Hraw. eapply holdsAt_ext; [|apply holdsAt_materialize; exact Hraw].
  intros cfg. now rewrite (cfgloader_Load_merged vars c f cfg reads k0 Hfile).
Qed.

End HoldsAt.

(** ** Names the store knows *)

Section KnownNames.
Context `{Externals}.
Import split.

(** A string that does not hold the delimiter is a path of one part. *)
Lemma Split_noByte (d : ascii) (s : string) :
  noByte d s = true -> Split s (String d EmptyString) = [s].
Proof.
  induction s as [|c s IH]; intros Hs; [reflexivity|].
  unfold noByte in Hs. cbn [strings.all_bytes] in Hs. apply andb_prop in Hs as [Hc Hs].
  apply negb_true_iff in Hc. rewrite Split_cons_ne.
  - rewrite IH by exact Hs. reflexivity.
  - intros ->. rewrite Ascii.eqb_refl in Hc. discriminate.
Qed.

(** The store knows every partial path of each of its leaves, joined with
    its delimiter. *)
Lemma Exists_partial (ko : koanf.Koanf) (P q : keypath) (v : value) :
  koanf.confMap ko !! P = Some v -> In q (koanf.keyParts P) ->
  koanf.Exists ko (Join q (koanf.delim ko)) = true.
Proof.
  intros Hv Hq. unfold koanf.Exists. apply bool_decide_eq_true.
  unfold koanf.keyMap. apply elem_of_list_to_set, list_elem_of_In, in_flat_map.
  exists (P, v). split.
  - apply list_elem_of_In, elem_of_map_to_list. exact Hv.
  - cbn [fst]. apply in_map_iff. exists q. split; [reflexivity|exact Hq].
Qed.

(** A store that holds a leaf at the path a flag's name spells under the dot
    knows the name, when its delimiter is the dot or the name holds no dot. *)
Lemma Exists_flag_name (ko : koanf.Koanf) (fn : string) (v : value) :
  koanf.delim ko = "." \/ noByte "." fn = true ->
  koanf.confMap ko !! maps.keyPath "." fn = Some v ->
  koanf.Exists ko fn = true.
Proof.
  intros [Hd|Hfn] Hv.
  - apply (Exists_leaf ko "." "" fn v Hd Hv).
  - unfold maps.keyPath in Hv. rewrite (Split_noByte "." fn Hfn) in Hv.
    apply (Exists_partial ko [fn] [fn] v Hv). left. reflexivity.
Qed.






(** What the flag step of the current engine leaves at the path of a defined
    flag. *)
Lemma goconfig_flag_lookup (k1 : koanf.Koanf) (f : pflag.FlagSet) (fn : string)
    (fl : pflag.Flag) :
  maps.conflictFree (maps.keyPaths "." f) ->
  f !! fn = Some fl -> fn <> "" ->
  koanf.confMap (koanf.merge k1 (maps.Unflatten (map_imap (posflag.visit k1) f) "."))
    !! maps.keyPath "." fn
  = if pflag.Changed fl || negb (koanf.Exists k1 fn)
    then Some (pflag.Value fl)
    else koanf.confMap k1 !! maps.keyPath "." fn.
Proof.
  intros Hf Hfl Hfn.
  destruct (goconfig_flag_step k1 f fn fl Hf Hfl Hfn) as (k2 & Hk2 & Hl).
  unfold koanf_Load, posflag.Provider in Hk2. cbn in Hk2. injection Hk2 as <-. exact Hl.
Qed.

End KnownNames.

(** ** Overlay order *)

Section OverlayOrder.
Context `{Externals}.




End OverlayOrder.




(** ** What the flag step writes *)

(** C2 (as the code has it). In the current engine the flag step writes a
    defined flag's value at the path its name spells under the dot when the
    flag was set on the command line or the store does not know its name, and
    leaves the store as it was at that path otherwise. A store that holds a
    value at that path knows the name when its delimiter is the dot or the
    name holds no dot: there the default of an unset flag leaves the value in
    place. Under a one-byte delimiter other than the dot, a store whose keys
    hold no dot does not know a name that holds one: there the default is
    written over the value. In the legacy engine the flag step writes every
    defined flag, set or not, as the string its value prints to, at the path
    its name spells under the configured delimiter, over whatever the store
    held. (No flag name leads through another; the current engine skips a
    flag whose name is empty.) *)
Theorem flag_step_writes `{Externals} :
  (forall (k1 : koanf.Koanf) (f : pflag.FlagSet) (fn : string) (fl : pflag.Flag),
     maps.conflictFree (maps.keyPaths "." f) ->
     f !! fn = Some fl -> fn <> "" ->
     exists k2, koanf_Load k1 (posflag.Provider f "." k1) = Some k2
       /\ koanf.confMap k2 !! maps.keyPath "." fn
          = if pflag.Changed fl || negb (koanf.Exists k1 fn)
            then Some (pflag.Value fl)
            else koanf.confMap k1 !! maps.keyPath "." fn)
  /\
  (forall (k1 : koanf.Koanf) (f : pflag.FlagSet) (fn : string) (fl : pflag.Flag) (v : value),
     maps.conflictFree (maps.keyPaths "." f) ->
     f !! fn = Some fl -> fn <> "" -> pflag.Changed fl = false ->
     koanf.delim k1 = "." \/ noByte "." fn = true ->
     koanf.confMap k1 !! maps.keyPath "." fn = Some v ->
     exists k2, koanf_Load k1 (posflag.Provider f "." k1) = Some k2
       /\ koanf.confMap k2 !! maps.keyPath "." fn = Some v)
  /\
  (forall (k1 : koanf.Koanf) (d : ascii) (f : pflag.FlagSet) (fn : string) (fl : pflag.Flag),
     maps.conflictFree (maps.keyPaths "." f) ->
     f !! fn = Some fl ->
     koanf.delim k1 = String d EmptyString -> d <> "."%char ->
     map_Forall (fun P _ => segmentsFree "." P) (koanf.confMap k1) ->
     noByte "." fn = false ->
     exists k2, koanf_Load k1 (posflag.Provider f "." k1) = Some k2
       /\ koanf.confMap k2 !! maps.keyPath "." fn = Some (pflag.Value fl))
  /\
  (forall (k1 : koanf.Koanf) (d : ascii) (f : flag.FlagSet) (fn : string) (fl : flag.Flag),
     maps.conflictFree (maps.keyPaths (String d EmptyString) f) ->
     f !! fn = Some fl ->
     exists k2, koanf_Load k1 (basicflag.Provider f (String d EmptyString)) = Some k2
       /\ koanf.confMap k2 !! maps.keyPath (String d EmptyString) fn
          = Some (VString (flag.ValueString fl))).
Proof.
  split; [|split; [|split]].
  - intros. now apply goconfig_flag_step.
  - intros k1 f fn fl v Hf Hfl Hfn Hch Hd Hv.
    destruct (goconfig_flag_step k1 f fn fl Hf Hfl Hfn) as (k2 & Hk2 & Hl).
    exists k2. split; [exact Hk2|].
    rewrite Hl, Hch, (Exists_flag_name k1 fn v Hd Hv). exact Hv.
  - intros k1 d f fn fl Hf Hfl Hd Hne Hst Hdot.
    assert (Hfn : fn <> EmptyString) by (intros ->; discriminate).
    destruct (goconfig_flag_step k1 f fn fl Hf Hfl Hfn) as (k2 & Hk2 & Hl).
    exists k2. split; [exact Hk2|].
    rewrite Hl, (Exists_other_byte k1 "." fn), orb_true_r; [reflexivity| |exact Hst|exact Hdot].
    rewrite Hd. cbn. destruct (Ascii.eqb_spec d "."); [contradiction|reflexivity].
  - intros k1 d f fn fl Hf Hfl. eexists. split; [reflexivity|].
    apply merge_lookup_new. rewrite basicflag_lookup, Hfl by exact Hf. reflexivity.
Qed.

Lemma flag_step_writes_witness :
  let k1 := koanf.merge (koanf.New ".") (<[ ["value1"] := VString "102" ]> ∅) in
  let kc := koanf.merge (koanf.New ":")
              (<[ ["nested"; "nestedvalue"] := VString "102" ]> (<[ ["value1"] := VString "102" ]> ∅)) in
  let f : pflag.FlagSet :=
    <["value1" := Fixture.intFlag 1 false]>
      (<["value2" := Fixture.intFlag 2 false]>
         (<["nested.nestedvalue" := Fixture.intFlag 3 false]> ∅)) in
  let f' : flag.FlagSet := <["value1" := Fixture.stringFlag "1" false]> ∅ in
  (exists k2, koanf_Load k1 (posflag.Provider f "." k1) = Some k2
     /\ koanf.confMap k2 !! ["value2"] = Some (VInt 2))
  /\ (exists k2, koanf_Load k1 (posflag.Provider f "." k1) = Some k2
        /\ koanf.confMap k2 !! ["value1"] = Some (VString "102"))
  /\ (exists k2, koanf_Load kc (posflag.Provider f "." kc) = Some k2
        /\ koanf.confMap k2 !! ["value1"] = Some (VString "102"))
  /\ (exists k2, koanf_Load kc (posflag.Provider f "." kc) = Some k2
        /\ koanf.confMap k2 !! ["nested"; "nestedvalue"] = Some (VInt 3))
  /\ (exists k2, koanf_Load k1 (basicflag.Provider f' ".") = Some k2
        /\ koanf.confMap k2 !! ["value1"] = Some (VString "1")).
Proof.
  intros k1 kc f f'.
  destruct (flag_step_writes (H := Fixture.world)) as (Hset & Hkeep & Hdotted & Hlegacy).
  split; [|split; [|split; [|split]]].
  - apply (Hset k1 f "value2" (Fixture.intFlag 2 false));
      [by_evaluation|reflexivity|discriminate].
  - apply (Hkeep k1 f "value1" (Fixture.intFlag 1 false) (VString "102"));
      [by_evaluation|reflexivity|discriminate|reflexivity|left; reflexivity|].
    vm_compute; reflexivity.
  - apply (Hkeep kc f "value1" (Fixture.intFlag 1 false) (VString "102"));
      [by_evaluation|reflexivity|discriminate|reflexivity|right; reflexivity|].
    vm_compute; reflexivity.
  - apply (Hdotted kc ":"%char f "nested.nestedvalue" (Fixture.intFlag 3 false));
      [by_evaluation|reflexivity|reflexivity|discriminate|by_evaluation|reflexivity].
  - apply (Hlegacy k1 "."%char f' "value1" (Fixture.stringFlag "1" false));
      [by_evaluation|reflexivity].
Defined.

(** ** Errors of the flag collaborator *)



(** ** A load with no file and no variable *)

Section Defaults.
Context `{Externals}.

Lemma Exists_New (d fn : string) : koanf.Exists (koanf.New d) fn = false.
Proof.
  unfold koanf.Exists, koanf.keyMap, koanf.New. cbn [koanf.confMap].
  rewrite map_to_list_empty. cbn. apply bool_decide_eq_false. apply not_elem_of_empty.
Qed.

(** The fields of a target that a store leaves as they are. *)
Lemma Unmarshal_same (k : koanf.Koanf) (cfg : koanf.target) :
  Forall (fun fld =>
            (forall Q, is_Some (koanf.confMap k !! Q) -> ~ koanf.looseMatch fld.1 Q)
            \/ exists raw, koanf.confMap k !! fld.1 = Some raw
                           /\ decodeField fld.2 raw = Some fld.2) cfg ->
  koanf.Unmarshal k cfg = Some cfg.
Proof.
  intros Hc. apply mapM_Some_2. apply Forall_Forall2_diag.
  eapply Forall_impl; [exact Hc|]. intros [P cur] Hf. cbn [fst snd] in Hf.
  unfold koanf.unmarshalField. cbn [fst snd].
  destruct Hf as [Hno|(raw & Hraw & Hdec)].
  - destruct (koanf.confMap k !! P) eqn:Hl.
    + exfalso. apply (Hno P); [eauto|apply looseMatch_refl].
    + rewrite decide_True; [reflexivity|]. intros Q x HQ. apply Hno. eauto.
  - rewrite Hraw, Hdec. reflexivity.
Qed.

Lemma goconfig_fileStep_empty (dl : string) (f : pflag.FlagSet) :
  match f !! goconfig.FileArgName with
  | None => True
  | Some fl => exists ss, pflag.Value fl = VStrings ss /\ filesEmpty ss
  end ->
  exists reads, goconfig.fileStep (koanf.New dl) f = (reads, inl (koanf.New dl)).
Proof.
  intros Hfiles. unfold goconfig.fileStep, pflag.Lookup, pflag.GetStringSlice.
  destruct (f !! goconfig.FileArgName) as [[v ch]|]; [|eauto].
  destruct Hfiles as (ss & Hv & Hss). cbn in Hv. subst v.
  exists ss. now apply goconfig_loadFiles_empty.
Qed.

Lemma cfgloader_fileStep_empty (dl : string) (f : flag.FlagSet) :
  match f !! cfgloader.FileArgName with
  | None => True
  | Some fl => exists ss, flag.asStringSlice fl = Some ss /\ filesEmpty ss
  end ->
  exists reads, cfgloader.fileStep (koanf.New dl) f = (reads, inl (koanf.New dl)).
Proof.
  intros Hfiles. unfold cfgloader.fileStep, flag.Lookup.
  destruct (f !! cfgloader.FileArgName) as [fl|]; [|eauto].
  destruct Hfiles as (ss & Hv & Hss). rewrite Hv.
  exists ss. now apply cfgloader_loadFiles_empty.
Qed.

(** With no file and no kept variable, the store of the current engine after
    the flag step holds the value of every defined flag, and nothing else. *)
Lemma goconfig_defaults_store (p : string) (d : ascii) (vars : list os.envVar)
    (f : pflag.FlagSet) :
  let c := {| goconfig.prefix := p; goconfig.delimiter := String d EmptyString |} in
  let k1 := koanf.merge (koanf.New (String d EmptyString))
              (maps.Unflatten (env.flat p (goconfig.updateEnv c) (os.Environ vars))
                 (String d EmptyString)) in
  let k2 := koanf.merge k1 (maps.Unflatten (map_imap (posflag.visit k1) f) ".") in
  env.keys p (os.Environ vars) = [] ->
  maps.conflictFree (maps.keyPaths "." f) ->
  (forall fn fl, f !! fn = Some fl -> fn <> "" ->
     koanf.confMap k2 !! maps.keyPath "." fn = Some (pflag.Value fl))
  /\ (forall Q, is_Some (koanf.confMap k2 !! Q) -> Q ∈ maps.keyPaths "." f).
Proof.
  intros c k1 k2 Henv Hfree.
  assert (Hk1 : k1 = koanf.New (String d EmptyString)).
  { unfold k1. rewrite (env_no_keys _ _ _ _ Henv). apply merge_empty. }
  split.
  - intros fn fl Hfl Hfn. unfold k2.
    rewrite (goconfig_flag_lookup k1 f fn fl Hfree Hfl Hfn), Hk1, Exists_New.
    now rewrite orb_true_r.
  - intros Q HQ. unfold k2 in HQ. apply merge_lookup_inv in HQ as [[x HQ]|HQ].
    + apply Unflatten_lookup_Some in HQ as (fn & <- & Hfn); [|apply posflag_free; exact Hfree].
      rewrite map_lookup_imap in Hfn. apply elem_of_keyPaths. exists fn.
      split; [|reflexivity]. destruct (f !! fn); [eauto|discriminate].
    + rewrite Hk1 in HQ. cbn in HQ. rewrite lookup_empty in HQ.
      destruct HQ as [? ?]. discriminate.
Qed.

Lemma cfgloader_defaults_store (p : string) (d : ascii) (vars : list os.envVar)
    (f : flag.FlagSet) :
  let c := {| cfgloader.prefix := p; cfgloader.delimiter := String d EmptyString |} in
  let k1 := koanf.merge (koanf.New (String d EmptyString))
              (maps.Unflatten (env.flat p (cfgloader.updateEnv c) (os.Environ vars))
                 (String d EmptyString)) in
  let k2 := koanf.merge k1
              (maps.Unflatten ((fun fl => VString (flag.ValueString fl)) <$> f)
                 (String d EmptyString)) in
  env.keys p (os.Environ vars) = [] ->
  maps.conflictFree (maps.keyPaths (String d EmptyString) f) ->
  (forall fn fl, f !! fn = Some fl ->
     koanf.confMap k2 !! maps.keyPath (String d EmptyString) fn
     = Some (VString (flag.ValueString fl)))
  /\ (forall Q, is_Some (koanf.confMap k2 !! Q) -> Q ∈ maps.keyPaths (String d EmptyString) f).
Proof.
  intros c k1 k2 Henv Hfree.
  assert (Hk1 : k1 = koanf.New (String d EmptyString)).
  { unfold k1. rewrite (env_no_keys _ _ _ _ Henv). apply merge_empty. }
  split.
  - intros fn fl Hfl. unfold k2. apply merge_lookup_new.
    rewrite basicflag_lookup, Hfl by exact Hfree. reflexivity.
  - intros Q HQ. unfold k2 in HQ. apply merge_lookup_inv in HQ as [[x HQ]|HQ].
    + apply Unflatten_lookup_Some in HQ as (fn & <- & Hfn); [|apply basicflag_free; exact Hfree].
      rewrite lookup_fmap in Hfn. apply elem_of_keyPaths. exists fn.
      split; [|reflexivity]. destruct (f !! fn); [eauto|discriminate].
    + rewrite Hk1 in HQ. cbn in HQ. rewrite lookup_empty in HQ.
      destruct HQ as [? ?]. discriminate.
Qed.

End Defaults.

(** C9 (as the code has it). In both engines, a load with no configuration
    file or only files that decode to the empty map and with no kept
    environment variable works from the defined flags alone, whose values are
    their defaults when none was passed. It succeeds and leaves the target as
    it was when each field is either matched by no defined flag's name, not
    even loosely, or tagged with the path of a defined flag whose value
    decodes to what the field holds. Otherwise the value of each defined flag
    is held at the path its name spells: a field tagged with that path
    receives it decoded, and the load fails with the unmarshal error when it
    does not decode into the field. (No flag name leads through another; the
    current engine skips a flag whose name is empty; the legacy engine writes
    the string the value prints to.) *)
Theorem load_without_input_keeps_target `{Externals} :
  (forall (vars : list os.envVar) (p : string) (d : ascii)
      (f : pflag.FlagSet) (cfg : koanf.target),
     let c := {| goconfig.prefix := p; goconfig.delimiter := String d EmptyString |} in
     match f !! goconfig.FileArgName with
     | None => True
     | Some fl => exists ss, pflag.Value fl = VStrings ss /\ filesEmpty ss
     end ->
     env.keys p (os.Environ vars) = [] ->
     maps.conflictFree (maps.keyPaths "." f) ->
     (Forall (fun fld =>
                unmatched fld.1 (maps.keyPaths "." f)
                \/ exists fn fl, f !! fn = Some fl /\ fn <> ""
                     /\ maps.keyPath "." fn = fld.1
                     /\ decodeField fld.2 (pflag.Value fl) = Some fld.2) cfg ->
      (goconfig.Load vars c f cfg).2 = Loaded cfg)
     /\ (forall fn fl, f !! fn = Some fl -> fn <> "" ->
           holdsAt goconfig.LoadUnmarshalError (fun t => (goconfig.Load vars c f t).2)
             (maps.keyPath "." fn) (pflag.Value fl)))
  /\
  (forall (vars : list os.envVar) (p : string) (d : ascii)
      (f : flag.FlagSet) (cfg : koanf.target),
     let c := {| cfgloader.prefix := p; cfgloader.delimiter := String d EmptyString |} in
     match f !! cfgloader.FileArgName with
     | None => True
     | Some fl => exists ss, flag.asStringSlice fl = Some ss /\ filesEmpty ss
     end ->
     env.keys p (os.Environ vars) = [] ->
     maps.conflictFree (maps.keyPaths (String d EmptyString) f) ->
     (Forall (fun fld =>
                unmatched fld.1 (maps.keyPaths (String d EmptyString) f)
                \/ exists fn fl, f !! fn = Some fl
                     /\ maps.keyPath (String d EmptyString) fn = fld.1
                     /\ decodeField fld.2 (VString (flag.ValueString fl)) = Some fld.2) cfg ->
      (cfgloader.Load vars c cfg f).2 = Loaded cfg)
     /\ (forall fn fl, f !! fn = Some fl ->
           holdsAt cfgloader.LoadUnmarshalError (fun t => (cfgloader.Load vars c t f).2)
             (maps.keyPath (String d EmptyString) fn) (VString (flag.ValueString fl)))).
Proof.
  split.
  - intros vars p d f cfg c Hfiles Henv Hfree.
    destruct (goconfig_fileStep_empty (goconfig.delimiter c) f Hfiles) as [reads Hstep].
    destruct (goconfig_defaults_store p d vars f Henv Hfree) as [Hheld Honly].
    split.
    + intros Hcfg.
      rewrite (goconfig_Load_merged vars c f cfg reads _ Hstep). cbn [snd].
      unfold materialize. rewrite Unmarshal_same; [reflexivity|].
      eapply Forall_impl; [exact Hcfg|]. intros fld [Hno|(fn & fl & Hfl & Hfn & HP & Hdec)].
      * left. intros Q HQ. unfold unmatched in Hno. rewrite Forall_forall in Hno.
        apply Hno. apply Honly. exact HQ.
      * right. exists (pflag.Value fl). split; [|exact Hdec].
        rewrite <- HP. now apply Hheld.
    + intros fn fl Hfl Hfn.
      apply (goconfig_holdsAt vars c f reads _ _ _ Hstep). now apply Hheld.
  - intros vars p d f cfg c Hfiles Henv Hfree.
    destruct (cfgloader_fileStep_empty (cfgloader.delimiter c) f Hfiles) as [reads Hstep].
    destruct (cfgloader_defaults_store p d vars f Henv Hfree) as [Hheld Honly].
    split.
    + intros Hcfg.
      rewrite (cfgloader_Load_merged vars c f cfg reads _ Hstep). cbn [snd].
      unfold materialize. rewrite Unmarshal_same; [reflexivity|].
      eapply Forall_impl; [exact Hcfg|]. intros fld [Hno|(fn & fl & Hfl & HP & Hdec)].
      * left. intros Q HQ. unfold unmatched in Hno. rewrite Forall_forall in Hno.
        apply Hno. apply Honly. exact HQ.
      * right. exists (VString (flag.ValueString fl)). split; [|exact Hdec].
        rewrite <- HP. now apply Hheld.
    + intros fn fl Hfl.
      apply (cfgloader_holdsAt vars c f reads _ _ _ Hstep). now apply Hheld.
Qed.

Lemma load_without_input_keeps_target_witness :
  let vars := [("HOME", "/root")] in
  let c := {| goconfig.prefix := "TEST_"; goconfig.delimiter := "." |} in
  let files := <["config" := Fixture.configFlag [Fixture.emptyFile]]> (∅ : pflag.FlagSet) in
  let f0 : pflag.FlagSet := <["value1" := Fixture.intFlag 0 false]> files in
  let f1 : pflag.FlagSet := <["value1" := Fixture.intFlag 1 false]> files in
  let f2 : pflag.FlagSet :=
    <["value1" := {| pflag.Value := VString "abc"; pflag.Changed := false |}]> files in
  let c' := {| cfgloader.prefix := "TEST_"; cfgloader.delimiter := "." |} in
  let f0' : flag.FlagSet := <["value1" := Fixture.stringFlag "0" false]> ∅ in
  let f1' : flag.FlagSet := <["value1" := Fixture.stringFlag "1" false]> ∅ in
  let f2' : flag.FlagSet := <["value1" := Fixture.stringFlag "abc" false]> ∅ in
  ((goconfig.Load vars c f0 (Fixture.testConfig 0 5 0 0)).2
     = Loaded (Fixture.testConfig 0 5 0 0)
   /\ (goconfig.Load vars c f1 [(["value1"], VInt 0)]).2 = Loaded [(["value1"], VInt 1)]
   /\ (goconfig.Load vars c f2 (Fixture.testConfig 0 5 0 0)).2
      = Failed goconfig.LoadUnmarshalError)
  /\
  ((cfgloader.Load vars c' (Fixture.testConfig 0 5 0 0) f0').2
     = Loaded (Fixture.testConfig 0 5 0 0)
   /\ (cfgloader.Load vars c' [(["value1"], VInt 0)] f1').2 = Loaded [(["value1"], VInt 1)]
   /\ (cfgloader.Load vars c' (Fixture.testConfig 0 5 0 0) f2').2
      = Failed cfgloader.LoadUnmarshalError).
Proof.
  intros vars c files f0 f1 f2 c' f0' f1' f2'.
  destruct (load_without_input_keeps_target (H := Fixture.world)) as [Hg Hc].
  assert (Hfiles : forall x,
    match <["value1" := x]> files !! goconfig.FileArgName with
    | None => True
    | Some fl => exists ss, pflag.Value fl = VStrings ss /\ filesEmpty ss
    end).
  { intros x. unfold files, goconfig.FileArgName.
    rewrite lookup_insert_ne by discriminate. rewrite lookup_insert_eq.
    exists [Fixture.emptyFile]. split; [reflexivity|].
    repeat constructor. eexists; split; reflexivity. }
  split; (split; [|split]).
  - apply (proj1 (Hg vars "TEST_" "."%char f0 (Fixture.testConfig 0 5 0 0)
                    (Hfiles (Fixture.intFlag 0 false)) eq_refl ltac:(by_evaluation))).
    constructor; [|repeat (constructor; [left; unfold unmatched; by_evaluation|]); constructor].
    right. exists "value1", (Fixture.intFlag 0 false).
    split; [reflexivity|]. split; [discriminate|]. split; reflexivity.
  - apply (proj2 (proj2 (proj2 (Hg vars "TEST_" "."%char f1 []
                    (Hfiles (Fixture.intFlag 1 false)) eq_refl ltac:(by_evaluation))
                    "value1" (Fixture.intFlag 1 false) eq_refl ltac:(discriminate)))
             (VInt 0) (VInt 1)).
    reflexivity.
  - apply (proj1 (proj2 (proj2 (Hg vars "TEST_" "."%char f2 []
                    (Hfiles {| pflag.Value := VString "abc"; pflag.Changed := false |}) eq_refl ltac:(by_evaluation))
                    "value1" {| pflag.Value := VString "abc"; pflag.Changed := false |}
                    eq_refl ltac:(discriminate)))
             (Fixture.testConfig 0 5 0 0) (VInt 0)); [apply list_elem_of_here|reflexivity].
  - apply (proj1 (Hc vars "TEST_" "."%char f0' (Fixture.testConfig 0 5 0 0)
                    I eq_refl ltac:(by_evaluation))).
    constructor; [|repeat (constructor; [left; unfold unmatched; by_evaluation|]); constructor].
    right. exists "value1", (Fixture.stringFlag "0" false).
    split; [reflexivity|]. split; reflexivity.
  - apply (proj2 (proj2 (proj2 (Hc vars "TEST_" "."%char f1' []
                    I eq_refl ltac:(by_evaluation))
                    "value1" (Fixture.stringFlag "1" false) eq_refl))
             (VInt 0) (VInt 1)).
    reflexivity.
  - apply (proj1 (proj2 (proj2 (Hc vars "TEST_" "."%char f2' []
                    I eq_refl ltac:(by_evaluation))
                    "value1" (Fixture.stringFlag "abc" false) eq_refl))
             (Fixture.testConfig 0 5 0 0) (VInt 0)); [apply list_elem_of_here|reflexivity].
Defined.

(** ** The two engines on the same load *)

Section Agreement.
Context `{Externals}.

Lemma mapM_ext_Forall {A B : Type} (g h : A -> option B) (l : list A) :
  Forall (fun x => g x = h x) l -> mapM g l = mapM h l.
Proof.
  induction 1 as [|x l Hx _ IH]; [reflexivity|]. cbn. now rewrite Hx, IH.
Qed.

(** Two maps with the same keys shadow the same leaves of the map they are
    merged into. *)
Lemma Merge_same_keys (a a' b : confmap) (Q : keypath) :
  (forall A, is_Some (a !! A) <-> is_Some (a' !! A)) ->
  a !! Q = None ->
  maps.Merge a b !! Q = maps.Merge a' b !! Q.
Proof.
  intros Hdom Ha.
  assert (Ha' : a' !! Q = None).
  { destruct (a' !! Q) eqn:E; [|reflexivity].
    destruct (proj2 (Hdom Q)) as [x Hx]; [eauto|congruence]. }
  unfold maps.Merge. rewrite !lookup_union_r by assumption.
  apply option_eq. intros x. rewrite !map_lookup_filter_Some. cbn [fst].
  split; intros [Hb Hall]; (split; [exact Hb|]); intros A y HA.
  - destruct (proj2 (Hdom A)) as [z Hz]; [eauto|]. exact (Hall A z Hz).
  - destruct (proj1 (Hdom A)) as [z Hz]; [eauto|]. exact (Hall A z Hz).
Qed.

Lemma Merge_lookup_cases (a b : confmap) (Q : keypath) (x : value) :
  maps.Merge a b !! Q = Some x -> a !! Q = Some x \/ (a !! Q = None /\ b !! Q = Some x).
Proof.
  unfold maps.Merge. rewrite lookup_union_Some_raw, map_lookup_filter_Some. tauto.
Qed.

(** What the flag provider of the current engine writes when every flag is
    set or unknown to the store and none has the empty name. *)
Lemma posflag_writes_all (k1 : koanf.Koanf) (f : pflag.FlagSet) :
  f !! "" = None -> unsetUnknown k1 f ->
  map_imap (posflag.visit k1) f = pflag.Value <$> f.
Proof.
  intros Hblank Hunset. apply map_eq. intros fn.
  rewrite map_lookup_imap, lookup_fmap.
  destruct (f !! fn) as [fl|] eqn:Hfl; [|reflexivity]. cbn.
  unfold posflag.visit.
  destruct (String.eqb_spec fn "") as [->|_]; [congruence|].
  destruct (pflag.Changed fl) eqn:Hch; [reflexivity|].
  now rewrite (Hunset fn fl Hfl Hch).
Qed.

Lemma legacy_paths_free (d : ascii) (f : pflag.FlagSet) (f' : flag.FlagSet) :
  dom f = dom f' -> samePaths d f ->
  maps.conflictFree (maps.keyPaths "." f) ->
  maps.conflictFree (maps.keyPaths (String d EmptyString) f').
Proof.
  intros Hdom Hpaths. apply conflictFree_subset. intros P.
  rewrite !elem_of_keyPaths. intros (fn & Hfn & <-).
  apply elem_of_dom in Hfn. rewrite <- Hdom in Hfn. apply elem_of_dom in Hfn.
  exists fn. split; [exact Hfn|]. destruct Hfn as [fl Hfl]. exact (Hpaths fn fl Hfl).
Qed.

(** The leaves the two flag providers write sit at the same paths. *)
Lemma flag_layers (k1 : koanf.Koanf) (d : ascii) (f : pflag.FlagSet) (f' : flag.FlagSet) :
  let MG := maps.Unflatten (map_imap (posflag.visit k1) f) "." in
  let ML := maps.Unflatten ((fun fl => VString (flag.ValueString fl)) <$> f')
              (String d EmptyString) in
  dom f = dom f' -> f !! "" = None ->
  maps.conflictFree (maps.keyPaths "." f) ->
  samePaths d f -> unsetUnknown k1 f ->
  (forall Q x, MG !! Q = Some x ->
     exists fn fl fl', f !! fn = Some fl /\ f' !! fn = Some fl'
       /\ maps.keyPath "." fn = Q /\ x = pflag.Value fl
       /\ ML !! Q = Some (VString (flag.ValueString fl')))
  /\ (forall Q, is_Some (MG !! Q) <-> is_Some (ML !! Q))
  /\ (forall Q, is_Some (ML !! Q) -> Q ∈ maps.keyPaths "." f).
Proof.
  intros MG ML Hdom Hblank Hfree Hpaths Hunset.
  assert (Hfree' := legacy_paths_free d f f' Hdom Hpaths Hfree).
  assert (Hboth : forall fn, is_Some (f !! fn) <-> is_Some (f' !! fn)).
  { intros fn. rewrite <- !elem_of_dom, Hdom. reflexivity. }
  assert (HMG : forall Q x, MG !! Q = Some x ->
    exists fn fl, f !! fn = Some fl /\ maps.keyPath "." fn = Q /\ x = pflag.Value fl).
  { intros Q x HQ. unfold MG in HQ. rewrite (posflag_writes_all k1 f Hblank Hunset) in HQ.
    apply Unflatten_lookup_Some in HQ as (fn & HP & Hfn).
    - rewrite lookup_fmap in Hfn. destruct (f !! fn) as [fl|] eqn:Hfl; [|discriminate].
      injection Hfn as <-. eauto.
    - eapply conflictFree_keyPaths_sub; [|exact Hfree].
      intros k [y Hy]. rewrite lookup_fmap in Hy. destruct (f !! k); [eauto|discriminate]. }
  assert (HML : forall fn fl', f' !! fn = Some fl' ->
    ML !! maps.keyPath (String d EmptyString) fn = Some (VString (flag.ValueString fl'))).
  { intros fn fl' Hfl'. unfold ML. rewrite basicflag_lookup, Hfl' by exact Hfree'. reflexivity. }
  assert (HMLinv : forall Q, is_Some (ML !! Q) ->
    exists fn fl, f !! fn = Some fl /\ maps.keyPath "." fn = Q).
  { intros Q [x HQ]. unfold ML in HQ.
    apply Unflatten_lookup_Some in HQ as (fn & HP & Hfn); [|apply basicflag_free; exact Hfree'].
    rewrite lookup_fmap in Hfn. destruct (f' !! fn) as [fl'|] eqn:Hfl'; [|discriminate].
    destruct (proj2 (Hboth fn)) as [fl Hfl]; [eauto|].
    exists fn, fl. split; [exact Hfl|]. rewrite (Hpaths fn fl Hfl). exact HP. }
  split; [|split].
  - intros Q x HQ. destruct (HMG Q x HQ) as (fn & fl & Hfl & HP & ->).
    destruct (proj1 (Hboth fn)) as [fl' Hfl']; [eauto|].
    exists fn, fl, fl'. repeat (split; [assumption || reflexivity|]).
    rewrite <- HP, (Hpaths fn fl Hfl). now apply HML.
  - intros Q. split.
    + intros [x HQ]. destruct (HMG Q x HQ) as (fn & fl & Hfl & HP & _).
      destruct (proj1 (Hboth fn)) as [fl' Hfl']; [eauto|].
      rewrite <- HP, (Hpaths fn fl Hfl), (HML fn fl' Hfl'). eauto.
    + intros HQ. destruct (HMLinv Q HQ) as (fn & fl & Hfl & <-).
      unfold MG. rewrite (posflag_writes_all k1 f Hblank Hunset).
      rewrite Unflatten_lookup, lookup_fmap, Hfl; [cbn; eauto|].
      eapply conflictFree_keyPaths_sub; [|exact Hfree].
      intros k [y Hy]. rewrite lookup_fmap in Hy. destruct (f !! k); [eauto|discriminate].
  - intros Q HQ. destruct (HMLinv Q HQ) as (fn & fl & Hfl & <-).
    apply elem_of_keyPaths. eauto.
Qed.

End Agreement.

Section AgreementOfLoads.
Context `{Externals}.

(** The stores of the two engines after the flag step give every field of
    the target the same value. *)
Lemma unmarshal_agree (k1 : koanf.Koanf) (d : ascii) (f : pflag.FlagSet)
    (f' : flag.FlagSet) (cfg : koanf.target) :
  let kG := koanf.merge k1 (maps.Unflatten (map_imap (posflag.visit k1) f) ".") in
  let kL := koanf.merge k1
              (maps.Unflatten ((fun fl => VString (flag.ValueString fl)) <$> f')
                 (String d EmptyString)) in
  dom f = dom f' -> f !! "" = None ->
  maps.conflictFree (maps.keyPaths "." f) ->
  samePaths d f -> unsetUnknown k1 f ->
  decodesAlike f f' cfg -> spelledAsTagged cfg k1 f ->
  koanf.Unmarshal kL cfg = koanf.Unmarshal kG cfg.
Proof.
  intros kG kL Hdom Hblank Hfree Hpaths Hunset Hdec Hsp.
  destruct (flag_layers k1 d f f' Hdom Hblank Hfree Hpaths Hunset) as (HMG & Hsame & HMLin).
  set (MG := maps.Unflatten (map_imap (posflag.visit k1) f) ".") in *.
  set (ML := maps.Unflatten ((fun fl => VString (flag.ValueString fl)) <$> f')
               (String d EmptyString)) in *.
  assert (HMGin : forall Q, is_Some (MG !! Q) -> Q ∈ maps.keyPaths "." f).
  { intros Q HQ. apply HMLin, Hsame, HQ. }
  unfold koanf.Unmarshal. apply mapM_ext_Forall.
  unfold decodesAlike in Hdec. unfold spelledAsTagged in Hsp.
  rewrite Forall_forall in Hdec, Hsp. apply Forall_forall. intros [P cur] Hin.
  specialize (Hdec _ Hin). destruct (Hsp _ Hin) as [Hstore Hflags]. cbn [fst snd] in *.
  rewrite Forall_forall in Hflags.
  assert (Hloose : forall (M : confmap) Q,
    (forall A, is_Some (M !! A) -> A ∈ maps.keyPaths "." f) ->
    maps.Merge M (koanf.confMap k1) !! P = None ->
    is_Some (maps.Merge M (koanf.confMap k1) !! Q) -> ~ koanf.looseMatch P Q).
  { intros M Q HM HP [y HQ] Hl.
    assert (HQP : Q = P).
    { apply Merge_lookup_Some_inv in HQ as [HQ|HQ].
      - apply Hflags; [apply HM; eauto|exact Hl].
      - exact (Hstore Q y HQ Hl). }
    subst Q. congruence. }
  unfold koanf.unmarshalField. cbn [fst snd koanf.confMap kG kL koanf.merge].
  destruct (MG !! P) as [x|] eqn:HP.
  - destruct (HMG P x HP) as (fn & fl & fl' & Hfl & Hfl' & Hkey & -> & HLP).
    rewrite (Merge_lookup_new ML _ P _ HLP), (Merge_lookup_new MG _ P _ HP).
    specialize (Hdec fn fl Hfl Hkey). rewrite Hfl' in Hdec. cbn in Hdec.
    now rewrite Hdec.
  - rewrite <- (Merge_same_keys MG ML (koanf.confMap k1) P Hsame HP).
    destruct (maps.Merge MG (koanf.confMap k1) !! P) as [raw|] eqn:HGP; [reflexivity|].
    assert (HLP : maps.Merge ML (koanf.confMap k1) !! P = None)
      by (now rewrite <- (Merge_same_keys MG ML (koanf.confMap k1) P Hsame HP)).
    rewrite !decide_True; [reflexivity| |].
    + intros Q y HQ. apply (Hloose MG Q HMGin HGP). eauto.
    + intros Q y HQ. apply (Hloose ML Q HMLin HLP). eauto.
Qed.

Lemma loads_agree (vars : list os.envVar) (p : string) (d : ascii)
    (f : pflag.FlagSet) (f' : flag.FlagSet) (cfg : koanf.target)
    (reads : list string) (k0 k1 : koanf.Koanf) :
  let c := {| goconfig.prefix := p; goconfig.delimiter := String d EmptyString |} in
  sameFiles f f' ->
  goconfig.fileStep (koanf.New (goconfig.delimiter c)) f = (reads, inl k0) ->
  koanf_Load k0 (env.Provider (os.Environ vars) p (String d EmptyString) (goconfig.updateEnv c))
    = Some k1 ->
  dom f = dom f' -> f !! "" = None ->
  maps.conflictFree (maps.keyPaths "." f) ->
  samePaths d f -> unsetUnknown k1 f ->
  decodesAlike f f' cfg -> spelledAsTagged cfg k1 f ->
  cfgloader.Load vars (legacy c) cfg f'
  = ((goconfig.Load vars c f cfg).1, legacyOutcome (goconfig.Load vars c f cfg).2).
Proof.
  intros c Hfiles Hstep Henv Hdom Hblank Hfree Hpaths Hunset Hdec Hsp.
  assert (Hstep' : cfgloader.fileStep (koanf.New (cfgloader.delimiter (legacy c))) f'
                   = (reads, inl k0)).
  { cbn [legacy cfgloader.delimiter].
    rewrite (fileStep_agree _ f f' Hfiles), Hstep. reflexivity. }
  unfold koanf_Load, env.Provider in Henv. cbn in Henv. injection Henv as Hk1.
  rewrite (goconfig_Load_merged vars c f cfg reads k0 Hstep).
  rewrite (cfgloader_Load_merged vars (legacy c) f' cfg reads k0 Hstep').
  cbn [fst snd legacy cfgloader.prefix cfgloader.delimiter goconfig.prefix
       goconfig.delimiter c].
  change (cfgloader.updateEnv (legacy c)) with (goconfig.updateEnv c).
  cbn [legacy cfgloader.prefix cfgloader.delimiter goconfig.prefix goconfig.delimiter c].
  rewrite Hk1. f_equal. unfold materialize.
  rewrite (unmarshal_agree k1 d f f' cfg Hdom Hblank Hfree Hpaths Hunset Hdec Hsp).
  destruct (koanf.Unmarshal _ cfg); reflexivity.
Qed.

End AgreementOfLoads.

(** C10 (as the code has it). The two engines validate the delimiter alike
    and build the same configuration, normalize environment names alike, and
    read the same files with the same parser to the same store or the same
    error, in which case both loads fail alike. Past the file step they come
    to the same outcome on the same input when the flag sets define the same
    names, none of them empty and none leading through another, each name
    spells the same path under the dot and under the configured delimiter,
    every flag that was not set has a name the store does not know after the
    files and the environment, the fields the flags name decode a flag's
    printed value as they decode the value itself, and the keys that match a
    field are spelled as the field is tagged. *)
Theorem engines_agree `{Externals} :
  (forall p d : string,
     match goconfig.New p d, cfgloader.New p d with
     | inl c, inl c' => c' = legacy c
     | inr e, inr e' => e' = legacyError e
     | _, _ => False
     end)
  /\ (forall (c : goconfig.Config) (s : string),
        cfgloader.updateEnv (legacy c) s = goconfig.updateEnv c s)
  /\ (forall (k : koanf.Koanf) (f : pflag.FlagSet) (f' : flag.FlagSet),
        sameFiles f f' ->
        cfgloader.fileStep k f'
        = ((goconfig.fileStep k f).1, sum_map id legacyError (goconfig.fileStep k f).2))
  /\ (forall (vars : list os.envVar) (c : goconfig.Config) (f : pflag.FlagSet)
        (f' : flag.FlagSet) (cfg : koanf.target) (reads : list string) (e : goconfig.error),
        sameFiles f f' ->
        goconfig.fileStep (koanf.New (goconfig.delimiter c)) f = (reads, inr e) ->
        goconfig.Load vars c f cfg = (reads, Failed e)
        /\ cfgloader.Load vars (legacy c) cfg f' = (reads, Failed (legacyError e)))
  /\ (forall (vars : list os.envVar) (p : string) (d : ascii)
        (f : pflag.FlagSet) (f' : flag.FlagSet) (cfg : koanf.target)
        (reads : list string) (k0 k1 : koanf.Koanf),
        let c := {| goconfig.prefix := p; goconfig.delimiter := String d EmptyString |} in
        sameFiles f f' ->
        goconfig.fileStep (koanf.New (goconfig.delimiter c)) f = (reads, inl k0) ->
        koanf_Load k0
          (env.Provider (os.Environ vars) p (String d EmptyString) (goconfig.updateEnv c))
          = Some k1 ->
        dom f = dom f' -> f !! "" = None ->
        maps.conflictFree (maps.keyPaths "." f) ->
        samePaths d f -> unsetUnknown k1 f ->
        decodesAlike f f' cfg -> spelledAsTagged cfg k1 f ->
        cfgloader.Load vars (legacy c) cfg f'
        = ((goconfig.Load vars c f cfg).1, legacyOutcome (goconfig.Load vars c f cfg).2)).
Proof.
  split; [|split; [|split; [|split]]].
  - intros p d. unfold goconfig.New, cfgloader.New.
    destruct (negb (Nat.eqb (String.length d) 1)); reflexivity.
  - reflexivity.
  - intros k f f'. apply fileStep_agree.
  - intros vars c f f' cfg reads e Hfiles Hstep. split.
    + unfold goconfig.Load, goconfig.Load_with. now rewrite Hstep.
    + unfold cfgloader.Load, cfgloader.Load_with. cbn [legacy cfgloader.delimiter].
      now rewrite (fileStep_agree _ f f' Hfiles), Hstep.
  - exact loads_agree.
Qed.

Lemma engines_agree_witness :
  let vars := [("HOME", "/root"); ("TEST_VALUE2", "7")] in
  let c := {| goconfig.prefix := "TEST_"; goconfig.delimiter := "." |} in
  let f : pflag.FlagSet :=
    <["value1" := Fixture.intFlag 103 true]>
      (<["value3" := Fixture.intFlag 9 false]>
         (<["config" := Fixture.configFlag [Fixture.goodFile]]> ∅)) in
  let f' : flag.FlagSet :=
    <["value1" := Fixture.stringFlag "103" true]>
      (<["value3" := Fixture.stringFlag "9" false]>
         (<["config" := Fixture.sliceFlag Fixture.goodFile [Fixture.goodFile]]> ∅)) in
  let cfg := Fixture.testConfig 0 0 0 0 in
  cfgloader.Load vars (legacy c) cfg f'
  = ((goconfig.Load vars c f cfg).1, legacyOutcome (goconfig.Load vars c f cfg).2)
  /\ goconfig.Load vars c f cfg
     = ([Fixture.goodFile], Loaded (Fixture.testConfig 103 7 9 102)).
Proof.
  intros vars c f f' cfg.
  destruct (engines_agree (H := Fixture.world)) as (_ & _ & _ & _ & Hload).
  split; [|vm_compute; reflexivity].
  apply (Hload vars "TEST_" "."%char f f' cfg [Fixture.goodFile]
           (koanf.merge (koanf.New ".") Fixture.goodMap)
           (koanf.merge (koanf.merge (koanf.New ".") Fixture.goodMap)
              (<[ ["value2"] := VString "7" ]> ∅))).
  - reflexivity.
  - vm_compute; reflexivity.
  - vm_compute; reflexivity.
  - by_evaluation.
  - reflexivity.
  - by_evaluation.
  - unfold samePaths. by_evaluation.
  - unfold unsetUnknown. by_evaluation.
  - unfold decodesAlike. by_evaluation.
  - unfold spelledAsTagged. by_evaluation.
Defined.
